(** * Minecraft-Bot-Joiner: bot lifecycle manager, storage and name generator

    A shallow embedding of the server side of the repository:
    - the schema ([BotConfig], [LogEntry], [BotStatus]) of [shared/schema.ts];
    - the name generator ([generateRandomUsername], [releaseUsername]) and
      the class [MinecraftBotService], which the bot service imports as
      [./nameGenerator] and the routes as [./services/minecraftBot], and
      which follow the schema in the same source file;
    - the class [MemStorage] of [server/storage.ts];
    - the routes and the registry [botServices] ([registerRoutes]).

    Conventions.  A JavaScript [number] that the code only uses as an integer
    is a [Z]; a [Date] is its millisecond count, a [Z]; [Math.random()] is a
    rational in the unit interval drawn from an explicit stream; a
    [Map] whose iteration order is observed is an insertion-ordered
    association list, a [Map] that is only looked up is a [gmap]; a [Set] is
    a [gset].  Mutable objects live in an explicit world that every method
    threads; a JavaScript exception is the [Throw] outcome of a computation.
    Every handler runs to completion: the promises it awaits are settled
    when it awaits them, so no other callback runs in between. *)

From Stdlib Require Import ZArith QArith Qround String List Lia DecimalString Sorted.
From stdpp Require Import base gmap strings list.

Local Open Scope string_scope.
Local Open Scope list_scope.
Local Open Scope Z_scope.

(** ** JavaScript helpers *)

(** [`${n}`] for an integer [n]. *)
Definition showZ (z : Z) : string :=
  match z with
  | Z0 => "0"
  | Zpos p => NilEmpty.string_of_uint (Pos.to_uint p)
  | Zneg p => "-" +:+ NilEmpty.string_of_uint (Pos.to_uint p)
  end.

(** [s || d] on strings: the empty string is falsy. *)
Definition str_or (s d : string) : string :=
  if String.eqb s "" then d else s.

(** [n || d] on integers: zero is falsy. *)
Definition num_or (n d : Z) : Z :=
  if n =? 0 then d else n.

(** [o ?? d]: only an absent value takes the default. *)
Definition nullish {A} (o : option A) (d : A) : A :=
  match o with Some a => a | None => d end.

(** [o || d] for an optional field: absent or falsy takes the default. *)
Definition opt_str_or (o : option string) (d : string) : string :=
  match o with Some s => str_or s d | None => d end.

Definition opt_num_or (o : option Z) (d : Z) : Z :=
  match o with Some n => num_or n d | None => d end.

(** [Array.prototype.slice(0, e)]: a negative end counts from the back. *)
Definition slice0 {A} (e : Z) (l : list A) : list A :=
  let len := Z.of_nat (length l) in
  let fin := if e <? 0 then Z.max (len + e) 0 else Z.min e len in
  take (Z.to_nat fin) l.

(** [Array.prototype.sort(cmp)] is a stable sort (ECMAScript 2019): with a
    consistent comparator the result is the sorted permutation that keeps
    elements comparing equal in their original order.  Insertion from the
    right computes exactly that permutation. *)
Section Sort.
Context {A : Type} (cmp : A → A → Z).

Fixpoint sort_insert (x : A) (l : list A) : list A :=
  match l with
  | [] => [x]
  | y :: l' => if cmp x y <=? 0 then x :: y :: l' else y :: sort_insert x l'
  end.

Definition js_sort (l : list A) : list A := foldr sort_insert [] l.
End Sort.

(** An insertion-ordered [Map<number, V>]. *)
Module JsMap.
Section Ops.
Context {V : Type}.
Definition t := list (Z * V).

Fixpoint get (k : Z) (m : list (Z * V)) : option V :=
  match m with
  | [] => None
  | (k', v) :: m' => if k =? k' then Some v else get k m'
  end.

(** [set] keeps the position of an existing key and appends a new one. *)
Fixpoint set (k : Z) (v : V) (m : list (Z * V)) : list (Z * V) :=
  match m with
  | [] => [(k, v)]
  | (k', v') :: m' =>
      if k =? k' then (k, v) :: m' else (k', v') :: set k v m'
  end.

Definition delete (k : Z) (m : list (Z * V)) : list (Z * V) :=
  filter (λ kv, fst kv ≠ k) m.

Definition has (k : Z) (m : list (Z * V)) : bool :=
  match get k m with Some _ => true | None => false end.

Definition values (m : list (Z * V)) : list V := map snd m.
End Ops.
End JsMap.

(** ** shared/schema.ts *)

Module BotConfig.
Record t := mk {
  id : Z;
  username : string;
  serverIp : string;
  serverPort : Z;
  autoReconnect : bool;
  reconnectInterval : Z;
  maxReconnectAttempts : Z;
  logLevel : string;
  wanderEnabled : bool;
  chatEnabled : bool;
  useRandomNames : bool;
  isActive : bool
}.
End BotConfig.

(** [InsertBotConfig]: every column has a default, so every key is optional. *)
Module InsertBotConfig.
Record t := mk {
  username : option string;
  serverIp : option string;
  serverPort : option Z;
  autoReconnect : option bool;
  reconnectInterval : option Z;
  maxReconnectAttempts : option Z;
  logLevel : option string;
  wanderEnabled : option bool;
  chatEnabled : option bool;
  useRandomNames : option bool;
  isActive : option bool
}.

Definition empty : t :=
  mk None None None None None None None None None None None.
End InsertBotConfig.

Module InsertLogEntry.
Record t := mk { level : string; message : string }.
End InsertLogEntry.

Module LogEntry.
Record t := mk { id : Z; timestamp : Z; level : string; message : string }.
End LogEntry.

Module BotStatus.
Record t := mk {
  id : Z;
  connected : bool;
  username : string;
  uptime : Z;
  reconnectCount : Z;
  wandering : bool;
  hasServerInfo : bool
}.
End BotStatus.

(** ** server/storage.ts: class MemStorage *)

Module MemStorage.
Record t := mk {
  botConfigs : list (Z * BotConfig.t);
  logs : list (Z * LogEntry.t);
  currentBotId : Z;
  currentLogId : Z
}.

Definition defaultConfig : BotConfig.t :=
  BotConfig.mk 1 "MinecraftBot_01" "example.com" 12345 true 30 10 "info"
               false false false false.

(** [constructor()] *)
Definition new : t := mk [(1, defaultConfig)] [] 1 1.

(** [getBotConfig(id?)]: a falsy id (absent or 0) reads the config 1. *)
Definition getBotConfig (oid : option Z) (st : t) : option BotConfig.t :=
  match oid with
  | Some i => if i =? 0 then JsMap.get 1 (botConfigs st)
              else JsMap.get i (botConfigs st)
  | None => JsMap.get 1 (botConfigs st)
  end.

Definition getAllBotConfigs (st : t) : list BotConfig.t :=
  JsMap.values (botConfigs st).

Definition createBotConfig (config : InsertBotConfig.t) (st : t)
  : BotConfig.t * t :=
  let id := currentBotId st + 1 in
  let newConfig :=
    BotConfig.mk id
      (opt_str_or (InsertBotConfig.username config) "MinecraftBot")
      (opt_str_or (InsertBotConfig.serverIp config) "example.com")
      (opt_num_or (InsertBotConfig.serverPort config) 12345)
      (nullish (InsertBotConfig.autoReconnect config) true)
      (opt_num_or (InsertBotConfig.reconnectInterval config) 30)
      (opt_num_or (InsertBotConfig.maxReconnectAttempts config) 10)
      (opt_str_or (InsertBotConfig.logLevel config) "info")
      (nullish (InsertBotConfig.wanderEnabled config) false)
      (nullish (InsertBotConfig.chatEnabled config) false)
      (nullish (InsertBotConfig.useRandomNames config) false)
      (nullish (InsertBotConfig.isActive config) false) in
  (newConfig,
   mk (JsMap.set id newConfig (botConfigs st)) (logs st) id (currentLogId st)).

(** [{ ...existing, ...config }]: a supplied key overrides, as it is. *)
Definition merge (existing : BotConfig.t) (config : InsertBotConfig.t)
  : BotConfig.t :=
  BotConfig.mk (BotConfig.id existing)
    (nullish (InsertBotConfig.username config) (BotConfig.username existing))
    (nullish (InsertBotConfig.serverIp config) (BotConfig.serverIp existing))
    (nullish (InsertBotConfig.serverPort config) (BotConfig.serverPort existing))
    (nullish (InsertBotConfig.autoReconnect config) (BotConfig.autoReconnect existing))
    (nullish (InsertBotConfig.reconnectInterval config)
             (BotConfig.reconnectInterval existing))
    (nullish (InsertBotConfig.maxReconnectAttempts config)
             (BotConfig.maxReconnectAttempts existing))
    (nullish (InsertBotConfig.logLevel config) (BotConfig.logLevel existing))
    (nullish (InsertBotConfig.wanderEnabled config) (BotConfig.wanderEnabled existing))
    (nullish (InsertBotConfig.chatEnabled config) (BotConfig.chatEnabled existing))
    (nullish (InsertBotConfig.useRandomNames config)
             (BotConfig.useRandomNames existing))
    (nullish (InsertBotConfig.isActive config) (BotConfig.isActive existing)).

(** [updateBotConfig(config, id?)]; [None] is the thrown
    "Bot config not found". *)
Definition updateBotConfig (config : InsertBotConfig.t) (oid : option Z)
    (st : t) : option (BotConfig.t * t) :=
  let configId := opt_num_or oid 1 in
  match JsMap.get configId (botConfigs st) with
  | Some existing =>
      let updated := merge existing config in
      Some (updated,
            mk (JsMap.set configId updated (botConfigs st)) (logs st)
               (currentBotId st) (currentLogId st))
  | None => None
  end.

Definition deleteBotConfig (id : Z) (st : t) : t :=
  mk (JsMap.delete id (botConfigs st)) (logs st)
     (currentBotId st) (currentLogId st).

Definition setActive (b : bool) (c : BotConfig.t) : BotConfig.t :=
  BotConfig.mk (BotConfig.id c) (BotConfig.username c) (BotConfig.serverIp c)
    (BotConfig.serverPort c) (BotConfig.autoReconnect c)
    (BotConfig.reconnectInterval c) (BotConfig.maxReconnectAttempts c)
    (BotConfig.logLevel c) (BotConfig.wanderEnabled c)
    (BotConfig.chatEnabled c) (BotConfig.useRandomNames c) b.

Definition updateBotStatus (id : Z) (isActive : bool) (st : t) : t :=
  match JsMap.get id (botConfigs st) with
  | Some config =>
      mk (JsMap.set id (setActive isActive config) (botConfigs st)) (logs st)
         (currentBotId st) (currentLogId st)
  | None => st
  end.

(** [createLogEntry(entry)]; [now] is the value of [new Date()]. *)
Definition createLogEntry (now : Z) (entry : InsertLogEntry.t) (st : t)
  : LogEntry.t * t :=
  let id := currentLogId st in
  let logEntry :=
    LogEntry.mk id now (InsertLogEntry.level entry)
                (InsertLogEntry.message entry) in
  (logEntry,
   mk (botConfigs st) (JsMap.set id logEntry (logs st))
      (currentBotId st) (id + 1)).

(** [getLogEntries(limit = 100)] *)
Definition getLogEntries (limit : option Z) (st : t) : list LogEntry.t :=
  let entries :=
    slice0 (nullish limit 100)
      (js_sort (λ a b, LogEntry.timestamp b - LogEntry.timestamp a)
               (JsMap.values (logs st))) in
  rev entries.

Definition clearLogEntries (st : t) : t :=
  mk (botConfigs st) [] (currentBotId st) 1.
End MemStorage.

(** ** Math.random *)

(** The stream of values that successive [Math.random()] calls return.
    The values are exact rationals, and so are the products and the
    comparisons below: the rounding of the doubles that the JavaScript
    engine computes with is not modelled. *)
Module Rng.
Record t := mk { draws : nat → Q; pos : nat }.

Definition random (g : t) : Q * t := (draws g (pos g), mk (draws g) (S (pos g))).

(** [Math.floor(r * n)] *)
Definition floor_mul (r : Q) (n : Z) : Z := Qfloor (r * inject_Z n).

(** [r < c] for a decimal constant [c]. *)
Definition lt (r c : Q) : bool := negb (Qle_bool c r).
End Rng.

(** ** server/services/nameGenerator.ts *)

Module NameGenerator.
Definition firstNames : list string :=
  ["Alex"; "Steve"; "Luna"; "Max"; "Emma"; "Jake"; "Zoe"; "Noah"; "Lily"; "Sam";
   "Kai"; "Maya"; "Leo"; "Aria"; "Finn"; "Nora"; "Cole"; "Ruby"; "Jack"; "Ivy";
   "Owen"; "Mia"; "Liam"; "Eva"; "Luke"; "Sky"; "Ryan"; "Sage"; "Dean"; "Rose";
   "Blake"; "Jade"; "Gray"; "Belle"; "Cruz"; "Wren"; "Knox"; "Faye"; "Jude"; "Vale"].

Definition suffixes : list string :=
  ["Gaming"; "Pro"; "Master"; "Craft"; "Build"; "Mine"; "Player"; "Hero";
   "2024"; "99"; "101"; "X"; "Z"; "MC"; "YT"; "TTV"; "Live"; "Stream";
   "Builder"; "Miner"; "Crafter"; "Legend"; "King"; "Queen"; "Boss"; "Elite";
   "Gamer"; "Noob"; "Newbie"; "Rookie"; "Veteran"; "Expert"; "Ninja"; "Wizard"].

Definition adjectives : list string :=
  ["Cool"; "Epic"; "Awesome"; "Super"; "Mega"; "Ultra"; "Shadow"; "Dark";
   "Light"; "Fire"; "Ice"; "Storm"; "Thunder"; "Swift"; "Silent"; "Wild";
   "Brave"; "Bold"; "Lucky"; "Smart"; "Quick"; "Strong"; "Mystic"; "Golden";
   "Silver"; "Diamond"; "Emerald"; "Ruby"; "Crystal"; "Neon"; "Cyber"; "Digital"].

Definition variations : list string := ["_"; "X"; "Z"].

(** [arr[i]] inside a template string: a missing element prints as
    [undefined]. *)
Definition at_index (arr : list string) (i : Z) : string :=
  if i <? 0 then "undefined" else nth (Z.to_nat i) arr "undefined".

(** [arr[Math.floor(Math.random() * arr.length)]] *)
Definition pick (arr : list string) (g : Rng.t) : string * Rng.t :=
  let '(r, g) := Rng.random g in
  (at_index arr (Rng.floor_mul r (Z.of_nat (length arr))), g).

(** One pass through the body of the [while] loop, up to the test. *)
Definition candidate (g : Rng.t) : string * Rng.t :=
  let '(nameType, g) := Rng.random g in
  let '(username, g) :=
    if Rng.lt nameType (4 # 10) then
      let '(firstName, g) := pick firstNames g in
      let '(suffix, g) := pick suffixes g in
      (firstName +:+ suffix, g)
    else if Rng.lt nameType (7 # 10) then
      let '(adjective, g) := pick adjectives g in
      let '(firstName, g) := pick firstNames g in
      (adjective +:+ firstName, g)
    else
      let '(firstName, g) := pick firstNames g in
      let '(r, g) := Rng.random g in
      let number := Rng.floor_mul r 9999 + 1 in
      (firstName +:+ showZ number, g) in
  let '(v, g) := Rng.random g in
  if Rng.lt v (1 # 10) then
    let '(d, g) := pick variations g in (username +:+ d, g)
  else (username, g).

(** The test [username.length <= 16 && !usedNames.has(username)]. *)
Definition acceptable (usedNames : gset string) (username : string) : bool :=
  (Z.of_nat (String.length username) <=? 16)
  && negb (bool_decide (username ∈ usedNames)).

(** The [while (attempts < maxAttempts)] loop; [left] is
    [maxAttempts - attempts].  [None] means the loop ran out. *)
Fixpoint attempt (left : nat) (usedNames : gset string) (g : Rng.t)
  : option string * Rng.t :=
  match left with
  | O => (None, g)
  | S left' =>
      let '(username, g) := candidate g in
      if acceptable usedNames username then (Some username, g)
      else attempt left' usedNames g
  end.

Definition maxAttempts : nat := 100.

Definition generateRandomUsername (usedNames : gset string) (g : Rng.t)
  : string * gset string * Rng.t :=
  match attempt maxAttempts usedNames g with
  | (Some username, g) => (username, {[username]} ∪ usedNames, g)
  | (None, g) =>
      let '(r, g) := Rng.random g in
      let fallback := "Player" +:+ showZ (Rng.floor_mul r 99999) in
      (fallback, {[fallback]} ∪ usedNames, g)
  end.

Definition releaseUsername (username : string) (usedNames : gset string)
  : gset string :=
  usedNames ∖ {[username]}.

(** [n] calls of [generateRandomUsername] in a row, none released. *)
Fixpoint allocate (n : nat) (usedNames : gset string) (g : Rng.t)
  : list string * gset string * Rng.t :=
  match n with
  | O => ([], usedNames, g)
  | S n' =>
      let '(name, usedNames, g) := generateRandomUsername usedNames g in
      let '(names, usedNames, g) := allocate n' usedNames g in
      (name :: names, usedNames, g)
  end.
End NameGenerator.

(** ** The world of server/services/minecraftBot.ts and server/routes.ts *)

(** What a [MinecraftBotService] emits on its three channels. *)
Inductive Emit :=
| ELog (entry : InsertLogEntry.t)
| EStatus (status : BotStatus.t)
| EError (message : string).

Definition log (level message : string) : Emit :=
  ELog (InsertLogEntry.mk level message).

(** Events of a mineflayer bot that the service listens to. *)
Inductive BotEvent :=
| Login
| Spawn
| Chat (username message : string)
| Error (code message : string)
| Kicked (reason : string)
| End_
| Death
| Health (health : Z).

(** Calls made on a mineflayer bot. *)
Inductive Command :=
| LookAt (dx dz : Z) (distance : Q)
| Forward (on : bool)
| Say (message : string)
| Quit.

(** A mineflayer bot, as far as the service can tell: the options it was
    created with, whether the service's listeners are still attached (and to
    which service object they belong), and what the library has filled in. *)
Module MBot.
Record t := mk {
  host : string;
  port : Z;
  username : string;
  listeners : option nat;
  loggedIn : bool;
  ended : bool
}.

Definition removeAllListeners (b : t) : t :=
  mk (host b) (port b) (username b) None (loggedIn b) (ended b).
Definition setLoggedIn (b : t) : t :=
  mk (host b) (port b) (username b) (listeners b) true (ended b).
Definition setEnded (b : t) : t :=
  mk (host b) (port b) (username b) (listeners b) (loggedIn b) true.
Definition on (i : nat) (b : t) : t :=
  mk (host b) (port b) (username b) (Some i) (loggedIn b) (ended b).
End MBot.

(** What the session library decides: whether the [k]-th [createBot] call
    raises, and whether [quit()] of the bot [b] raises. *)
Module Adapter.
Record t := mk {
  createThrows : nat → option string;
  quitThrows : nat → option string;
  createCalls : nat
}.
Definition reliable : t := mk (λ _, None) (λ _, None) 0.
Definition called (a : t) : t :=
  mk (createThrows a) (quitThrows a) (S (createCalls a)).
End Adapter.

Inductive TimerKind := Reconnect | Wander | ChatTick | ForwardOff | WanderDone.

Global Instance TimerKind_eq_dec : EqDecision TimerKind.
Proof. solve_decision. Defined.

(** A [setTimeout] or [setInterval] handle: the service whose method the
    callback closes over, what the callback does, the delay in
    milliseconds, and whether it is still scheduled. *)
Module Timer.
Record t := mk {
  owner : nat;
  kind : TimerKind;
  delay : Q;
  repeating : bool;
  scheduled : bool
}.
Definition clear (x : t) : t :=
  mk (owner x) (kind x) (delay x) (repeating x) false.
End Timer.

(** A websocket client of [connectedClients]. *)
Module WsClient.
Record t := mk { readyOpen : bool; sendThrows : bool }.
End WsClient.

(** class MinecraftBotService: the fields of one object. *)
Module Service.
Record t := mk {
  bot : option nat;
  config : BotConfig.t;
  reconnectAttempts : Z;
  startTime : option Z;
  reconnectTimeout : option nat;
  wanderInterval : option nat;
  chatInterval : option nat;
  actualUsername : string;
  isWandering : bool
}.

(** [constructor(config)] *)
Definition new (config : BotConfig.t) : t :=
  mk None config 0 None None None None "" false.

Definition set_bot (v : option nat) (s : t) : t :=
  mk v (config s) (reconnectAttempts s) (startTime s) (reconnectTimeout s)
     (wanderInterval s) (chatInterval s) (actualUsername s) (isWandering s).
Definition set_config (v : BotConfig.t) (s : t) : t :=
  mk (bot s) v (reconnectAttempts s) (startTime s) (reconnectTimeout s)
     (wanderInterval s) (chatInterval s) (actualUsername s) (isWandering s).
Definition set_reconnectAttempts (v : Z) (s : t) : t :=
  mk (bot s) (config s) v (startTime s) (reconnectTimeout s)
     (wanderInterval s) (chatInterval s) (actualUsername s) (isWandering s).
Definition set_startTime (v : option Z) (s : t) : t :=
  mk (bot s) (config s) (reconnectAttempts s) v (reconnectTimeout s)
     (wanderInterval s) (chatInterval s) (actualUsername s) (isWandering s).
Definition set_reconnectTimeout (v : option nat) (s : t) : t :=
  mk (bot s) (config s) (reconnectAttempts s) (startTime s) v
     (wanderInterval s) (chatInterval s) (actualUsername s) (isWandering s).
Definition set_wanderInterval (v : option nat) (s : t) : t :=
  mk (bot s) (config s) (reconnectAttempts s) (startTime s) (reconnectTimeout s)
     v (chatInterval s) (actualUsername s) (isWandering s).
Definition set_chatInterval (v : option nat) (s : t) : t :=
  mk (bot s) (config s) (reconnectAttempts s) (startTime s) (reconnectTimeout s)
     (wanderInterval s) v (actualUsername s) (isWandering s).
Definition set_actualUsername (v : string) (s : t) : t :=
  mk (bot s) (config s) (reconnectAttempts s) (startTime s) (reconnectTimeout s)
     (wanderInterval s) (chatInterval s) v (isWandering s).
Definition set_isWandering (v : bool) (s : t) : t :=
  mk (bot s) (config s) (reconnectAttempts s) (startTime s) (reconnectTimeout s)
     (wanderInterval s) (chatInterval s) (actualUsername s) v.
End Service.

(** Everything the server process holds.  [services], [bots] and [timers]
    are heaps: an object is named by its position, and nothing is ever
    removed from them, as an object that is no longer referenced from the
    registry may still be reached from a timer or a listener.  [adapter]
    and [rng] are what the session library and [Math.random] will answer;
    [emitted] and [commands] record what the services emitted and what they
    asked of their bots. *)
Module World.
Record t := mk {
  services : list Service.t;
  botServices : gmap Z nat;
  bots : list MBot.t;
  timers : list Timer.t;
  usedNames : gset string;
  rng : Rng.t;
  adapter : Adapter.t;
  storage : MemStorage.t;
  connectedClients : list WsClient.t;
  now : Z;
  emitted : list (nat * Emit);
  commands : list (nat * Command)
}.

Definition set_services (f : list Service.t → list Service.t) (w : t) : t :=
  mk (f (services w)) (botServices w) (bots w) (timers w) (usedNames w)
     (rng w) (adapter w) (storage w) (connectedClients w) (now w)
     (emitted w) (commands w).
Definition set_botServices (f : gmap Z nat → gmap Z nat) (w : t) : t :=
  mk (services w) (f (botServices w)) (bots w) (timers w) (usedNames w)
     (rng w) (adapter w) (storage w) (connectedClients w) (now w)
     (emitted w) (commands w).
Definition set_bots (f : list MBot.t → list MBot.t) (w : t) : t :=
  mk (services w) (botServices w) (f (bots w)) (timers w) (usedNames w)
     (rng w) (adapter w) (storage w) (connectedClients w) (now w)
     (emitted w) (commands w).
Definition set_timers (f : list Timer.t → list Timer.t) (w : t) : t :=
  mk (services w) (botServices w) (bots w) (f (timers w)) (usedNames w)
     (rng w) (adapter w) (storage w) (connectedClients w) (now w)
     (emitted w) (commands w).
Definition set_usedNames (f : gset string → gset string) (w : t) : t :=
  mk (services w) (botServices w) (bots w) (timers w) (f (usedNames w))
     (rng w) (adapter w) (storage w) (connectedClients w) (now w)
     (emitted w) (commands w).
Definition set_rng (f : Rng.t → Rng.t) (w : t) : t :=
  mk (services w) (botServices w) (bots w) (timers w) (usedNames w)
     (f (rng w)) (adapter w) (storage w) (connectedClients w) (now w)
     (emitted w) (commands w).
Definition set_adapter (f : Adapter.t → Adapter.t) (w : t) : t :=
  mk (services w) (botServices w) (bots w) (timers w) (usedNames w)
     (rng w) (f (adapter w)) (storage w) (connectedClients w) (now w)
     (emitted w) (commands w).
Definition set_storage (f : MemStorage.t → MemStorage.t) (w : t) : t :=
  mk (services w) (botServices w) (bots w) (timers w) (usedNames w)
     (rng w) (adapter w) (f (storage w)) (connectedClients w) (now w)
     (emitted w) (commands w).
Definition set_now (f : Z → Z) (w : t) : t :=
  mk (services w) (botServices w) (bots w) (timers w) (usedNames w)
     (rng w) (adapter w) (storage w) (connectedClients w) (f (now w))
     (emitted w) (commands w).
Definition set_emitted (f : list (nat * Emit) → list (nat * Emit)) (w : t) : t :=
  mk (services w) (botServices w) (bots w) (timers w) (usedNames w)
     (rng w) (adapter w) (storage w) (connectedClients w) (now w)
     (f (emitted w)) (commands w).
Definition set_commands (f : list (nat * Command) → list (nat * Command))
    (w : t) : t :=
  mk (services w) (botServices w) (bots w) (timers w) (usedNames w)
     (rng w) (adapter w) (storage w) (connectedClients w) (now w)
     (emitted w) (f (commands w)).

(** The process right after [new MemStorage()] and module loading. *)
Definition init (g : Rng.t) (a : Adapter.t) (clients : list WsClient.t)
    (clock : Z) : t :=
  mk [] ∅ [] [] ∅ g a MemStorage.new clients clock [] [].
End World.

(** ** Computations: state and exceptions *)

Inductive Outcome (A : Type) :=
| Ok (a : A)
| Throw (err : string).
Arguments Ok {A} a.
Arguments Throw {A} err.

Definition M (A : Type) : Type := World.t → Outcome A * World.t.

Definition ret {A} (a : A) : M A := λ w, (Ok a, w).

Definition bind {A B} (m : M A) (f : A → M B) : M B :=
  λ w, match m w with
       | (Ok a, w') => f a w'
       | (Throw e, w') => (Throw e, w')
       end.

Definition throw {A} (err : string) : M A := λ w, (Throw err, w).

(** [try { m } catch (error) { h error }]: the state reached when the
    exception was raised is the state the handler starts from. *)
Definition try_catch {A} (m : M A) (h : string → M A) : M A :=
  λ w, match m w with
       | (Ok a, w') => (Ok a, w')
       | (Throw e, w') => h e w'
       end.

Definition gets {A} (f : World.t → A) : M A := λ w, (Ok (f w), w).
Definition modify (f : World.t → World.t) : M unit := λ w, (Ok tt, f w).

Global Instance M_ret : MRet M := @ret.
Global Instance M_bind : MBind M := λ A B f m, bind m f.

(** [when c m]: an [if] without [else]. *)
Definition when (c : bool) (m : M unit) : M unit := if c then m else ret tt.

(** ** Heap access *)

(** Reading a field of the service object [i]; dereferencing something that
    is not an object raises a TypeError. *)
Definition this_ (i : nat) : M Service.t :=
  λ w, match World.services w !! i with
       | Some s => (Ok s, w)
       | None => (Throw "TypeError", w)
       end.

(** [this.field = v] *)
Definition assign (i : nat) (f : Service.t → Service.t) : M unit :=
  modify (World.set_services (alter f i)).

(** [new MinecraftBotService(config)] *)
Definition new_service (config : BotConfig.t) : M nat :=
  n ← gets (λ w, length (World.services w));
  modify (World.set_services (λ l, l ++ [Service.new config]));;
  ret n.

Definition the_bot (b : nat) : M MBot.t :=
  λ w, match World.bots w !! b with
       | Some x => (Ok x, w)
       | None => (Throw "TypeError", w)
       end.

(** [Math.random()] *)
Definition random : M Q :=
  g ← gets World.rng;
  modify (World.set_rng (λ _, snd (Rng.random g)));;
  ret (fst (Rng.random g)).

(** [setTimeout(cb, delay)] and [setInterval(cb, delay)], where [cb] is the
    callback [kind] closed over the service [owner]. *)
Definition schedule (repeating : bool) (owner : nat) (kind : TimerKind)
    (delay : Q) : M nat :=
  n ← gets (λ w, length (World.timers w));
  modify (World.set_timers (λ l, l ++ [Timer.mk owner kind delay repeating true]));;
  ret n.
Definition setTimeout := schedule false.
Definition setInterval := schedule true.

(** [clearTimeout(h)] and [clearInterval(h)] *)
Definition clearTimer (h : nat) : M unit :=
  modify (World.set_timers (alter Timer.clear h)).

(** A call on a bot that the library carries out. *)
Definition command (b : nat) (c : Command) : M unit :=
  modify (World.set_commands (λ l, l ++ [(b, c)])).

(** ** The mineflayer bot *)

(** [mineflayer.createBot({ host, port, username })] *)
Definition createBot (host : string) (port : Z) (username : string) : M nat :=
  a ← gets World.adapter;
  modify (World.set_adapter Adapter.called);;
  match Adapter.createThrows a (Adapter.createCalls a) with
  | Some err => throw err
  | None =>
      n ← gets (λ w, length (World.bots w));
      modify (World.set_bots
                (λ l, l ++ [MBot.mk host port username None false false]));;
      ret n
  end.

(** [bot.removeAllListeners()] *)
Definition removeAllListeners (b : nat) : M unit :=
  modify (World.set_bots (alter MBot.removeAllListeners b)).

(** [bot.quit()] *)
Definition quit (b : nat) : M unit :=
  a ← gets World.adapter;
  command b Quit;;
  match Adapter.quitThrows a b with
  | Some err => throw err
  | None => modify (World.set_bots (alter MBot.setEnded b))
  end.

(** ** server/routes.ts: setupBotServiceEvents

    The three listeners that the registry attaches to every service before
    it is started.  The [log] listener stores the entry; what the listeners
    broadcast is wrapped in a [try] of its own and changes nothing that the
    server holds. *)
Definition emit (i : nat) (ev : Emit) : M unit :=
  modify (World.set_emitted (λ l, l ++ [(i, ev)]));;
  match ev with
  | ELog entry =>
      now ← gets World.now;
      modify (World.set_storage
                (λ st, snd (MemStorage.createLogEntry now entry st)))
  | _ => ret tt
  end.

(** [broadcastToClients(message)]: [forEach] stops at the first [send] that
    raises. *)
Definition broadcastToClients : M unit :=
  cs ← gets World.connectedClients;
  if existsb (λ c, WsClient.readyOpen c && WsClient.sendThrows c) cs
  then throw "send failed" else ret tt.

(** ** server/services/minecraftBot.ts: class MinecraftBotService *)

Definition updateConfig (i : nat) (config : BotConfig.t) : M unit :=
  assign i (Service.set_config config).

Definition isConnected (i : nat) : M bool :=
  s ← this_ i; ret (bool_decide (is_Some (Service.bot s))).

Definition getStatus (i : nat) : M BotStatus.t :=
  s ← this_ i;
  now ← gets World.now;
  game ← match Service.bot s with
         | Some b => x ← the_bot b; ret (MBot.loggedIn x)
         | None => ret false
         end;
  ret (BotStatus.mk
         (BotConfig.id (Service.config s))
         (bool_decide (is_Some (Service.bot s)))
         (str_or (Service.actualUsername s) (BotConfig.username (Service.config s)))
         (match Service.startTime s with Some t0 => now - t0 | None => 0 end)
         (Service.reconnectAttempts s)
         (Service.isWandering s)
         game).

Definition emitStatus (i : nat) : M unit :=
  st ← getStatus i; emit i (EStatus st).

(** [setupBotEvents()]: attaches the handlers of [onEvent] below. *)
Definition setupBotEvents (i : nat) : M unit :=
  s ← this_ i;
  match Service.bot s with
  | None => ret tt
  | Some b => modify (World.set_bots (alter (MBot.on i) b))
  end.

Definition start (i : nat) : M unit :=
  s ← this_ i;
  if bool_decide (is_Some (Service.bot s)) then
    emit i (log "warn" "Bot is already running")
  else
    try_catch
      (name ← (if BotConfig.useRandomNames (Service.config s) then
                 used ← gets World.usedNames;
                 g ← gets World.rng;
                 let '(name, used', g') :=
                   NameGenerator.generateRandomUsername used g in
                 modify (World.set_usedNames (λ _, used'));;
                 modify (World.set_rng (λ _, g'));;
                 ret name
               else ret (BotConfig.username (Service.config s)));
       assign i (Service.set_actualUsername name);;
       emit i (log "info" ("Starting bot with username: " +:+ name));;
       emit i (log "info" ("Connecting to "
                             +:+ BotConfig.serverIp (Service.config s) +:+ ":"
                             +:+ showZ (BotConfig.serverPort (Service.config s))));;
       b ← createBot (BotConfig.serverIp (Service.config s))
                     (BotConfig.serverPort (Service.config s)) name;
       assign i (Service.set_bot (Some b));;
       setupBotEvents i;;
       now ← gets World.now;
       assign i (Service.set_startTime (Some now)))
      (λ errorMessage,
         emit i (log "error" ("Failed to create bot: " +:+ errorMessage));;
         emit i (EError errorMessage)).

Definition stop (i : nat) : M unit :=
  s ← this_ i;
  match Service.reconnectTimeout s with
  | Some h => clearTimer h;; assign i (Service.set_reconnectTimeout None)
  | None => ret tt
  end;;
  match Service.wanderInterval s with
  | Some h => clearTimer h;; assign i (Service.set_wanderInterval None)
  | None => ret tt
  end;;
  match Service.chatInterval s with
  | Some h => clearTimer h;; assign i (Service.set_chatInterval None)
  | None => ret tt
  end;;
  match Service.bot s with
  | Some b =>
      emit i (log "info" "Stopping bot...");;
      try_catch
        (removeAllListeners b;; quit b)
        (λ error,
           emit i (log "warn" ("Error during bot shutdown: " +:+ error)));;
      assign i (Service.set_bot None)
  | None => ret tt
  end;;
  when (BotConfig.useRandomNames (Service.config s)
        && negb (String.eqb (Service.actualUsername s) ""))
       (modify (World.set_usedNames
                  (NameGenerator.releaseUsername (Service.actualUsername s))));;
  assign i (Service.set_startTime None);;
  assign i (Service.set_reconnectAttempts 0);;
  assign i (Service.set_isWandering false);;
  assign i (Service.set_actualUsername "");;
  emitStatus i.

Definition handleDisconnection (i : nat) : M unit :=
  s ← this_ i;
  match Service.bot s with
  | Some b => removeAllListeners b;; assign i (Service.set_bot None)
  | None => ret tt
  end;;
  emitStatus i;;
  let config := Service.config s in
  if BotConfig.autoReconnect config
     && (Service.reconnectAttempts s <? BotConfig.maxReconnectAttempts config)
  then
    assign i (Service.set_reconnectAttempts (Service.reconnectAttempts s + 1));;
    emit i (log "info"
              ("Auto-reconnect enabled. Attempt "
                 +:+ showZ (Service.reconnectAttempts s + 1) +:+ "/"
                 +:+ showZ (BotConfig.maxReconnectAttempts config) +:+ " in "
                 +:+ showZ (BotConfig.reconnectInterval config) +:+ " seconds"));;
    h ← setTimeout i Reconnect
          (inject_Z (BotConfig.reconnectInterval config * 1000));
    assign i (Service.set_reconnectTimeout (Some h))
  else if BotConfig.maxReconnectAttempts config <=? Service.reconnectAttempts s
  then
    emit i (log "error" "Max reconnection attempts reached. Bot stopped.");;
    assign i (Service.set_reconnectAttempts 0)
  else ret tt.

Definition startAIBehaviors (i : nat) : M unit :=
  s ← this_ i;
  match Service.bot s with
  | None => ret tt
  | Some _ =>
      when (BotConfig.wanderEnabled (Service.config s))
        (r ← random;
         h ← setInterval i Wander (15000 + r * 10000)%Q;
         assign i (Service.set_wanderInterval (Some h));;
         emit i (log "info" "AI wandering enabled"));;
      when (BotConfig.chatEnabled (Service.config s))
        (r ← random;
         h ← setInterval i ChatTick (30000 + r * 60000)%Q;
         assign i (Service.set_chatInterval (Some h));;
         emit i (log "info" "AI chat enabled"))
  end.

Definition directions : list (Z * Z) :=
  [(1, 0); (-1, 0); (0, 1); (0, -1); (1, 1); (-1, -1); (1, -1); (-1, 1)].

(** [performWander()]; [bot.entity] exists once the bot has logged in.  The
    target vector is kept as the direction and the distance drawn. *)
Definition performWander (i : nat) : M unit :=
  s ← this_ i;
  match Service.bot s with
  | None => ret tt
  | Some b =>
      x ← the_bot b;
      if negb (MBot.loggedIn x) then ret tt
      else
        r1 ← random;
        let direction := nth (Z.to_nat (Rng.floor_mul r1 8)) directions (0, 0) in
        r2 ← random;
        let distance := (3 + r2 * 7)%Q in
        assign i (Service.set_isWandering true);;
        command b (LookAt (fst direction) (snd direction) distance);;
        command b (Forward true);;
        setTimeout i ForwardOff 2000%Q;;
        setTimeout i WanderDone 8000%Q;;
        emitStatus i
  end.

Definition casualMessages : list string :=
  ["hey"; "hello"; "hi there"; "how is everyone?"; "nice server";
   "anyone building something cool?"; "what's everyone up to?"; "love this game";
   "beautiful world"; "anyone need help?"; "cool builds here"; "having fun";
   "nice day for mining"; "love the community here"; "great server";
   "anyone want to team up?"; "this is relaxing"; "awesome gameplay"].

(** [performRandomChat()]; [bot.chat] is a method that the library puts on
    the bot with its plugins, on the way to the login: the login is the
    first event at which the service can tell that it is there. *)
Definition performRandomChat (i : nat) : M unit :=
  s ← this_ i;
  match Service.bot s with
  | None => ret tt
  | Some b =>
      x ← the_bot b;
      if negb (MBot.loggedIn x) then ret tt
      else
        r ← random;
        when (Rng.lt r (3 # 10))
          (r' ← random;
           let message :=
             NameGenerator.at_index casualMessages
               (Rng.floor_mul r' (Z.of_nat (length casualMessages))) in
           command b (Say message);;
           emit i (log "info" ("Bot said: " +:+ message)))
  end.

(** [this.bot?.username] printed in a template or compared with [===]. *)
Definition botUsername (i : nat) : M (option string) :=
  s ← this_ i;
  match Service.bot s with
  | Some b => x ← the_bot b; ret (Some (MBot.username x))
  | None => ret None
  end.

Definition errorMessageOf (code message : string) : string :=
  if String.eqb code "ECONNRESET" then
    "Connection reset by server - this usually happens when the server is offline or restarting"
  else if String.eqb code "ENOTFOUND" then
    "Server not found - please check the server IP address"
  else if String.eqb code "ECONNREFUSED" then
    "Connection refused - the server may be offline or the port may be incorrect"
  else if String.eqb code "ETIMEDOUT" then
    "Connection timed out - the server may be slow to respond or unreachable"
  else "Bot error: " +:+ message.

(** The handlers that [setupBotEvents] registers, by event. *)
Definition onEvent (i : nat) (ev : BotEvent) : M unit :=
  match ev with
  | Login =>
      u ← botUsername i;
      emit i (log "info" ("Bot logged in as " +:+ nullish u "undefined"));;
      assign i (Service.set_reconnectAttempts 0);;
      emitStatus i
  | Spawn =>
      emit i (log "info" "Bot spawned in the world");;
      emitStatus i;;
      startAIBehaviors i
  | Chat username message =>
      u ← botUsername i;
      if bool_decide (u = Some username) then ret tt
      else emit i (log "info" ("<" +:+ username +:+ "> " +:+ message))
  | Error code message =>
      emit i (log "error" (errorMessageOf code message));;
      emit i (EError message);;
      handleDisconnection i
  | Kicked reason =>
      emit i (log "warn" ("Bot was kicked: " +:+ reason));;
      handleDisconnection i
  | End_ =>
      emit i (log "info" "Bot disconnected");;
      handleDisconnection i
  | Death => emit i (log "info" "Bot died and will respawn")
  | Health health =>
      s ← this_ i;
      when (bool_decide (is_Some (Service.bot s)) && (health <=? 5))
           (emit i (log "warn" ("Bot health is low: " +:+ showZ health)))
  end.

(** The bot [b] emits [ev]: the library updates the bot, then the
    handlers still attached to it run.  After [removeAllListeners()] nothing
    is attached to the bot, and an [error] event that finds no listener is
    raised by the emitter as an exception. *)
Definition dispatch (b : nat) (ev : BotEvent) : M unit :=
  match ev with
  | Login => modify (World.set_bots (alter MBot.setLoggedIn b))
  | End_ => modify (World.set_bots (alter MBot.setEnded b))
  | _ => ret tt
  end;;
  x ← the_bot b;
  match MBot.listeners x with
  | Some i => onEvent i ev
  | None =>
      match ev with
      | Error _ message => throw message
      | _ => ret tt
      end
  end.

(** The timer [h] comes due.  A cleared timer, or a timeout that already
    ran, does nothing. *)
Definition fire (h : nat) : M unit :=
  ts ← gets World.timers;
  match ts !! h with
  | None => ret tt
  | Some x =>
      if Timer.scheduled x then
        when (negb (Timer.repeating x)) (clearTimer h);;
        let i := Timer.owner x in
        match Timer.kind x with
        | Reconnect => start i
        | Wander => performWander i
        | ChatTick => performRandomChat i
        | ForwardOff =>
            s ← this_ i;
            match Service.bot s with
            | Some b => command b (Forward false)
            | None => ret tt
            end
        | WanderDone =>
            assign i (Service.set_isWandering false);;
            emitStatus i
        end
      else ret tt
  end.

(** ** server/routes.ts *)

Module Response.
Record t := mk { status : Z; message : string }.
End Response.

Definition json (message : string) : M Response.t :=
  ret (Response.mk 200 message).
Definition status_json (status : Z) (message : string) : M Response.t :=
  ret (Response.mk status message).

(** [botServices.has(botId) && botServices.get(botId)?.isConnected()] *)
Definition alreadyRunning (botId : Z) : M bool :=
  reg ← gets World.botServices;
  match reg !! botId with
  | Some i => isConnected i
  | None => ret false
  end.

(** [POST /api/bot/:id/start].  The service keeps the configuration object
    it was built from; the only field the storage later writes in place,
    [isActive], is one the service never reads. *)
Definition startRoute (botId : Z) : M Response.t :=
  try_catch
    (config ← gets (λ w, MemStorage.getBotConfig (Some botId) (World.storage w));
     match config with
     | None => status_json 400 "Bot configuration not found"
     | Some config =>
         running ← alreadyRunning botId;
         if (running : bool) then status_json 400 "Bot is already running"
         else
           botService ← new_service config;
           modify (World.set_botServices <[botId := botService]>);;
           start botService;;
           modify (World.set_storage (MemStorage.updateBotStatus botId true));;
           broadcastToClients;;
           json "Bot start initiated"
     end)
    (λ _, status_json 500 "Failed to start bot").

(** [POST /api/bot/:id/stop] *)
Definition stopRoute (botId : Z) : M Response.t :=
  try_catch
    (reg ← gets World.botServices;
     match reg !! botId with
     | None => status_json 400 "Bot not found or not running"
     | Some botService =>
         stop botService;;
         modify (World.set_botServices (delete botId));;
         modify (World.set_storage (MemStorage.updateBotStatus botId false));;
         broadcastToClients;;
         json "Bot stopped"
     end)
    (λ _,
       try_catch
         (reg ← gets World.botServices;
          match reg !! botId with
          | Some botService =>
              stop botService;;
              modify (World.set_botServices (delete botId));;
              modify (World.set_storage (MemStorage.updateBotStatus botId false))
          | None => ret tt
          end)
         (λ _, ret tt);;
       json "Bot force stopped").

(** [PUT /api/config/:id?] *)
Definition putConfigRoute (id : option Z) (body : InsertBotConfig.t)
  : M Response.t :=
  st ← gets World.storage;
  match MemStorage.updateBotConfig body id st with
  | None => status_json 500 "Failed to update configuration"
  | Some (updatedConfig, st') =>
      modify (World.set_storage (λ _, st'));;
      reg ← gets World.botServices;
      match reg !! BotConfig.id updatedConfig with
      | Some botService => updateConfig botService updatedConfig
      | None => ret tt
      end;;
      json "updated"
  end.

(** [POST /api/config] *)
Definition createConfigRoute (body : InsertBotConfig.t) : M Response.t :=
  try_catch
    (st ← gets World.storage;
     modify (World.set_storage (λ _, snd (MemStorage.createBotConfig body st)));;
     broadcastToClients;;
     json "created")
    (λ _, status_json 500 "Failed to create configuration").

(** ** Runs of the server *)

(** What the event loop can hand to the process next. *)
Inductive Input :=
| PostStart (botId : Z)
| PostStop (botId : Z)
| PutConfig (id : option Z) (body : InsertBotConfig.t)
| PostConfig (body : InsertBotConfig.t)
| Emits (b : nat) (ev : BotEvent)
| Fires (h : nat)
| Elapse (ms : Z).

Definition handle (inp : Input) : M unit :=
  match inp with
  | PostStart botId => startRoute botId;; ret tt
  | PostStop botId => stopRoute botId;; ret tt
  | PutConfig id body => putConfigRoute id body;; ret tt
  | PostConfig body => createConfigRoute body;; ret tt
  | Emits b ev => dispatch b ev
  | Fires h => fire h
  | Elapse ms => modify (World.set_now (λ t, t + ms))
  end.

(** One turn of the event loop: the state in which the callback returned,
    or in which an exception escaped it. *)
Definition step (w : World.t) (inp : Input) : World.t := snd (handle inp w).

(** A run of the process.  Nothing in the sources catches an exception that
    escapes a callback: the process ends there, and the run with it. *)
Fixpoint run (w : World.t) (inps : list Input) : World.t :=
  match inps with
  | [] => w
  | inp :: inps' =>
      match handle inp w with
      | (Ok _, w') => run w' inps'
      | (Throw _, w') => w'
      end
  end.

(** ** Observations *)

(** The service objects that were built for [botId]'s configuration and
    hold a session handle. *)
Definition holds_session (configId : Z) (s : Service.t) : bool :=
  (BotConfig.id (Service.config s) =? configId)
  && bool_decide (is_Some (Service.bot s)).

Definition live_sessions (configId : Z) (w : World.t) : list nat :=
  omap Service.bot (filter (λ s, holds_session configId s) (World.services w)).

(** The timers of kind [k] that are scheduled for the service [i]. *)
Definition scheduled_for (i : nat) (k : TimerKind) (x : Timer.t) : bool :=
  Timer.scheduled x && bool_decide (Timer.owner x = i)
  && bool_decide (Timer.kind x = k).

Definition pending (i : nat) (k : TimerKind) (w : World.t) : list Timer.t :=
  filter (λ x, scheduled_for i k x) (World.timers w).

(** The log entries among what the service [i] emitted. *)
Definition logs_of (i : nat) (es : list (nat * Emit)) : list InsertLogEntry.t :=
  omap (λ e, match e with
             | (j, ELog entry) => if bool_decide (j = i) then Some entry else None
             | _ => None
             end) es.

(** * The vocabulary of the statements *)

(** ** Configurations *)

(** A supplied value is taken as it is; without one the old value stays. *)
Definition overrides {A} (supplied : option A) (old new : A) : Prop :=
  match supplied with
  | Some v => new = v
  | None => new = old
  end.

(** ** Logs *)

(** The comparator that [getLogEntries] sorts with. *)
Definition by_timestamp_desc (a b : LogEntry.t) : Z :=
  LogEntry.timestamp b - LogEntry.timestamp a.

(** Writing is appending: the identifiers handed out so far lie below
    [currentLogId], so a new entry goes to the end of the map. *)
Definition ids_below (st : MemStorage.t) : Prop :=
  Forall (λ kv, fst kv < MemStorage.currentLogId st) (MemStorage.logs st).

(** The entries that a computation added to what service [i] has logged. *)
Definition new_logs (i : nat) (w w' : World.t) : list InsertLogEntry.t :=
  logs_of i (drop (length (World.emitted w)) (World.emitted w')).

(** The line that [handleDisconnection()] logs when it gives up. *)
Definition exhaustion_log : InsertLogEntry.t :=
  InsertLogEntry.mk "error" "Max reconnection attempts reached. Bot stopped.".

(** The line that [handleDisconnection()] logs when it will try again. *)
Definition attempt_log (s : Service.t) : InsertLogEntry.t :=
  InsertLogEntry.mk "info"
    ("Auto-reconnect enabled. Attempt "
       +:+ showZ (Service.reconnectAttempts s + 1) +:+ "/"
       +:+ showZ (BotConfig.maxReconnectAttempts (Service.config s)) +:+ " in "
       +:+ showZ (BotConfig.reconnectInterval (Service.config s)) +:+ " seconds").

(** What [stop()] logs: the announcement when a session is held, and the
    warning when closing it raised. *)
Definition stop_logs (w : World.t) (s : Service.t) : list InsertLogEntry.t :=
  match Service.bot s with
  | Some b =>
      InsertLogEntry.mk "info" "Stopping bot..."
      :: match Adapter.quitThrows (World.adapter w) b with
         | Some err =>
             [InsertLogEntry.mk "warn" ("Error during bot shutdown: " +:+ err)]
         | None => []
         end
  | None => []
  end.

(** ** Names *)

(** None of [n] calls of the generator in a row runs out of attempts. *)
Fixpoint loops_succeed (n : nat) (usedNames : gset string) (g : Rng.t) : bool :=
  match n with
  | O => true
  | S n' =>
      match NameGenerator.attempt NameGenerator.maxAttempts usedNames g with
      | (Some u, g1) => loops_succeed n' ({[u]} ∪ usedNames) g1
      | (None, _) => false
      end
  end.

(** ** Services and timers *)

(** [clearTimeout] of a handle that a field may hold. *)
Definition clear_opt (o : option nat) (l : list Timer.t) : list Timer.t :=
  match o with Some h => alter Timer.clear h l | None => l end.

(** The handles that the fields of a service hold. *)
Definition held_timers (s : Service.t) : list nat :=
  omap id [Service.reconnectTimeout s; Service.wanderInterval s;
           Service.chatInterval s].

(** The fields of a service after [stop()]. *)
Definition stopped (s : Service.t) : Service.t :=
  Service.mk None (Service.config s) 0 None None None None "" false.

(** The username that [start()] resolves in the world [w]. *)
Definition effective_username (w : World.t) (s : Service.t) : string :=
  if BotConfig.useRandomNames (Service.config s) then
    fst (fst (NameGenerator.generateRandomUsername
                (World.usedNames w) (World.rng w)))
  else BotConfig.username (Service.config s).

(** The fields of a service after a [start()] that created the bot [b]. *)
Definition started (w : World.t) (b : nat) (s : Service.t) : Service.t :=
  Service.mk (Some b) (Service.config s) (Service.reconnectAttempts s)
    (Some (World.now w)) (Service.reconnectTimeout s) (Service.wanderInterval s)
    (Service.chatInterval s) (effective_username w s) (Service.isWandering s).

(** The timer that [handleDisconnection()] sets for the service [i]. *)
Definition reconnect_timer (i : nat) (s : Service.t) : Timer.t :=
  Timer.mk i Reconnect
    (inject_Z (BotConfig.reconnectInterval (Service.config s) * 1000))
    false true.

(** The fields of a service after [handleDisconnection()], given the
    attempt counter and the timeout handle it ends with. *)
Definition disconnected (n : Z) (h : option nat) (s : Service.t) : Service.t :=
  Service.mk None (Service.config s) n (Service.startTime s) h
    (Service.wanderInterval s) (Service.chatInterval s)
    (Service.actualUsername s) (Service.isWandering s).

(** ** The invariant of the server *)

(** Which bot each service holds, and which service each bot's listeners
    belong to. *)
Definition holds (w : World.t) : list (option nat) :=
  Service.bot <$> World.services w.

Definition ears (w : World.t) : list (option nat) :=
  MBot.listeners <$> World.bots w.

(** The reconnect timers among [l] that are scheduled for the service
    [i]. *)
Definition waiting (i : nat) (l : list Timer.t) : list Timer.t :=
  filter (λ x, scheduled_for i Reconnect x) l.

(** A bot's listeners belong to the service that holds the bot; a service
    that holds a bot waits for no reconnect; no service waits for two; a
    timer belongs to a service that exists, and a reconnect timer runs once;
    the registry names services that exist. *)
Record InvV (hs es : list (option nat)) (ts : list Timer.t) (reg : gmap Z nat)
  : Prop := mkInv {
  inv_ears : ∀ b i, es !! b = Some (Some i) → hs !! i = Some (Some b);
  inv_idle : ∀ i b, hs !! i = Some (Some b) →
                    waiting i ts = [] ∧ (b < length es)%nat;
  inv_one : ∀ i, (length (waiting i ts) ≤ 1)%nat;
  inv_timers : Forall (λ x, (Timer.owner x < length hs)%nat
                            ∧ (Timer.kind x = Reconnect →
                               Timer.repeating x = false)) ts;
  inv_reg : ∀ (id : Z) i, reg !! id = Some i → (i < length hs)%nat
}.

Definition Inv (w : World.t) : Prop :=
  InvV (holds w) (ears w) (World.timers w) (World.botServices w).

(** ** Scenarios *)

(** A random source that always returns 0, and one that varies. *)
Definition zeros : Rng.t := Rng.mk (λ _, 0%Q) 0.

Definition varied : Rng.t :=
  Rng.mk (λ n, (Z.of_nat ((n * 37 + 11) mod 100) # 100)%Q) 0.

(** The server right after it came up, at clock 1000, with no websocket
    client and a session library that never raises. *)
Definition fresh_server : World.t := World.init zeros Adapter.reliable [] 1000.

Definition varied_server : World.t :=
  World.init varied Adapter.reliable [] 1000.

(** A request that only switches auto-reconnect off. *)
Definition no_auto_reconnect : InsertBotConfig.t :=
  InsertBotConfig.mk None None None (Some false) None None None None None None
                     None.

(** The store after configuration 1 was updated with an empty username and
    with zero for the port, the interval and the attempts. *)
Definition zero_port_stored : MemStorage.t :=
  from_option snd MemStorage.new
    (MemStorage.updateBotConfig
       (InsertBotConfig.mk (Some "") None (Some 0) None (Some 0) (Some 0)
                           None None None None None)
       (Some 1) MemStorage.new).

(** Two entries written within one millisecond, as [start()] writes its two
    lines. *)
Definition two_entries_one_instant : MemStorage.t :=
  snd (MemStorage.createLogEntry 1000 (InsertLogEntry.mk "info" "second")
         (snd (MemStorage.createLogEntry 1000 (InsertLogEntry.mk "info" "first")
                 MemStorage.new))).

(** A session library where closing any session raises; the string is
    what the thrown error prints as. *)
Definition quit_raises : Adapter.t :=
  Adapter.mk (λ _, None) (λ _, Some "Error: socket already destroyed") 0.

(** A configuration with random names and both behaviors, and a request
    that switches random names off. *)
Definition busy_bot : InsertBotConfig.t :=
  InsertBotConfig.mk None None None None None None None (Some true)
                     (Some true) (Some true) None.

Definition no_random_names : InsertBotConfig.t :=
  InsertBotConfig.mk None None None None None None None None None (Some false)
                     None.

(** On a server where closing a session raises, the busy bot is created and
    started, logs in and spawns, and its wander interval (handle 0) comes
    due. *)
Definition w_wandering : World.t :=
  run (World.init varied quit_raises [] 1000)
      [PostConfig busy_bot; PostStart 2; Emits 0 Login; Emits 0 Spawn; Fires 0].

(** On such a server the busy bot is created and started, dropped by the
    server, and reconnected by its timer. *)
Definition w_reconnected : World.t :=
  run (World.init varied quit_raises [] 1000)
      [PostConfig busy_bot; PostStart 2; Emits 0 End_; Fires 0].

(** On such a server the busy bot is created and started, and random names
    are switched off while it runs. *)
Definition w_switched_off : World.t :=
  run (World.init varied quit_raises [] 1000)
      [PostConfig busy_bot; PostStart 2; PutConfig (Some 2) no_random_names].

(** What [stop()] logs on such a server. *)
Definition raising_stop_logs : list InsertLogEntry.t :=
  [InsertLogEntry.mk "info" "Stopping bot...";
   InsertLogEntry.mk "warn"
     "Error during bot shutdown: Error: socket already destroyed"].

(** The default bot of a fresh server, connecting. *)
Definition w_connecting : World.t := run fresh_server [PostStart 1].

(** The default bot of a fresh server, waiting for its first reconnect. *)
Definition w_reconnecting : World.t :=
  run fresh_server [PostStart 1; Emits 0 End_].

(** The default bot of a fresh server: started, dropped by the server,
    reconnected by its timer, and spawned without a login in between. *)
Definition spawn_after_reconnect : list Input :=
  [PostStart 1; Emits 0 End_; Fires 0; Emits 1 Spawn].

(** A bot that may reconnect once: dropped by the server, reconnected,
    logged in, and kicked before it spawns. *)
Definition one_attempt : InsertBotConfig.t :=
  InsertBotConfig.mk None None None None None (Some 1) None None None None None.

Definition kicked_after_login : list Input :=
  [PostConfig one_attempt; PostStart 2; Emits 0 End_; Fires 0; Emits 1 Login;
   Emits 1 (Kicked "banned")].

(** A configuration that asks for random names, created, started, dropped
    by the server and reconnected by the timer. *)
Definition random_names : InsertBotConfig.t :=
  InsertBotConfig.mk None None None None None None None None None (Some true)
                     None.

Definition reconnect_with_random_name : list Input :=
  [PostConfig random_names; PostStart 2; Emits 0 End_; Fires 0].

(** The bot of that run while it waits for its first reconnect. *)
Definition w_random_reconnecting : World.t :=
  run varied_server [PostConfig random_names; PostStart 2; Emits 0 End_].

(** A request that sets the username to the name the generator draws first
    from [zeros]. *)
Definition named_AlexGaming : InsertBotConfig.t :=
  InsertBotConfig.mk (Some "AlexGaming_") None None None None None None None
                     None None None.

(** The default bot is given that username and started; random names are
    switched on; the server drops the session and the reconnect timer comes
    due. *)
Definition switched_to_random_names : list Input :=
  [PutConfig (Some 1) named_AlexGaming; PostStart 1;
   PutConfig (Some 1) random_names; Emits 0 End_; Fires 0].

(** The default bot is started and dropped by the server; while its
    reconnect timer is running it is started again; then the timer comes
    due. *)
Definition restart_while_reconnecting : list Input :=
  [PostStart 1; Emits 0 End_; PostStart 1; Fires 0].

(** A bot with both behaviors is created, started, logs in and spawns, and
    then the server drops it. *)
Definition wander_and_chat : InsertBotConfig.t :=
  InsertBotConfig.mk None None None None None None None (Some true) (Some true)
                     None None.

Definition session_lost : list Input :=
  [PostConfig wander_and_chat; PostStart 2; Emits 0 Login; Emits 0 Spawn;
   Emits 0 End_].

(** The reconnect timer (handle 2) comes due and the new session spawns. *)
Definition session_regained : list Input :=
  [Fires 2; Emits 1 Login; Emits 1 Spawn].


(** ** The store through its interface *)

(** The calls that change a [MemStorage]. *)
Inductive StorageOp :=
| OpCreateBotConfig (config : InsertBotConfig.t)
| OpUpdateBotConfig (config : InsertBotConfig.t) (id : option Z)
| OpDeleteBotConfig (id : Z)
| OpUpdateBotStatus (id : Z) (isActive : bool)
| OpCreateLogEntry (now : Z) (entry : InsertLogEntry.t)
| OpClearLogEntries.

(** The store after a call; an [updateBotConfig] that throws leaves it as it
    was. *)
Definition apply_op (st : MemStorage.t) (op : StorageOp) : MemStorage.t :=
  match op with
  | OpCreateBotConfig config => snd (MemStorage.createBotConfig config st)
  | OpUpdateBotConfig config id =>
      from_option snd st (MemStorage.updateBotConfig config id st)
  | OpDeleteBotConfig id => MemStorage.deleteBotConfig id st
  | OpUpdateBotStatus id isActive => MemStorage.updateBotStatus id isActive st
  | OpCreateLogEntry now entry => snd (MemStorage.createLogEntry now entry st)
  | OpClearLogEntries => MemStorage.clearLogEntries st
  end.

Definition apply_ops (st : MemStorage.t) (ops : list StorageOp) : MemStorage.t :=
  foldl apply_op st ops.

(** Every configuration is stored under its own id, and no id above
    [currentBotId] is in use. *)
Definition configs_ok (st : MemStorage.t) : Prop :=
  Forall (λ kc, BotConfig.id (snd kc) = fst kc
                ∧ fst kc ≤ MemStorage.currentBotId st)
         (MemStorage.botConfigs st).

(** The log holds the entries 1, 2, ... in the order they were written, each
    under its own id. *)
Definition log_ok (st : MemStorage.t) : Prop :=
  map fst (MemStorage.logs st)
  = map Z.of_nat (seq 1 (length (MemStorage.logs st)))
  ∧ Forall (λ ke, LogEntry.id (snd ke) = fst ke) (MemStorage.logs st)
  ∧ MemStorage.currentLogId st = Z.of_nat (length (MemStorage.logs st)) + 1.

(** Oldest first and newest first, by timestamp. *)
Definition oldest_first (a b : LogEntry.t) : Prop :=
  LogEntry.timestamp a ≤ LogEntry.timestamp b.

Definition newest_first (a b : LogEntry.t) : Prop :=
  LogEntry.timestamp b ≤ LogEntry.timestamp a.

(** The log of a store that was written at the instants [1000, 2000,
    3000]. *)
Definition three_ticks : MemStorage.t :=
  apply_ops MemStorage.new
    [OpCreateLogEntry 1000 (InsertLogEntry.mk "info" "one");
     OpCreateLogEntry 2000 (InsertLogEntry.mk "warn" "two");
     OpCreateLogEntry 3000 (InsertLogEntry.mk "info" "three")].

(** ** Failures, late events and the range of the random source *)

(** What [start()] emits when [createBot] raises [err]. *)
Definition failed_start_emits (i : nat) (w : World.t) (s : Service.t)
    (err : string) : list (nat * Emit) :=
  [(i, log "info" ("Starting bot with username: " +:+ effective_username w s));
   (i, log "info"
         ("Connecting to " +:+ BotConfig.serverIp (Service.config s) +:+ ":"
            +:+ showZ (BotConfig.serverPort (Service.config s))));
   (i, log "error" ("Failed to create bot: " +:+ err));
   (i, EError err)].

(** A session library whose [createBot] raises. *)
Definition create_raises : Adapter.t :=
  Adapter.mk (λ _, Some "unsupported protocol version") (λ _, None) 0.

(** The events at which the service takes the session for lost. *)
Definition disconnecting (ev : BotEvent) : bool :=
  match ev with
  | Error _ _ | Kicked _ | End_ => true
  | _ => false
  end.

(** The default bot with auto-reconnect switched off, started. *)
Definition no_reconnect_run : list Input :=
  [PutConfig (Some 1) no_auto_reconnect; PostStart 1].

(** [Math.random()] stays in its range: every draw is in [0, 1). *)
Definition in_unit_interval (g : Rng.t) : Prop :=
  ∀ n, (0 <= Rng.draws g n)%Q ∧ (Rng.draws g n < 1)%Q.

(** The inputs that the event loop can hand over in the world [w]: an event
    comes from a bot that exists, and an [error] event from a bot that still
    has listeners. *)
Definition receivable (w : World.t) (inp : Input) : Prop :=
  match inp with
  | Emits b ev =>
      ∃ x, World.bots w !! b = Some x
           ∧ (MBot.listeners x = None → ∀ c m, ev ≠ Error c m)
  | _ => True
  end.

(** * Properties *)

(** ** Storage: configurations *)

Section CreateBotConfig.
Import MemStorage.

Lemma str_or_nonempty s d : d ≠ "" → str_or s d ≠ "".
Proof.
  intros Hd. unfold str_or. destruct (String.eqb_spec s ""); congruence.
Qed.

Lemma num_or_nonzero n d : d ≠ 0 → num_or n d ≠ 0.
Proof.
  intros Hd. unfold num_or. destruct (Z.eqb_spec n 0); congruence.
Qed.

Lemma opt_str_or_nonempty o d : d ≠ "" → opt_str_or o d ≠ "".
Proof. destruct o; simpl; auto using str_or_nonempty. Qed.

Lemma opt_num_or_nonzero o d : d ≠ 0 → opt_num_or o d ≠ 0.
Proof. destruct o; simpl; auto using num_or_nonzero. Qed.

Lemma opt_num_or_falsy o d : o = None ∨ o = Some 0 → opt_num_or o d = d.
Proof. intros [-> | ->]; reflexivity. Qed.

Lemma opt_str_or_falsy o d : o = None ∨ o = Some "" → opt_str_or o d = d.
Proof. intros [-> | ->]; reflexivity. Qed.

Lemma opt_num_or_truthy n d : n ≠ 0 → opt_num_or (Some n) d = n.
Proof. intros Hn. simpl. unfold num_or. destruct (Z.eqb_spec n 0); congruence. Qed.

Lemma opt_str_or_truthy s d : s ≠ "" → opt_str_or (Some s) d = s.
Proof.
  intros Hs. simpl. unfold str_or. destruct (String.eqb_spec s ""); congruence.
Qed.

Lemma JsMap_get_set {V} k (v : V) m : JsMap.get k (JsMap.set k v m) = Some v.
Proof.
  induction m as [|[k' v'] m IH]; simpl.
  - by rewrite Z.eqb_refl.
  - destruct (Z.eqb_spec k k') as [->|Hne]; simpl.
    + by rewrite Z.eqb_refl.
    + destruct (Z.eqb_spec k k'); [done | apply IH].
Qed.
End CreateBotConfig.

(** C10, as stated, fails in two places.  A supplied [autoReconnect: false]
    is a falsy value whose built-in default is [true], and [createBotConfig]
    stores it as [false]; and the store can hold a zero port and an empty
    username, which [updateBotConfig] writes as supplied. *)
Lemma C10_falsy_values_are_stored :
  BotConfig.autoReconnect
    (fst (MemStorage.createBotConfig no_auto_reconnect MemStorage.new))
  = false
  ∧ BotConfig.serverPort <$> MemStorage.getBotConfig (Some 1) zero_port_stored
    = Some 0
  ∧ BotConfig.username <$> MemStorage.getBotConfig (Some 1) zero_port_stored
    = Some "".
Proof. repeat split; reflexivity. Qed.

(** C10, amended.  [createBotConfig] stores the configuration it returns;
    in it the string and number fields are never falsy: an absent, empty or
    zero value of [username], [serverIp], [serverPort], [reconnectInterval],
    [maxReconnectAttempts] and [logLevel] becomes "MinecraftBot",
    "example.com", 12345, 30, 10 and "info", and any other supplied value is
    kept; each of the five booleans is kept as supplied, [false] included,
    and only an absent one takes its default.  [updateBotConfig] of a
    configuration that exists returns and stores that configuration with
    every supplied field written over it as supplied, zero and the empty
    string included, and every other field as it was. *)
Theorem C10_createBotConfig_defaults (config : InsertBotConfig.t)
    (st : MemStorage.t) :
  let c := fst (MemStorage.createBotConfig config st) in
  let st' := snd (MemStorage.createBotConfig config st) in
  JsMap.get (BotConfig.id c) (MemStorage.botConfigs st') = Some c
  ∧ (BotConfig.username c ≠ "" ∧ BotConfig.serverIp c ≠ ""
     ∧ BotConfig.logLevel c ≠ "" ∧ BotConfig.serverPort c ≠ 0
     ∧ BotConfig.reconnectInterval c ≠ 0
     ∧ BotConfig.maxReconnectAttempts c ≠ 0)
  ∧ ((InsertBotConfig.username config = None
      ∨ InsertBotConfig.username config = Some "" →
      BotConfig.username c = "MinecraftBot")
     ∧ (InsertBotConfig.serverPort config = None
        ∨ InsertBotConfig.serverPort config = Some 0 →
        BotConfig.serverPort c = 12345)
     ∧ (InsertBotConfig.reconnectInterval config = None
        ∨ InsertBotConfig.reconnectInterval config = Some 0 →
        BotConfig.reconnectInterval c = 30)
     ∧ (InsertBotConfig.maxReconnectAttempts config = None
        ∨ InsertBotConfig.maxReconnectAttempts config = Some 0 →
        BotConfig.maxReconnectAttempts c = 10)
     ∧ (InsertBotConfig.serverIp config = None
        ∨ InsertBotConfig.serverIp config = Some "" →
        BotConfig.serverIp c = "example.com")
     ∧ (InsertBotConfig.logLevel config = None
        ∨ InsertBotConfig.logLevel config = Some "" →
        BotConfig.logLevel c = "info"))
  ∧ ((∀ s, s ≠ "" → InsertBotConfig.username config = Some s →
           BotConfig.username c = s)
     ∧ (∀ n, n ≠ 0 → InsertBotConfig.serverPort config = Some n →
             BotConfig.serverPort c = n)
     ∧ (∀ n, n ≠ 0 → InsertBotConfig.reconnectInterval config = Some n →
             BotConfig.reconnectInterval c = n)
     ∧ (∀ n, n ≠ 0 → InsertBotConfig.maxReconnectAttempts config = Some n →
             BotConfig.maxReconnectAttempts c = n)
     ∧ (∀ s, s ≠ "" → InsertBotConfig.serverIp config = Some s →
             BotConfig.serverIp c = s)
     ∧ (∀ s, s ≠ "" → InsertBotConfig.logLevel config = Some s →
             BotConfig.logLevel c = s))
  ∧ ((∀ b, InsertBotConfig.autoReconnect config = Some b →
           BotConfig.autoReconnect c = b)
     ∧ (InsertBotConfig.autoReconnect config = None →
        BotConfig.autoReconnect c = true))
  ∧ (overrides (InsertBotConfig.wanderEnabled config) false
               (BotConfig.wanderEnabled c)
     ∧ overrides (InsertBotConfig.chatEnabled config) false
                 (BotConfig.chatEnabled c)
     ∧ overrides (InsertBotConfig.useRandomNames config) false
                 (BotConfig.useRandomNames c)
     ∧ overrides (InsertBotConfig.isActive config) false
                 (BotConfig.isActive c))
  ∧ (∀ id existing,
       JsMap.get (opt_num_or id 1) (MemStorage.botConfigs st) = Some existing →
       ∃ u st2,
         MemStorage.updateBotConfig config id st = Some (u, st2)
         ∧ JsMap.get (opt_num_or id 1) (MemStorage.botConfigs st2) = Some u
         ∧ BotConfig.id u = BotConfig.id existing
         ∧ overrides (InsertBotConfig.username config)
                     (BotConfig.username existing) (BotConfig.username u)
         ∧ overrides (InsertBotConfig.serverIp config)
                     (BotConfig.serverIp existing) (BotConfig.serverIp u)
         ∧ overrides (InsertBotConfig.serverPort config)
                     (BotConfig.serverPort existing) (BotConfig.serverPort u)
         ∧ overrides (InsertBotConfig.autoReconnect config)
                     (BotConfig.autoReconnect existing)
                     (BotConfig.autoReconnect u)
         ∧ overrides (InsertBotConfig.reconnectInterval config)
                     (BotConfig.reconnectInterval existing)
                     (BotConfig.reconnectInterval u)
         ∧ overrides (InsertBotConfig.maxReconnectAttempts config)
                     (BotConfig.maxReconnectAttempts existing)
                     (BotConfig.maxReconnectAttempts u)
         ∧ overrides (InsertBotConfig.logLevel config)
                     (BotConfig.logLevel existing) (BotConfig.logLevel u)
         ∧ overrides (InsertBotConfig.wanderEnabled config)
                     (BotConfig.wanderEnabled existing)
                     (BotConfig.wanderEnabled u)
         ∧ overrides (InsertBotConfig.chatEnabled config)
                     (BotConfig.chatEnabled existing) (BotConfig.chatEnabled u)
         ∧ overrides (InsertBotConfig.useRandomNames config)
                     (BotConfig.useRandomNames existing)
                     (BotConfig.useRandomNames u)
         ∧ overrides (InsertBotConfig.isActive config)
                     (BotConfig.isActive existing) (BotConfig.isActive u)).
Proof.
  simpl. split; [apply JsMap_get_set|].
  split.
  { repeat split;
      first [ by apply opt_str_or_nonempty | by apply opt_num_or_nonzero ]. }
  split.
  { repeat split;
      first [ apply opt_str_or_falsy | apply opt_num_or_falsy ]. }
  split.
  { repeat split; intros x Hx ->;
      first [ by apply opt_str_or_truthy | by apply opt_num_or_truthy ]. }
  split; [split; [intros b ->|intros ->]; reflexivity|].
  split.
  { repeat split;
      match goal with |- overrides ?o _ _ => by destruct o end. }
  intros id existing Hget. unfold MemStorage.updateBotConfig. rewrite Hget.
  eexists _, _. split; [reflexivity|]. simpl.
  split; [apply JsMap_get_set|]. split; [done|].
  repeat split; match goal with |- overrides ?o _ _ => by destruct o end.
Qed.

(** ** Storage: the log *)

Section LogOrder.
Import MemStorage.

Lemma sort_insert_after_all {A} (cmp : A → A → Z) x l :
  Forall (λ y, 0 < cmp x y) l → sort_insert cmp x l = l ++ [x].
Proof.
  induction 1 as [|y l Hy _ IH]; simpl; [done|].
  destruct (Z.leb_spec (cmp x y) 0); [lia|]. by rewrite IH.
Qed.

(** Entries with strictly increasing timestamps come out of the
    descending sort in exactly the opposite order. *)
Lemma js_sort_increasing (l : list LogEntry.t) :
  StronglySorted (λ a b, LogEntry.timestamp a < LogEntry.timestamp b) l →
  js_sort by_timestamp_desc l = rev l.
Proof.
  induction 1 as [|a l _ IH Ha]; simpl; [done|].
  rewrite IH. apply sort_insert_after_all.
  apply List.Forall_forall. intros y Hy%in_rev. unfold by_timestamp_desc.
  rewrite List.Forall_forall in Ha. specialize (Ha y Hy). lia.
Qed.

(** With strictly increasing timestamps a read returns the last [limit]
    entries in the order in which they were written. *)
Lemma getLogEntries_increasing (st : t) (limit : nat) :
  StronglySorted (λ a b, LogEntry.timestamp a < LogEntry.timestamp b)
                 (JsMap.values (logs st)) →
  getLogEntries (Some (Z.of_nat limit)) st
  = drop (length (JsMap.values (logs st)) - limit) (JsMap.values (logs st)).
Proof.
  intros Hs. unfold getLogEntries. simpl.
  fold by_timestamp_desc. rewrite (js_sort_increasing _ Hs).
  set (l := JsMap.values (logs st)). unfold slice0.
  destruct (Z.ltb_spec (Z.of_nat limit) 0); [lia|].
  rewrite length_rev.
  destruct (Nat.le_gt_cases limit (length l)) as [Hle|Hgt].
  - rewrite Z.min_l by lia. rewrite Nat2Z.id.
    rewrite firstn_rev, rev_involutive. done.
  - rewrite Z.min_r by lia. rewrite Nat2Z.id.
    rewrite firstn_rev, rev_involutive.
    replace (length l - limit)%nat with (length l - length l)%nat by lia.
    done.
Qed.

Lemma JsMap_set_fresh {V} k (v : V) m :
  Forall (λ kv, fst kv ≠ k) m → JsMap.set k v m = m ++ [(k, v)].
Proof.
  induction 1 as [|[k' v'] m Hk _ IH]; simpl; [done|].
  simpl in Hk. destruct (Z.eqb_spec k k'); [congruence|]. by rewrite IH.
Qed.

Lemma createLogEntry_appends now entry (st : t) :
  ids_below st →
  logs (snd (createLogEntry now entry st))
  = logs st ++ [(currentLogId st, fst (createLogEntry now entry st))]
  ∧ ids_below (snd (createLogEntry now entry st)).
Proof.
  unfold ids_below. intros Hst. simpl. rewrite JsMap_set_fresh.
  - split; [done|]. apply Forall_app. split.
    + eapply Forall_impl; [exact Hst|]. simpl. intros; lia.
    + apply Forall_singleton. simpl. lia.
  - eapply Forall_impl; [exact Hst|]. simpl. intros; lia.
Qed.

Lemma clearLogEntries_ids_below (st : t) : ids_below (clearLogEntries st).
Proof. by apply Forall_nil. Qed.
End LogOrder.

(** C7 at its failing input.  Two entries created one after the other with
    the same timestamp are read back with the later one first: the stable
    descending sort leaves the tie in writing order and the final [reverse]
    turns it round.  The same happens to the two lines that one [start()]
    logs, read through the whole server. *)
Theorem C7_equal_timestamps_read_reversed :
  map LogEntry.message (MemStorage.getLogEntries None two_entries_one_instant)
  = ["second"; "first"]
  ∧ map LogEntry.id (MemStorage.getLogEntries None two_entries_one_instant)
    = [2; 1]
  ∧ map LogEntry.message
      (MemStorage.getLogEntries None
         (World.storage
            (run fresh_server [PostStart 1])))
    = ["Connecting to example.com:12345";
       "Starting bot with username: MinecraftBot_01"].
Proof. repeat split; vm_compute; reflexivity. Qed.

(** ** The name generator *)

Section NameGeneratorFacts.
Import NameGenerator.

Lemma acceptable_spec used u :
  acceptable used u = true →
  (u ∉ used) ∧ (String.length u ≤ 16)%nat.
Proof.
  unfold acceptable. intros [Hlen Hnew]%andb_prop.
  apply Z.leb_le in Hlen. apply negb_true_iff, bool_decide_eq_false in Hnew.
  split; [done | lia].
Qed.

(** A name that the loop returns is not held and fits sixteen
    characters. *)
Lemma attempt_fresh n used g u g' :
  attempt n used g = (Some u, g') →
  (u ∉ used) ∧ (String.length u ≤ 16)%nat.
Proof.
  revert g. induction n as [|n IH]; intros g; simpl; [done|].
  destruct (candidate g) as [c g1].
  destruct (acceptable used c) eqn:Hacc.
  - intros [= <- <-]. by apply acceptable_spec.
  - apply IH.
Qed.

(** Whatever it returns, the generator records the name as held and
    keeps every name that was held. *)
Lemma generateRandomUsername_holds used g :
  let '(u, used', _) := generateRandomUsername used g in
  used' = {[u]} ∪ used.
Proof.
  unfold generateRandomUsername.
  destruct (attempt maxAttempts used g) as [[u|] g1]; [done|].
  by destruct (Rng.random g1).
Qed.

(** As long as no call falls back, the names of [n] calls in a row are
    pairwise distinct, were not held before, and fit sixteen characters. *)
Lemma allocate_distinct n used g :
  loops_succeed n used g = true →
  NoDup (fst (fst (allocate n used g)))
  ∧ Forall (λ u, (u ∉ used) ∧ (String.length u ≤ 16)%nat)
           (fst (fst (allocate n used g))).
Proof.
  revert used g. induction n as [|n IH]; intros used g Hok.
  { split; constructor. }
  cbn [allocate]. cbn [loops_succeed] in Hok. unfold generateRandomUsername.
  destruct (attempt maxAttempts used g) as [[u|] g1] eqn:Hloop; [|done].
  destruct (attempt_fresh _ _ _ _ _ Hloop) as [Hnew Hlen].
  specialize (IH _ _ Hok).
  destruct (allocate n ({[u]} ∪ used) g1) as [[names used'] g2].
  cbn [fst] in *. destruct IH as [Hnd Hall]. split.
  - constructor; [|done]. intros Hin.
    rewrite Forall_forall in Hall. destruct (Hall u Hin) as [Hu _].
    apply Hu, elem_of_union. left. by apply elem_of_singleton.
  - constructor; [done|]. eapply Forall_impl; [exact Hall|]. simpl.
    intros v [Hv ?]. split; [|done].
    intros Hin. apply Hv, elem_of_union. by right.
Qed.
End NameGeneratorFacts.

(** C6 at its failing input.  With a random source that keeps returning 0,
    the first call takes "AlexGaming_"; the second collides a hundred times
    and falls back to "Player0"; the third does the same and returns
    "Player0" again, a name that is held, and not one with five digits. *)
Theorem C6_fallback_name_repeats :
  fst (fst (NameGenerator.allocate 3 ∅ zeros))
  = ["AlexGaming_"; "Player0"; "Player0"]
  ∧ fst (NameGenerator.attempt NameGenerator.maxAttempts
           ({["AlexGaming_"]} : gset string) (Rng.mk (Rng.draws zeros) 5))
    = None.
Proof. split; vm_compute; reflexivity. Qed.

(** ** Reasoning about computations *)

Lemma lookup_alter_here {A} (f : A → A) (l : list A) (i : nat) x :
  l !! i = Some x → alter f i l !! i = Some (f x).
Proof.
  intros H. rewrite list_lookup_alter, decide_True by done. by rewrite H.
Qed.

Lemma alter_last {A} (f : A → A) (l : list A) x :
  alter f (length l) (l ++ [x]) = l ++ [f x].
Proof.
  replace (length l) with (length l + 0)%nat by lia. by rewrite alter_app_r.
Qed.

Lemma lookup_last {A} (l : list A) x : (l ++ [x]) !! length l = Some x.
Proof. rewrite lookup_app_r by lia. by rewrite Nat.sub_diag. Qed.

Lemma alter_is_insert {A} (f : A → A) (l : list A) (i : nat) x :
  l !! i = Some x → alter f i l = <[i := f x]> l.
Proof.
  revert i. induction l as [|y l IH]; intros [|i] H; simplify_eq/=; [done|].
  f_equal. by apply IH.
Qed.

(** Reads of [this] after a chain of assignments. *)
Ltac find_lookup :=
  lazymatch goal with
  | |- alter _ _ _ !! _ = Some _ => apply lookup_alter_here; find_lookup
  | |- _ => eassumption
  end.

Ltac read_this i :=
  match goal with
  | |- context [ @lookup nat Service.t _ _ i ?l ] =>
      let H := fresh in
      eassert (H : l !! i = Some _) by find_lookup;
      rewrite H; clear H
  end.

Ltac unfold_ops :=
  unfold try_catch, quit, emitStatus, getStatus, botUsername, isConnected,
    setupBotEvents, createBot, setTimeout, setInterval, schedule, random,
    emit, command, removeAllListeners, clearTimer, assign, when, json,
    status_json, the_bot, this_, modify, gets, throw, mbind, M_bind, bind,
    mret, M_ret, ret.

Lemma drop_app_length' {A} (l k : list A) : drop (length l) (l ++ k) = k.
Proof. by rewrite drop_app_length. Qed.

(** ** stop() *)

Lemma clear_opt_cleared o l h x :
  o = Some h → clear_opt o l !! h = Some x → Timer.scheduled x = false.
Proof.
  intros -> Hx. simpl in Hx. rewrite list_lookup_alter, decide_True in Hx by done.
  destruct (l !! h); simplify_eq/=. done.
Qed.

Lemma clear_opt_keeps_cleared o l h x :
  (∀ y, l !! h = Some y → Timer.scheduled y = false) →
  clear_opt o l !! h = Some x → Timer.scheduled x = false.
Proof.
  intros Hl Hx. destruct o as [h'|]; simpl in Hx; [|by eauto].
  rewrite list_lookup_alter in Hx. case_decide; [|by eauto].
  subst. destruct (l !! h); simplify_eq/=. done.
Qed.

Lemma stop_spec (w : World.t) (i : nat) (s : Service.t) :
  World.services w !! i = Some s →
  ∃ w', stop i w = (Ok tt, w')
    ∧ World.services w' !! i = Some (stopped s)
    ∧ World.timers w'
      = clear_opt (Service.chatInterval s)
          (clear_opt (Service.wanderInterval s)
             (clear_opt (Service.reconnectTimeout s) (World.timers w)))
    ∧ World.botServices w' = World.botServices w
    ∧ World.connectedClients w' = World.connectedClients w
    ∧ World.usedNames w'
      = (if BotConfig.useRandomNames (Service.config s)
            && negb (String.eqb (Service.actualUsername s) "")
         then NameGenerator.releaseUsername (Service.actualUsername s)
                (World.usedNames w)
         else World.usedNames w)
    ∧ new_logs i w w' = stop_logs w s
    ∧ World.bots w'
      = match Service.bot s with
        | Some b =>
            match Adapter.quitThrows (World.adapter w) b with
            | Some _ => alter MBot.removeAllListeners b (World.bots w)
            | None => alter MBot.setEnded b
                        (alter MBot.removeAllListeners b (World.bots w))
            end
        | None => World.bots w
        end
    ∧ World.services w' = <[i := stopped s]> (World.services w).
Proof.
  intros Hs. unfold stop, new_logs, stop_logs, mbind, M_bind, bind.
  unfold this_ at 1. rewrite Hs.
  destruct s as [bot config ra st rt wi ci au iw].
  cbn [Service.reconnectTimeout Service.wanderInterval Service.chatInterval
       Service.bot Service.config Service.actualUsername].
  destruct rt as [h1|], wi as [h2|], ci as [h3|], bot as [b|];
    try destruct (Adapter.quitThrows (World.adapter w) b) as [err|] eqn:Hq;
    destruct (BotConfig.useRandomNames config && negb (au =? "")%string) eqn:Hr.
  all: unfold_ops; simpl.
  all: try rewrite Hq; simpl.
  all: read_this i; simpl.
  all: eexists; split; [reflexivity|]; simpl.
  all: split; [ read_this i; reflexivity | ].
  all: repeat rewrite <- (app_assoc (World.emitted w)).
  all: rewrite ?drop_app_length', ?drop_all by done.
  all: unfold logs_of; simpl; rewrite ?bool_decide_eq_true_2 by done.
  all: repeat split; try reflexivity.
  all: rewrite !list_alter_alter_eq; by rewrite (alter_is_insert _ _ _ _ Hs).
Qed.

Lemma held_timers_cleared (s : Service.t) (l : list Timer.t) h x :
  h ∈ held_timers s →
  clear_opt (Service.chatInterval s)
    (clear_opt (Service.wanderInterval s)
       (clear_opt (Service.reconnectTimeout s) l)) !! h = Some x →
  Timer.scheduled x = false.
Proof.
  unfold held_timers. intros Hh Hx.
  apply list_elem_of_omap in Hh as (o & Ho & Hoh). simpl in Hoh. subst o.
  apply elem_of_cons in Ho as [Ho | Ho];
    [|apply elem_of_cons in Ho as [Ho | Ho];
      [|apply list_elem_of_singleton in Ho]].
  - revert Hx. apply clear_opt_keeps_cleared. intros y.
    apply clear_opt_keeps_cleared. intros z. by apply clear_opt_cleared.
  - revert Hx. apply clear_opt_keeps_cleared. intros y.
    by apply clear_opt_cleared.
  - revert Hx. by apply clear_opt_cleared.
Qed.

(** When [quit()] of the held bot raises, [stop()] still returns
    normally.  It logs the announcement and then one warning that carries
    the error; afterwards the service holds no bot, no timer handle, no
    username, no start time and a zero attempt counter, every timer that its
    fields held is unscheduled, the listeners are off the bot, and, if
    random names are set at that moment, the name in [actualUsername] is no
    longer held. *)
Lemma stop_completes_when_quit_raises (w : World.t) (i b : nat)
    (s : Service.t) (err : string) :
  World.services w !! i = Some s →
  Service.bot s = Some b →
  Adapter.quitThrows (World.adapter w) b = Some err →
  ∃ w', stop i w = (Ok tt, w')
    ∧ new_logs i w w'
      = [InsertLogEntry.mk "info" "Stopping bot...";
         InsertLogEntry.mk "warn" ("Error during bot shutdown: " +:+ err)]
    ∧ World.services w'
      = <[i := Service.mk None (Service.config s) 0 None None None None ""
                          false]> (World.services w)
    ∧ World.botServices w' = World.botServices w
    ∧ (∀ h x, h ∈ held_timers s → World.timers w' !! h = Some x →
              Timer.scheduled x = false)
    ∧ (∀ x, World.bots w' !! b = Some x → MBot.listeners x = None)
    ∧ (BotConfig.useRandomNames (Service.config s) = true →
       Service.actualUsername s ≠ "" →
       Service.actualUsername s ∉ World.usedNames w').
Proof.
  intros Hs Hb Hq.
  destruct (stop_spec w i s Hs)
    as (w' & Hrun & _ & Htm & Hreg & _ & Hused & Hlogs & Hbots & Hsvc).
  exists w'. split; [done|].
  split. { rewrite Hlogs. unfold stop_logs. by rewrite Hb, Hq. }
  split; [done|]. split; [done|].
  split. { intros h x Hh. rewrite Htm. by apply held_timers_cleared. }
  split.
  { intros x. rewrite Hbots, Hb, Hq.
    rewrite list_lookup_alter, decide_True by done.
    destruct (World.bots w !! b); intros; simplify_eq/=. done. }
  intros Hr Hne. rewrite Hused, Hr.
  destruct (String.eqb_spec (Service.actualUsername s) ""); [done|]. simpl.
  unfold NameGenerator.releaseUsername.
  intros [_ Hn]%elem_of_difference. apply Hn. by apply elem_of_singleton.
Qed.

(** The lemma at a bot that holds two interval handles and a generated
    name: both intervals are unscheduled and the name is released. *)
Lemma stop_completes_at_wandering_bot :
  ∃ w', stop 0 w_wandering = (Ok tt, w')
    ∧ new_logs 0 w_wandering w' = raising_stop_logs
    ∧ (∀ h x, h ∈ [0%nat; 1%nat] → World.timers w' !! h = Some x →
              Timer.scheduled x = false)
    ∧ elements (World.usedNames w_wandering) = ["IvyNewbie"]
    ∧ "IvyNewbie" ∉ World.usedNames w'.
Proof.
  destruct (stop_completes_when_quit_raises w_wandering 0 0
              (Service.mk (Some 0%nat)
                 (BotConfig.mk 2 "MinecraftBot" "example.com" 12345 true 30 10
                               "info" true true true false)
                 0 (Some 1000) None (Some 0%nat) (Some 1%nat) "IvyNewbie" true)
              "Error: socket already destroyed" eq_refl eq_refl eq_refl)
    as (w' & Hrun & Hlogs & _ & _ & Htimers & _ & Hname).
  exists w'. split; [exact Hrun|]. split; [exact Hlogs|].
  split; [exact Htimers|]. split; [reflexivity|]. by apply Hname.
Qed.

(** C8 at its failing inputs.  Closing the session raises; the stop route
    answers, [stop()] logs the warning and goes on, and the service ends up
    unregistered, without a bot, without a timer handle or a username in its
    fields, and with its counter reset.  But the two timeouts that
    [performWander()] set are still scheduled, and the second of them fires
    after the stop and emits a status update for the stopped instance; after
    a reconnect the name that the first attempt drew from the generator is
    still held, though no instance uses it; and so is the name of a bot
    whose random names were switched off while it ran. *)
Theorem C8_stop_leaves_timeouts_and_names :
  let stopped1 := run w_wandering [PostStop 2] in
  let stopped2 := run w_reconnected [PostStop 2] in
  let stopped3 := run w_switched_off [PostStop 2] in
  fst (stopRoute 2 w_wandering) = Ok (Response.mk 200 "Bot stopped")
  ∧ new_logs 0 w_wandering stopped1 = raising_stop_logs
  ∧ World.botServices stopped1 !! 2 = None
  ∧ map (λ s, (Service.bot s, held_timers s, Service.actualUsername s,
               Service.reconnectAttempts s)) (World.services stopped1)
    = [(None, [], "", 0)]
  ∧ map Timer.scheduled (pending 0 ForwardOff stopped1) = [true]
  ∧ map Timer.scheduled (pending 0 WanderDone stopped1) = [true]
  ∧ drop (length (World.emitted stopped1))
         (World.emitted (run stopped1 [Fires 3]))
    = [(0%nat, EStatus (BotStatus.mk 2 false "MinecraftBot" 0 0 false false))]
  ∧ map MBot.username (World.bots w_reconnected) = ["IvyNewbie"; "CyberAria"]
  ∧ new_logs 0 w_reconnected stopped2 = raising_stop_logs
  ∧ map (λ s, (Service.bot s, held_timers s, Service.actualUsername s,
               Service.reconnectAttempts s)) (World.services stopped2)
    = [(None, [], "", 0)]
  ∧ elements (World.usedNames stopped2) = ["IvyNewbie"]
  ∧ map MBot.username (World.bots w_switched_off) = ["IvyNewbie"]
  ∧ new_logs 0 w_switched_off stopped3 = raising_stop_logs
  ∧ map (λ s, (Service.bot s, Service.actualUsername s))
        (World.services stopped3)
    = [(None, "")]
  ∧ elements (World.usedNames stopped3) = ["IvyNewbie"].
Proof. repeat split; vm_compute; reflexivity. Qed.

(** ** The stop route *)

Lemma stopRoute_unregistered (w : World.t) (botId : Z) :
  World.botServices w !! botId = None →
  stopRoute botId w
  = (Ok (Response.mk 400 "Bot not found or not running"), w).
Proof.
  intros H. unfold stopRoute. unfold_ops. simpl. by rewrite H.
Qed.

Lemma stopRoute_registered (w : World.t) (botId : Z) (i : nat) (s : Service.t) :
  World.botServices w !! botId = Some i →
  World.services w !! i = Some s →
  ∃ r w', stopRoute botId w = (Ok r, w')
    ∧ Response.status r = 200
    ∧ World.botServices w' = delete botId (World.botServices w)
    ∧ World.services w' !! i = Some (stopped s).
Proof.
  intros Hreg Hs.
  destruct (stop_spec w i s Hs) as (w1 & Hrun & Hsvc & _ & Hsame & Hcl & _).
  unfold stopRoute, broadcastToClients. unfold_ops. simpl.
  rewrite Hreg, Hrun. simpl.
  destruct (existsb _ (World.connectedClients w1)); simpl.
  - rewrite Hsame, lookup_delete_eq. simpl.
    eexists _, _. split; [reflexivity|]. simpl. by rewrite Hsame.
  - eexists _, _. split; [reflexivity|]. simpl. by rewrite Hsame.
Qed.

(** C5, as stated, fails on its first half: a stop for an id that has no
    registered instance is answered with status 400, an error to the
    caller. *)
Lemma C5_stop_unregistered_is_an_error :
  fst (stopRoute 1 fresh_server)
  = Ok (Response.mk 400 "Bot not found or not running").
Proof. reflexivity. Qed.

(** C5, amended.  A stop for an id with no registered instance is rejected
    with status 400 and changes nothing.  A stop for a registered instance
    answers with status 200 and leaves the id unregistered and the instance
    stopped, whether or not closing the session raised and whether or not
    the broadcast that follows raised. *)
Theorem C5_stop_route (w : World.t) (botId : Z) :
  (World.botServices w !! botId = None →
   stopRoute botId w
   = (Ok (Response.mk 400 "Bot not found or not running"), w))
  ∧ (∀ i s,
       World.botServices w !! botId = Some i →
       World.services w !! i = Some s →
       ∃ r w', stopRoute botId w = (Ok r, w')
         ∧ Response.status r = 200
         ∧ World.botServices w' !! botId = None
         ∧ World.services w' !! i = Some (stopped s)).
Proof.
  split; [apply stopRoute_unregistered|].
  intros i s Hreg Hs.
  destruct (stopRoute_registered w botId i s Hreg Hs) as (r & w' & ? & ? & Hd & ?).
  exists r, w'. repeat split; try done. by rewrite Hd, lookup_delete_eq.
Qed.

(** ** start() *)

Lemma start_spec (w : World.t) (i : nat) (s : Service.t) :
  World.services w !! i = Some s →
  Service.bot s = None →
  Adapter.createThrows (World.adapter w) (Adapter.createCalls (World.adapter w))
  = None →
  ∃ w', start i w = (Ok tt, w')
    ∧ World.services w' !! i = Some (started w (length (World.bots w)) s)
    ∧ World.bots w'
      = World.bots w
        ++ [MBot.mk (BotConfig.serverIp (Service.config s))
                    (BotConfig.serverPort (Service.config s))
                    (effective_username w s) (Some i) false false]
    ∧ World.botServices w' = World.botServices w
    ∧ World.timers w' = World.timers w
    ∧ MemStorage.botConfigs (World.storage w')
      = MemStorage.botConfigs (World.storage w)
    ∧ World.now w' = World.now w.
Proof.
  intros Hs Hb Hc. unfold start, started, effective_username, mbind, M_bind, bind.
  unfold this_ at 1. rewrite Hs.
  destruct s as [bot config ra st rt wi ci au iw]. simpl in Hb. subst bot.
  cbn [Service.bot Service.config Service.reconnectAttempts Service.startTime
       Service.reconnectTimeout Service.wanderInterval Service.chatInterval
       Service.actualUsername Service.isWandering].
  rewrite bool_decide_eq_false_2 by (intros [? ?]; done).
  destruct (BotConfig.useRandomNames config).
  - unfold_ops. simpl.
    destruct (NameGenerator.generateRandomUsername (World.usedNames w)
                (World.rng w)) as [[name used'] g'].
    simpl. rewrite Hc. simpl.
    read_this i. simpl.
    eexists. split; [reflexivity|]. simpl.
    split; [read_this i; reflexivity|]. by rewrite alter_last.
  - unfold_ops. simpl. rewrite Hc. simpl.
    read_this i. simpl.
    eexists. split; [reflexivity|]. simpl.
    split; [read_this i; reflexivity|]. by rewrite alter_last.
Qed.

(** C9.  [isConnected()] and the [connected] flag of [getStatus()] say
    whether the service holds a bot, and nothing else: they are [true]
    exactly when [this.bot] is set.  So right after a [start()] that created
    the bot, and before the bot has logged in, both answer [true], and the
    start route turns down a further start of an id registered to this
    service with "Bot is already running", changing nothing. *)
Theorem C9_connected_as_soon_as_created (w : World.t) (i : nat)
    (s : Service.t) :
  World.services w !! i = Some s →
  isConnected i w = (Ok (bool_decide (is_Some (Service.bot s))), w)
  ∧ ((∀ b, Service.bot s = Some b → is_Some (World.bots w !! b)) →
     ∃ st, getStatus i w = (Ok st, w)
           ∧ BotStatus.connected st = bool_decide (is_Some (Service.bot s)))
  ∧ (Service.bot s = None →
     Adapter.createThrows (World.adapter w)
       (Adapter.createCalls (World.adapter w)) = None →
     ∃ w' b x, start i w = (Ok tt, w')
       ∧ Service.bot <$> World.services w' !! i = Some (Some b)
       ∧ World.bots w' !! b = Some x
       ∧ MBot.loggedIn x = false
       ∧ isConnected i w' = (Ok true, w')
       ∧ (∃ st, getStatus i w' = (Ok st, w') ∧ BotStatus.connected st = true)
       ∧ (∀ botId config,
            World.botServices w' !! botId = Some i →
            MemStorage.getBotConfig (Some botId) (World.storage w')
            = Some config →
            startRoute botId w'
            = (Ok (Response.mk 400 "Bot is already running"), w'))).
Proof.
  intros Hs. split; [|split].
  - unfold isConnected. unfold_ops. by rewrite Hs.
  - intros Hbot. unfold_ops. rewrite Hs. simpl.
    destruct (Service.bot s) as [b|] eqn:Hb; simpl.
    + destruct (Hbot b eq_refl) as [x Hx]. rewrite Hx. simpl.
      eexists. split; [reflexivity|]. done.
    + eexists. split; [reflexivity|]. done.
  - intros Hb Hc.
    destruct (start_spec w i s Hs Hb Hc) as (w' & Hrun & Hsvc & Hbots & _).
    eexists w', (length (World.bots w)), _.
    split; [done|]. split; [by rewrite Hsvc|].
    split; [rewrite Hbots; apply lookup_last|]. split; [done|].
    assert (Hconn : isConnected i w' = (Ok true, w')).
    { unfold isConnected. unfold_ops. by rewrite Hsvc. }
    split; [done|]. split.
    + unfold_ops. rewrite Hsvc. simpl. rewrite Hbots, lookup_last. simpl.
      eexists. split; [reflexivity|]. done.
    + intros botId config Hreg Hcfg.
      unfold startRoute, alreadyRunning.
      unfold try_catch, mbind, M_bind, bind, gets.
      rewrite Hcfg, Hreg, Hconn. reflexivity.
Qed.

(** The theorem at a new service for the default configuration: not
    connected before [start()], connected right after it. *)
Lemma C9_connected_as_soon_as_created_witness :
  let w := World.set_services (λ _, [Service.new MemStorage.defaultConfig])
             fresh_server in
  isConnected 0 w = (Ok false, w)
  ∧ (∃ st, getStatus 0 w = (Ok st, w) ∧ BotStatus.connected st = false)
  ∧ ∃ w' b x,
      start 0 w = (Ok tt, w')
      ∧ Service.bot <$> World.services w' !! 0%nat = Some (Some b)
      ∧ World.bots w' !! b = Some x
      ∧ MBot.loggedIn x = false
      ∧ isConnected 0 w' = (Ok true, w')
      ∧ (∃ st, getStatus 0 w' = (Ok st, w') ∧ BotStatus.connected st = true).
Proof.
  intros w.
  destruct (C9_connected_as_soon_as_created w 0
              (Service.new MemStorage.defaultConfig) eq_refl)
    as (H1 & H2 & H3).
  split; [exact H1|]. split.
  - apply H2. intros b Hb. discriminate Hb.
  - destruct (H3 eq_refl eq_refl) as (w' & b & x & Ha & Hb & Hc & Hd & He & Hf & _).
    exists w', b, x. repeat split; assumption.
Defined.

(** ** handleDisconnection() and the session events *)

Lemma handleDisconnection_spec (w : World.t) (i : nat) (s : Service.t) :
  World.services w !! i = Some s →
  ∃ w', handleDisconnection i w = (Ok tt, w')
    ∧ World.usedNames w' = World.usedNames w
    ∧ World.rng w' = World.rng w
    ∧ World.adapter w' = World.adapter w
    ∧ World.bots w'
      = match Service.bot s with
        | Some b => alter MBot.removeAllListeners b (World.bots w)
        | None => World.bots w
        end
    ∧ if BotConfig.autoReconnect (Service.config s)
         && (Service.reconnectAttempts s
             <? BotConfig.maxReconnectAttempts (Service.config s))
      then
        World.services w' !! i
        = Some (disconnected (Service.reconnectAttempts s + 1)
                             (Some (length (World.timers w))) s)
        ∧ World.timers w' = World.timers w ++ [reconnect_timer i s]
        ∧ new_logs i w w' = [attempt_log s]
      else if BotConfig.maxReconnectAttempts (Service.config s)
              <=? Service.reconnectAttempts s
      then
        World.services w' !! i
        = Some (disconnected 0 (Service.reconnectTimeout s) s)
        ∧ World.timers w' = World.timers w
        ∧ new_logs i w w' = [exhaustion_log]
      else
        World.services w' !! i
        = Some (disconnected (Service.reconnectAttempts s)
                             (Service.reconnectTimeout s) s)
        ∧ World.timers w' = World.timers w
        ∧ new_logs i w w' = [].
Proof.
  intros Hs.
  unfold handleDisconnection, new_logs, disconnected, attempt_log,
    exhaustion_log, reconnect_timer, mbind, M_bind, bind.
  unfold this_ at 1. rewrite Hs.
  destruct s as [bot config ra st rt wi ci au iw].
  cbn [Service.bot Service.config Service.reconnectAttempts Service.startTime
       Service.reconnectTimeout Service.wanderInterval Service.chatInterval
       Service.actualUsername Service.isWandering].
  destruct (BotConfig.autoReconnect config
            && (ra <? BotConfig.maxReconnectAttempts config));
    [|destruct (BotConfig.maxReconnectAttempts config <=? ra)];
    destruct bot as [b|].
  all: unfold_ops; simpl.
  all: read_this i; simpl.
  all: eexists; split; [reflexivity|]; simpl.
  all: do 4 (split; [reflexivity|]).
  all: split; [ read_this i; reflexivity | ].
  all: repeat rewrite <- (app_assoc (World.emitted w)).
  all: rewrite ?drop_app_length'.
  all: unfold logs_of; simpl; rewrite ?bool_decide_eq_true_2 by done.
  all: repeat split; try reflexivity.
Qed.

(** What the library does to the bot before the handlers of an event run. *)
Lemma dispatch_to_listener (w : World.t) (b i : nat) (x : MBot.t) ev :
  World.bots w !! b = Some x →
  MBot.listeners x = Some i →
  dispatch b ev w
  = onEvent i ev
      (match ev with
       | Login => World.set_bots (alter MBot.setLoggedIn b) w
       | End_ => World.set_bots (alter MBot.setEnded b) w
       | _ => w
       end).
Proof.
  intros Hx Hl. unfold dispatch.
  destruct ev; unfold_ops; simpl;
    rewrite ?(lookup_alter_here _ _ _ _ Hx), ?Hx; simpl; by rewrite Hl.
Qed.

Lemma login_resets (w : World.t) (b i : nat) (x : MBot.t) (s : Service.t) :
  World.bots w !! b = Some x →
  MBot.listeners x = Some i →
  World.services w !! i = Some s →
  Service.bot s = Some b →
  ∃ w', dispatch b Login w = (Ok tt, w')
    ∧ World.services w' !! i = Some (Service.set_reconnectAttempts 0 s)
    ∧ World.timers w' = World.timers w.
Proof.
  intros Hx Hl Hs Hb. rewrite (dispatch_to_listener w b i x) by done.
  unfold onEvent. unfold_ops. simpl. rewrite Hs, Hb. simpl.
  rewrite (lookup_alter_here _ _ _ _ Hx). simpl.
  read_this i. simpl. rewrite Hb. simpl.
  rewrite (lookup_alter_here _ _ _ _ Hx). simpl.
  eexists. split; [reflexivity|]. simpl. split; [|done].
  by read_this i.
Qed.

Lemma spawn_keeps_counter (w : World.t) (b i : nat) (x : MBot.t)
    (s : Service.t) :
  World.bots w !! b = Some x →
  MBot.listeners x = Some i →
  World.services w !! i = Some s →
  Service.bot s = Some b →
  ∃ w' s', dispatch b Spawn w = (Ok tt, w')
    ∧ World.services w' !! i = Some s'
    ∧ Service.reconnectAttempts s' = Service.reconnectAttempts s
    ∧ Service.bot s' = Some b.
Proof.
  intros Hx Hl Hs Hb. rewrite (dispatch_to_listener w b i x) by done.
  unfold onEvent, startAIBehaviors. unfold_ops. simpl. rewrite Hs, Hb. simpl.
  rewrite Hx. simpl. rewrite Hs. simpl. rewrite Hb. simpl.
  destruct s as [bot config ra st rt wi ci au iw]. simpl in *.
  destruct (BotConfig.wanderEnabled config), (BotConfig.chatEnabled config);
    simpl.
  all: eexists _, _; split; [reflexivity|]; simpl.
  all: split; [ first [ read_this i; reflexivity | eassumption ] | ].
  all: done.
Qed.

(** C2, as stated, fails on the reset: it is the login handler that puts
    the attempt counter back to 0, and the handler of the spawned event
    leaves the counter alone.  After one reconnect the counter is 1, and it
    is still 1 once the new session has spawned without a login.  And a
    session that logs in and is kicked before it spawns has had its counter
    reset without reaching Active: with [maxReconnectAttempts = 1] the
    second disconnection finds the counter at 0, logs "Attempt 1/1" a second
    time and schedules another reconnect, with no exhaustion entry. *)
Lemma C2_spawn_does_not_reset :
  let w0 := fresh_server in
  Service.reconnectAttempts
    <$> World.services (run w0 spawn_after_reconnect) !! 0%nat
  = Some 1
  ∧ map InsertLogEntry.level
      (drop 6 (logs_of 0 (World.emitted (run w0 kicked_after_login))))
    = ["info"; "warn"; "info"]
  ∧ map InsertLogEntry.message
      (drop 8 (logs_of 0 (World.emitted (run w0 kicked_after_login))))
    = ["Auto-reconnect enabled. Attempt 1/1 in 30 seconds"]
  ∧ map Timer.scheduled (pending 0 Reconnect (run w0 kicked_after_login))
    = [true].
Proof. repeat split; vm_compute; reflexivity. Qed.

(** C2, amended.  For a service [i] that holds the bot [b] and listens to
    it: the login event sets the attempt counter to 0 and the spawn event
    leaves it as it is; a disconnection with auto-reconnect on and the
    counter below [maxReconnectAttempts] drops the bot, adds exactly 1 to
    the counter, logs the attempt and schedules one reconnect timer; a
    disconnection with the counter at or above [maxReconnectAttempts] drops
    the bot, schedules nothing, logs exactly the one error-level exhaustion
    entry and sets the counter to 0. *)
Theorem C2_reconnect_counter (w : World.t) (b i : nat) (x : MBot.t)
    (s : Service.t) :
  World.bots w !! b = Some x →
  MBot.listeners x = Some i →
  World.services w !! i = Some s →
  Service.bot s = Some b →
  (∃ w', dispatch b Login w = (Ok tt, w')
     ∧ Service.reconnectAttempts <$> World.services w' !! i = Some 0)
  ∧ (∃ w', dispatch b Spawn w = (Ok tt, w')
       ∧ Service.reconnectAttempts <$> World.services w' !! i
         = Some (Service.reconnectAttempts s))
  ∧ (BotConfig.autoReconnect (Service.config s) = true →
     Service.reconnectAttempts s
     < BotConfig.maxReconnectAttempts (Service.config s) →
     ∃ w', handleDisconnection i w = (Ok tt, w')
       ∧ Service.bot <$> World.services w' !! i = Some None
       ∧ Service.reconnectAttempts <$> World.services w' !! i
         = Some (Service.reconnectAttempts s + 1)
       ∧ World.timers w' = World.timers w ++ [reconnect_timer i s]
       ∧ new_logs i w w' = [attempt_log s])
  ∧ (BotConfig.maxReconnectAttempts (Service.config s)
     ≤ Service.reconnectAttempts s →
     ∃ w', handleDisconnection i w = (Ok tt, w')
       ∧ Service.bot <$> World.services w' !! i = Some None
       ∧ Service.reconnectAttempts <$> World.services w' !! i = Some 0
       ∧ World.timers w' = World.timers w
       ∧ pending i Reconnect w' = pending i Reconnect w
       ∧ new_logs i w w' = [exhaustion_log]).
Proof.
  intros Hx Hl Hs Hb. split; [|split; [|split]].
  - destruct (login_resets w b i x s Hx Hl Hs Hb) as (w' & Hrun & Hsvc & _).
    exists w'. split; [done|]. by rewrite Hsvc.
  - destruct (spawn_keeps_counter w b i x s Hx Hl Hs Hb)
      as (w' & s' & Hrun & Hsvc & Hn & _).
    exists w'. split; [done|]. rewrite Hsvc. simpl. by rewrite Hn.
  - intros Hauto Hlt.
    destruct (handleDisconnection_spec w i s Hs) as (w' & Hrun & _ & _ & _ & _ & H).
    rewrite Hauto in H. simpl in H.
    destruct (Z.ltb_spec (Service.reconnectAttempts s)
                (BotConfig.maxReconnectAttempts (Service.config s))); [|lia].
    destruct H as (Hsvc & Htm & Hlog).
    exists w'. rewrite Hsvc. done.
  - intros Hge.
    destruct (handleDisconnection_spec w i s Hs) as (w' & Hrun & _ & _ & _ & _ & H).
    destruct (Z.ltb_spec (Service.reconnectAttempts s)
                (BotConfig.maxReconnectAttempts (Service.config s))); [lia|].
    rewrite andb_false_r in H.
    destruct (Z.leb_spec (BotConfig.maxReconnectAttempts (Service.config s))
                (Service.reconnectAttempts s)); [|lia].
    destruct H as (Hsvc & Htm & Hlog).
    exists w'. rewrite Hsvc. unfold pending. rewrite Htm. done.
Qed.

(** The theorem at the default bot while it connects: a login resets the
    counter, and a disconnection takes it from 0 to 1. *)
Lemma C2_reconnect_counter_witness :
  (∃ w', dispatch 0 Login w_connecting = (Ok tt, w')
     ∧ Service.reconnectAttempts <$> World.services w' !! 0%nat = Some 0)
  ∧ (∃ w', handleDisconnection 0 w_connecting = (Ok tt, w')
       ∧ Service.reconnectAttempts <$> World.services w' !! 0%nat = Some 1).
Proof.
  destruct (C2_reconnect_counter w_connecting 0 0
              (MBot.mk "example.com" 12345 "MinecraftBot_01" (Some 0%nat)
                       false false)
              (Service.mk (Some 0%nat) MemStorage.defaultConfig 0 (Some 1000)
                          None None None "MinecraftBot_01" false)
              eq_refl eq_refl eq_refl eq_refl)
    as (Hlogin & _ & Hinc & _).
  split; [exact Hlogin|].
  destruct (Hinc eq_refl eq_refl) as (w' & Hrun & _ & Hn & _).
  exists w'. split; assumption.
Defined.

(** ** Reconnecting *)

(** C4, as stated, fails for random names: the session that the reconnect
    opens (the second bot) carries another username than the session before
    it. *)
Lemma C4_reconnect_draws_a_new_name :
  map MBot.username
    (World.bots (run varied_server reconnect_with_random_name))
  = ["IvyNewbie"; "CyberAria"].
Proof. vm_compute. reflexivity. Qed.

(** Until the reconnect the service keeps the username of the attempt
    before, and the name stays held. *)
Lemma handleDisconnection_keeps_username (w : World.t) (i : nat)
    (s : Service.t) :
  World.services w !! i = Some s →
  ∃ w', handleDisconnection i w = (Ok tt, w')
    ∧ Service.actualUsername <$> World.services w' !! i
      = Some (Service.actualUsername s)
    ∧ World.usedNames w' = World.usedNames w.
Proof.
  intros Hs.
  destruct (handleDisconnection_spec w i s Hs) as (w' & Hrun & Hu & _ & _ & _ & H).
  exists w'. split; [done|]. split; [|done].
  repeat case_match; destruct H as (-> & _); done.
Qed.

(** A [start()] with random names records the name it draws as held. *)
Lemma start_random_holds (w : World.t) (i : nat) (s : Service.t) :
  World.services w !! i = Some s →
  Service.bot s = None →
  Adapter.createThrows (World.adapter w) (Adapter.createCalls (World.adapter w))
  = None →
  BotConfig.useRandomNames (Service.config s) = true →
  ∃ w', start i w = (Ok tt, w')
    ∧ World.usedNames w' = {[effective_username w s]} ∪ World.usedNames w.
Proof.
  intros Hs Hb Hc Hr. unfold start, effective_username, mbind, M_bind, bind.
  unfold this_ at 1. rewrite Hs.
  destruct s as [bot config ra st rt wi ci au iw]. simpl in Hb, Hr. subst bot.
  cbn [Service.bot Service.config]. rewrite Hr.
  rewrite bool_decide_eq_false_2 by (intros [? ?]; done).
  pose proof (generateRandomUsername_holds (World.usedNames w) (World.rng w))
    as Hheld.
  unfold_ops. simpl.
  destruct (NameGenerator.generateRandomUsername (World.usedNames w)
              (World.rng w)) as [[name used'] g'].
  simpl. rewrite Hc. simpl.
  read_this i. simpl.
  eexists. split; [reflexivity|]. simpl. exact Hheld.
Qed.

(** When random names are switched on between the attempts, the name of
    the attempt before is the configured one, which is not held: the
    generator can return it, from its retry loop, and the reconnect then
    uses the same name again. *)
Lemma reconnect_after_switch_repeats_name :
  let disconnected_ := run fresh_server (take 4 switched_to_random_names) in
  let w := run fresh_server switched_to_random_names in
  map MBot.username (World.bots w) = ["AlexGaming_"; "AlexGaming_"]
  ∧ (BotConfig.useRandomNames ∘ Service.config)
      <$> World.services disconnected_ !! 0%nat
    = Some true
  ∧ Service.actualUsername <$> World.services disconnected_ !! 0%nat
    = Some "AlexGaming_"
  ∧ elements (World.usedNames disconnected_) = []
  ∧ fst (NameGenerator.attempt NameGenerator.maxAttempts
           (World.usedNames disconnected_) (World.rng disconnected_))
    = Some "AlexGaming_".
Proof. repeat split; vm_compute; reflexivity. Qed.

(** C4, amended.  When the reconnect timer of a disconnected service comes
    due, [start()] resolves the username again, from the configuration as it
    is then, and opens the session with it.  Without random names that is
    the configured username, the name of the attempt before whenever that
    attempt used the configured username too.  With random names it is what
    the generator returns now: a name that is recorded as held, and that is
    still held, and still the [actualUsername] of the service, after the
    disconnection that follows.  When the generator returns from its retry
    loop the name was not held before; so it differs from the name of the
    attempt before whenever that name is still held. *)
Theorem C4_reconnect_resolves_username_again (w : World.t) (h i : nat)
    (x : Timer.t) (s : Service.t) :
  World.timers w !! h = Some x →
  Timer.scheduled x = true →
  Timer.kind x = Reconnect →
  Timer.owner x = i →
  World.services w !! i = Some s →
  Service.bot s = None →
  Adapter.createThrows (World.adapter w) (Adapter.createCalls (World.adapter w))
  = None →
  ∃ w' y, fire h w = (Ok tt, w')
    ∧ Service.bot <$> World.services w' !! i = Some (Some (length (World.bots w)))
    ∧ World.bots w' !! length (World.bots w) = Some y
    ∧ MBot.username y = effective_username w s
    ∧ Service.actualUsername <$> World.services w' !! i = Some (MBot.username y)
    ∧ (BotConfig.useRandomNames (Service.config s) = false →
       MBot.username y = BotConfig.username (Service.config s)
       ∧ (Service.actualUsername s = BotConfig.username (Service.config s) →
          MBot.username y = Service.actualUsername s))
    ∧ (BotConfig.useRandomNames (Service.config s) = true →
       MBot.username y
       = fst (fst (NameGenerator.generateRandomUsername
                     (World.usedNames w) (World.rng w)))
       ∧ (∀ u g',
            NameGenerator.attempt NameGenerator.maxAttempts
              (World.usedNames w) (World.rng w) = (Some u, g') →
            MBot.username y = u
            ∧ (u ∉ World.usedNames w)
            ∧ (Service.actualUsername s ∈ World.usedNames w →
               u ≠ Service.actualUsername s))
       ∧ MBot.username y ∈ World.usedNames w'
       ∧ ∃ w'', handleDisconnection i w' = (Ok tt, w'')
           ∧ Service.actualUsername <$> World.services w'' !! i
             = Some (MBot.username y)
           ∧ MBot.username y ∈ World.usedNames w'').
Proof.
  intros Hx Hsch Hk Ho Hs Hb Hc.
  set (w1 := if negb (Timer.repeating x)
             then World.set_timers (alter Timer.clear h) w else w).
  assert (Hfire : fire h w = start i w1).
  { unfold fire. unfold_ops. rewrite Hx, Hsch, Hk, Ho. subst w1.
    by destruct (Timer.repeating x). }
  assert (Hs1 : World.services w1 !! i = Some s)
    by (subst w1; by destruct (Timer.repeating x)).
  assert (Hc1 : Adapter.createThrows (World.adapter w1)
                  (Adapter.createCalls (World.adapter w1)) = None)
    by (subst w1; by destruct (Timer.repeating x)).
  assert (Hsame : effective_username w1 s = effective_username w s
                  ∧ World.bots w1 = World.bots w
                  ∧ World.usedNames w1 = World.usedNames w)
    by (subst w1; by destruct (Timer.repeating x)).
  destruct Hsame as (Hname & Hbots & Hused).
  destruct (start_spec w1 i s Hs1 Hb Hc1) as (w' & Hrun & Hsvc & Hnew & _).
  rewrite Hname, Hbots in Hnew. rewrite Hbots in Hsvc.
  eexists w', _. split; [by rewrite Hfire|].
  split; [by rewrite Hsvc|].
  split; [rewrite Hnew; apply lookup_last|].
  split; [done|].
  split; [by rewrite Hsvc; simpl; rewrite Hname|].
  cbn [MBot.username]. split.
  - unfold effective_username. intros ->. split; [done|]. by intros ->.
  - intros Hr. split; [by unfold effective_username; rewrite Hr|].
    split.
    { intros u g' Hloop. unfold effective_username. rewrite Hr.
      unfold NameGenerator.generateRandomUsername. rewrite Hloop. cbn [fst].
      destruct (attempt_fresh _ _ _ _ _ Hloop) as [Hfresh _].
      split; [done|]. split; [done|]. by intros Hheld ->. }
    destruct (start_random_holds w1 i s Hs1 Hb Hc1 Hr) as (w2 & Hrun2 & Hu2).
    assert (w2 = w') by congruence. subst w2.
    rewrite Hname, Hused in Hu2.
    assert (Hin : effective_username w s ∈ World.usedNames w').
    { rewrite Hu2. apply elem_of_union. left. by apply elem_of_singleton. }
    split; [done|].
    destruct (handleDisconnection_keeps_username w' i _ Hsvc)
      as (w'' & Hrun3 & Hau & Hu3).
    exists w''. split; [done|]. split.
    + rewrite Hau. simpl. by rewrite Hname.
    + by rewrite Hu3.
Qed.

(** The theorem at the first reconnect of a bot with random names: the
    attempt before drew "IvyNewbie", which is still held, and the reconnect
    draws "CyberAria" from the retry loop. *)
Lemma C4_reconnect_resolves_username_again_witness :
  ∃ w' y, fire 0 w_random_reconnecting = (Ok tt, w')
    ∧ World.bots w' !! 1%nat = Some y
    ∧ MBot.username y = "CyberAria"
    ∧ MBot.username y ≠ "IvyNewbie"
    ∧ "CyberAria" ∈ World.usedNames w'.
Proof.
  destruct (C4_reconnect_resolves_username_again w_random_reconnecting 0 0
              (Timer.mk 0 Reconnect 30000 false true)
              (Service.mk None
                 (BotConfig.mk 2 "MinecraftBot" "example.com" 12345 true 30 10
                               "info" false false true false)
                 1 (Some 1000) (Some 0%nat) None None "IvyNewbie" false)
              eq_refl eq_refl eq_refl eq_refl eq_refl eq_refl eq_refl)
    as (w' & y & Hrun & _ & Hy & _ & _ & _ & Hrand).
  destruct (Hrand eq_refl) as (_ & Hloop & Hheld & _).
  destruct (Hloop "CyberAria"
              (snd (NameGenerator.attempt NameGenerator.maxAttempts
                      (World.usedNames w_random_reconnecting)
                      (World.rng w_random_reconnecting))))
    as (Hu & _ & Hne).
  { vm_compute. reflexivity. }
  exists w', y. split; [exact Hrun|]. split; [exact Hy|].
  split; [exact Hu|]. split.
  - rewrite Hu. apply Hne.
    apply (bool_decide_unpack
             ("IvyNewbie" ∈ World.usedNames w_random_reconnecting)).
    vm_compute. exact I.
  - rewrite <- Hu. exact Hheld.
Defined.

(** ** One session per configuration *)

(** C1 at its failing input.  The second start is accepted, because the
    registered service holds no bot while it waits to reconnect; it
    registers a new service and leaves the old one with its timer.  When
    the timer comes due the old service opens a session as well: two
    services built for configuration 1 hold a bot each, neither bot has
    ended, and the registry knows only the second service. *)
Theorem C1_second_session_after_restart :
  let w0 := fresh_server in
  let w := run w0 restart_while_reconnecting in
  fst (startRoute 1 (run w0 [PostStart 1; Emits 0 End_]))
  = Ok (Response.mk 200 "Bot start initiated")
  ∧ length (pending 0 Reconnect (run w0 [PostStart 1; Emits 0 End_; PostStart 1]))
    = 1%nat
  ∧ live_sessions 1 w = [2%nat; 1%nat]
  ∧ map MBot.ended (World.bots w) = [true; false; false]
  ∧ map MBot.listeners (World.bots w) = [None; Some 1%nat; Some 0%nat]
  ∧ World.botServices w !! 1 = Some 1%nat.
Proof. repeat split; vm_compute; reflexivity. Qed.

(** ** Behavior timers *)

(** C3 at its failing input.  After the disconnection the service holds no
    bot, yet its wander and chat intervals are still scheduled.  Once the
    service has reconnected, the wander interval of the lost session fires
    on the new session, next to the interval the new session started; and
    after a stop, which clears only the handles the fields hold, the two
    intervals of the lost session are still scheduled for a service that is
    stopped and no longer registered. *)
Theorem C3_intervals_outlive_the_session :
  let w0 := varied_server in
  let lost := run w0 session_lost in
  let regained := run lost session_regained in
  let stopped_ := run regained [PostStop 2] in
  Service.bot <$> World.services lost !! 0%nat = Some None
  ∧ map Timer.scheduled (pending 0 Wander lost) = [true]
  ∧ map Timer.scheduled (pending 0 ChatTick lost) = [true]
  ∧ length (pending 0 Wander regained) = 2%nat
  ∧ map fst (World.commands (run regained [Fires 0])) = [1%nat; 1%nat]
  ∧ World.botServices stopped_ !! 2 = None
  ∧ Service.bot <$> World.services stopped_ !! 0%nat = Some None
  ∧ length (pending 0 Wander stopped_) = 1%nat
  ∧ length (pending 0 ChatTick stopped_) = 1%nat.
Proof. repeat split; vm_compute; reflexivity. Qed.

(** ** What every reachable server satisfies *)

Lemma pending_waiting i w : pending i Reconnect w = waiting i (World.timers w).
Proof. reflexivity. Qed.

Lemma fmap_alter_same {A B} (g : A → B) (f : A → A) (l : list A) (i : nat) :
  (∀ x, g (f x) = g x) → g <$> alter f i l = g <$> l.
Proof.
  intros H. revert i. induction l as [|y l IH]; intros [|i]; simpl; [done..| |].
  - by rewrite H.
  - f_equal. apply IH.
Qed.

Lemma waiting_app i l k : waiting i (l ++ k) = waiting i l ++ waiting i k.
Proof. apply filter_app. Qed.

Lemma waiting_other i (x : Timer.t) :
  Timer.kind x ≠ Reconnect ∨ Timer.owner x ≠ i ∨ Timer.scheduled x = false →
  waiting i [x] = [].
Proof.
  intros H. unfold waiting. rewrite filter_cons_False; [done|].
  unfold scheduled_for. intros Hs. apply Is_true_true in Hs.
  apply andb_prop in Hs as [[H1 H2]%andb_prop H3].
  apply bool_decide_eq_true in H2, H3.
  destruct H as [H | [H | H]]; [done.. | congruence].
Qed.

Lemma waiting_clear_sub i h l : sublist (waiting i (alter Timer.clear h l)) (waiting i l).
Proof.
  revert h. induction l as [|x l IH]; intros [|h]; simpl; [done..| |].
  - unfold waiting. rewrite filter_cons_False.
    + rewrite filter_cons. case_decide; [by apply sublist_cons|done].
    + unfold scheduled_for. simpl. tauto.
  - unfold waiting. rewrite !filter_cons. case_decide.
    + apply sublist_skip. apply IH.
    + apply IH.
Qed.

Lemma waiting_clear_fired i h l x :
  l !! h = Some x → scheduled_for i Reconnect x = true →
  (length (waiting i l) ≤ 1)%nat →
  waiting i (alter Timer.clear h l) = [].
Proof.
  revert h. induction l as [|y l IH]; intros [|h] Hx Hs Hl; simplify_eq/=.
  - unfold waiting in *. rewrite filter_cons_True in Hl by (by rewrite Hs).
    rewrite filter_cons_False by (unfold scheduled_for; simpl; tauto).
    simpl in Hl. destruct (filter _ l); [done | simpl in Hl; lia].
  - unfold waiting in *. rewrite filter_cons in Hl |- *.
    case_decide.
    + simpl in Hl.
      assert (Hin : x ∈ filter (λ x0, scheduled_for i Reconnect x0) l).
      { apply list_elem_of_filter. split; [by rewrite Hs|].
        by eapply list_elem_of_lookup_2. }
      destruct (filter _ l); [by apply elem_of_nil in Hin | simpl in Hl; lia].
    + by apply (IH h).
Qed.

Lemma InvV_init : InvV [] [] [] ∅.
Proof. split; try done. intros i. simpl. lia. Qed.

(** Timers that are no reconnect timers may be added. *)
Lemma InvV_more_timers hs es ts reg extra :
  Forall (λ x, (Timer.owner x < length hs)%nat ∧ Timer.kind x ≠ Reconnect) extra →
  InvV hs es ts reg → InvV hs es (ts ++ extra) reg.
Proof.
  intros Hex [H1 H2 H3 H4 H5].
  assert (Hw : ∀ i, waiting i (ts ++ extra) = waiting i ts).
  { intros i. rewrite waiting_app.
    assert (waiting i extra = []) as ->; [|by rewrite app_nil_r].
    induction Hex as [|x l [_ Hx] _ IH]; [done|].
    change (x :: l) with ([x] ++ l). rewrite waiting_app, IH, app_nil_r.
    apply waiting_other. by left. }
  split; try done.
  - intros i b Hi. rewrite Hw. by apply H2.
  - intros i. rewrite Hw. apply H3.
  - apply Forall_app. split; [done|].
    eapply Forall_impl; [exact Hex|]. simpl. intros x [? ?]. split; [done|]. done.
Qed.

(** Any timer may be cleared. *)
Lemma InvV_clear hs es ts reg h :
  InvV hs es ts reg → InvV hs es (alter Timer.clear h ts) reg.
Proof.
  intros [H1 H2 H3 H4 H5]. split; try done.
  - intros i b Hi. destruct (H2 i b Hi) as [Hw Hb]. split; [|done].
    pose proof (waiting_clear_sub i h ts) as Hsub. rewrite Hw in Hsub.
    by apply sublist_nil_r in Hsub.
  - intros i. pose proof (sublist_length _ _ (waiting_clear_sub i h ts)).
    specialize (H3 i). lia.
  - apply Forall_alter; [done|]. intros x _ [? ?]. done.
Qed.

Lemma InvV_clear_opt hs es ts reg o :
  InvV hs es ts reg → InvV hs es (clear_opt o ts) reg.
Proof. destruct o; simpl; [apply InvV_clear | done]. Qed.

(** A service that holds no bot and waits for no reconnect takes a new
    bot, to which it listens. *)
Lemma InvV_start hs es ts reg i :
  hs !! i = Some None → waiting i ts = [] →
  InvV hs es ts reg →
  InvV (<[i := Some (length es)]> hs) (es ++ [Some i]) ts reg.
Proof.
  intros Hi Hw [H1 H2 H3 H4 H5].
  assert (Hlt : (i < length hs)%nat) by (by eapply lookup_lt_Some).
  split.
  - intros b j Hb. destruct (decide (b = length es)) as [->|Hne].
    + rewrite lookup_last in Hb. simplify_eq. by rewrite list_lookup_insert_eq.
    + rewrite lookup_app_l in Hb.
      2:{ apply lookup_lt_Some in Hb. rewrite length_app in Hb. simpl in Hb. lia. }
      specialize (H1 b j Hb). destruct (decide (j = i)) as [->|Hji];
        [congruence|]. by rewrite list_lookup_insert_ne.
  - intros j b Hj. destruct (decide (j = i)) as [->|Hji].
    + rewrite list_lookup_insert_eq in Hj by done. simplify_eq.
      split; [done|]. rewrite length_app. simpl. lia.
    + rewrite list_lookup_insert_ne in Hj by done.
      destruct (H2 j b Hj). split; [done|]. rewrite length_app. lia.
  - done.
  - by rewrite length_insert.
  - intros id j Hj. rewrite length_insert. by eapply H5.
Qed.

(** A service that holds a bot lets go of it; it may set a reconnect
    timer. *)
Lemma InvV_drop hs es ts reg i b extra :
  hs !! i = Some (Some b) →
  extra = [] ∨ (∃ x, extra = [x] ∧ Timer.owner x = i ∧ Timer.repeating x = false) →
  InvV hs es ts reg →
  InvV (<[i := None]> hs) (alter (λ _, None) b es) (ts ++ extra) reg.
Proof.
  intros Hi Hex [H1 H2 H3 H4 H5].
  assert (Hlt : (i < length hs)%nat) by (by eapply lookup_lt_Some).
  destruct (H2 i b Hi) as [Hwi Hbl].
  assert (Hw : ∀ j, j ≠ i → waiting j (ts ++ extra) = waiting j ts).
  { intros j Hj. rewrite waiting_app.
    destruct Hex as [-> | (x & -> & Hx & _)]; [by rewrite app_nil_r|].
    rewrite waiting_other, app_nil_r; [done|]. right. left. congruence. }
  split.
  - intros c j Hc. rewrite list_lookup_alter in Hc. case_decide.
    + subst c. destruct (es !! b); simplify_eq/=.
    + specialize (H1 c j Hc). destruct (decide (j = i)) as [->|Hji];
        [congruence|]. by rewrite list_lookup_insert_ne.
  - intros j c Hj. destruct (decide (j = i)) as [->|Hji].
    + rewrite list_lookup_insert_eq in Hj by done. simplify_eq.
    + rewrite list_lookup_insert_ne in Hj by done. rewrite Hw by done.
      destruct (H2 j c Hj). split; [done|]. by rewrite length_alter.
  - intros j. destruct (decide (j = i)) as [->|Hji].
    + rewrite waiting_app, Hwi. simpl.
      destruct Hex as [-> | (x & -> & _)]; [simpl; lia|].
      unfold waiting. rewrite filter_cons. case_decide; simpl; lia.
    + rewrite Hw by done. apply H3.
  - rewrite length_insert. apply Forall_app. split; [done|].
    destruct Hex as [-> | (x & -> & Hx & Hr)]; [done|].
    apply Forall_singleton. split; [lia|done].
  - intros id j Hj. rewrite length_insert. by eapply H5.
Qed.

(** A service that holds no bot stays as it is, whatever it is set to hold
    no bot again. *)
Lemma InvV_insert_None hs es ts reg i :
  hs !! i = Some None → InvV hs es ts reg → InvV (<[i := None]> hs) es ts reg.
Proof. intros Hi H. by rewrite list_insert_id. Qed.

(** A new service object, registered under [id]. *)
Lemma InvV_new hs es ts reg (id : Z) :
  InvV hs es ts reg → InvV (hs ++ [None]) es ts (<[id := length hs]> reg).
Proof.
  intros [H1 H2 H3 H4 H5]. split.
  - intros b i Hb. specialize (H1 b i Hb).
    rewrite lookup_app_l; [done|]. by eapply lookup_lt_Some.
  - intros i b Hi. destruct (decide (i = length hs)) as [->|Hne].
    + rewrite lookup_last in Hi. simplify_eq.
    + rewrite lookup_app_l in Hi; [by apply H2|].
      apply lookup_lt_Some in Hi. rewrite length_app in Hi. simpl in Hi. lia.
  - done.
  - eapply Forall_impl; [exact H4|]. simpl. intros x [? ?].
    rewrite length_app. simpl. split; [lia|done].
  - intros id' j Hj. rewrite length_app. simpl.
    rewrite lookup_insert in Hj. case_decide; simplify_eq; [lia|].
    specialize (H5 id' j Hj). lia.
Qed.

Lemma InvV_unregister hs es ts reg (id : Z) :
  InvV hs es ts reg → InvV hs es ts (delete id reg).
Proof.
  intros [H1 H2 H3 H4 H5]. split; try done.
  intros id' j Hj. rewrite lookup_delete in Hj. case_decide; simplify_eq.
  by eapply H5.
Qed.

Lemma holds_alter_bot v i (l : list Service.t) :
  Service.bot <$> alter (Service.set_bot v) i l
  = alter (λ _, v) i (Service.bot <$> l).
Proof. apply list_fmap_alter, Forall_forall. by intros []. Qed.

Lemma ears_alter_off b (l : list MBot.t) :
  MBot.listeners <$> alter MBot.removeAllListeners b l
  = alter (λ _, None) b (MBot.listeners <$> l).
Proof. apply list_fmap_alter, Forall_forall. by intros []. Qed.

Lemma ears_alter_on i b (l : list MBot.t) :
  MBot.listeners <$> alter (MBot.on i) b l
  = alter (λ _, Some i) b (MBot.listeners <$> l).
Proof. apply list_fmap_alter, Forall_forall. by intros []. Qed.

Ltac same_view :=
  rewrite ?(fmap_alter_same Service.bot) by (by intros []);
  rewrite ?(fmap_alter_same MBot.listeners) by (by intros []).

Ltac unfold_view := unfold Inv, holds, ears in *.

Lemma onEvent_quiet (w : World.t) (i : nat) (ev : BotEvent) :
  match ev with Spawn | Error _ _ | Kicked _ | End_ => False | _ => True end →
  Inv w → Inv (snd (onEvent i ev w)).
Proof.
  intros Hev Hinv. destruct ev; try done; clear Hev.
  all: unfold_view; unfold onEvent; unfold_ops; simpl.
  all: repeat case_match; simplify_eq/=; same_view; try assumption.
Qed.

Ltac push_view :=
  repeat first
    [ progress same_view
    | rewrite holds_alter_bot
    | rewrite ears_alter_off
    | rewrite ears_alter_on ].

Lemma holds_lookup (w : World.t) i s :
  World.services w !! i = Some s → holds w !! i = Some (Service.bot s).
Proof. intros H. unfold holds. by rewrite list_lookup_fmap, H. Qed.

Lemma holds_length (w : World.t) : length (holds w) = length (World.services w).
Proof. apply length_fmap. Qed.

Lemma onEvent_spawn (w : World.t) (i : nat) :
  Inv w → Inv (snd (onEvent i Spawn w)).
Proof.
  intros Hinv. unfold onEvent, startAIBehaviors. unfold_ops. simpl.
  repeat case_match; simplify_eq/=; unfold_view; simpl; push_view;
    try assumption.
  all: match goal with
       | H : World.services _ !! _ = Some _ |- _ =>
           pose proof (lookup_lt_Some _ _ _ H) as Hlt
       end.
  all: repeat (apply InvV_more_timers;
               [ apply Forall_singleton; simpl; rewrite length_fmap;
                 split; [exact Hlt | done] | ]).
  all: assumption.
Qed.

Lemma alter_const_insert {A} (v : A) (l : list A) (i : nat) x :
  l !! i = Some x → alter (λ _, v) i l = <[i := v]> l.
Proof. intros H. by rewrite (alter_is_insert _ _ _ _ H). Qed.

Lemma holds_inv (w : World.t) i o :
  holds w !! i = Some o →
  ∃ s, World.services w !! i = Some s ∧ Service.bot s = o.
Proof.
  unfold holds. rewrite list_lookup_fmap.
  destruct (World.services w !! i) as [s|]; intros; simplify_eq/=. eauto.
Qed.

Lemma handleDisconnection_inv (w : World.t) (i b : nat) :
  holds w !! i = Some (Some b) →
  Inv w → Inv (snd (handleDisconnection i w)).
Proof.
  intros Hh Hinv.
  destruct (holds_inv w i (Some b) Hh) as (s & Hs & Hb).
  unfold handleDisconnection. unfold_ops. simpl.
  rewrite Hs, Hb. simpl.
  rewrite (lookup_alter_here _ _ _ _ Hs). simpl.
  repeat case_match; simplify_eq/=; unfold_view; simpl; push_view.
  all: rewrite (alter_const_insert _ _ _ _ Hh).
  all: first
         [ apply InvV_drop;
           [ exact Hh
           | right; eexists; split; [reflexivity|]; split; reflexivity
           | exact Hinv ]
         | rewrite <- (app_nil_r (World.timers w));
           apply InvV_drop; [exact Hh | by left | exact Hinv] ].
Qed.

(** Emitting changes nothing that the invariant speaks about. *)
Lemma emit_frame (i : nat) (ev : Emit) (w : World.t) :
  ∃ w', emit i ev w = (Ok tt, w')
    ∧ World.services w' = World.services w
    ∧ World.bots w' = World.bots w
    ∧ World.timers w' = World.timers w
    ∧ World.botServices w' = World.botServices w.
Proof. destruct ev; unfold_ops; simpl; eauto 10. Qed.

Lemma Inv_frame (w w' : World.t) :
  World.services w' = World.services w →
  World.bots w' = World.bots w →
  World.timers w' = World.timers w →
  World.botServices w' = World.botServices w →
  Inv w → Inv w'.
Proof. unfold Inv, holds, ears. by intros -> -> -> ->. Qed.

Lemma emit_then (i : nat) (ev : Emit) (k : M unit) (w : World.t) :
  ∃ w', (emit i ev;; k) w = k w'
    ∧ World.services w' = World.services w
    ∧ World.bots w' = World.bots w
    ∧ World.timers w' = World.timers w
    ∧ World.botServices w' = World.botServices w.
Proof.
  destruct (emit_frame i ev w) as (w' & Hrun & H).
  exists w'. split; [|done]. unfold mbind, M_bind, bind. by rewrite Hrun.
Qed.

Lemma onEvent_inv (w : World.t) (i b : nat) (ev : BotEvent) :
  holds w !! i = Some (Some b) →
  Inv w → Inv (snd (onEvent i ev w)).
Proof.
  intros Hh Hinv.
  destruct ev; try (by apply onEvent_quiet); [by apply onEvent_spawn|..];
    unfold onEvent.
  - destruct (emit_then i (log "error" (errorMessageOf code message))
                (emit i (EError message);; handleDisconnection i) w)
      as (w1 & -> & Hs1 & Hb1 & Ht1 & Hr1).
    destruct (emit_then i (EError message) (handleDisconnection i) w1)
      as (w2 & -> & Hs2 & Hb2 & Ht2 & Hr2).
    apply (handleDisconnection_inv w2 i b).
    + unfold holds. by rewrite Hs2, Hs1.
    + apply (Inv_frame w); congruence.
  - destruct (emit_then i (log "warn" ("Bot was kicked: " +:+ reason))
                (handleDisconnection i) w)
      as (w1 & -> & Hs1 & Hb1 & Ht1 & Hr1).
    apply (handleDisconnection_inv w1 i b).
    + unfold holds. by rewrite Hs1.
    + apply (Inv_frame w); congruence.
  - destruct (emit_then i (log "info" "Bot disconnected")
                (handleDisconnection i) w)
      as (w1 & -> & Hs1 & Hb1 & Ht1 & Hr1).
    apply (handleDisconnection_inv w1 i b).
    + unfold holds. by rewrite Hs1.
    + apply (Inv_frame w); congruence.
Qed.

Lemma dispatch_inv (w : World.t) (b : nat) (ev : BotEvent) :
  Inv w → Inv (snd (dispatch b ev w)).
Proof.
  intros Hinv.
  set (w1 := match ev with
             | Login => World.set_bots (alter MBot.setLoggedIn b) w
             | End_ => World.set_bots (alter MBot.setEnded b) w
             | _ => w
             end).
  assert (Hinv1 : Inv w1).
  { subst w1. destruct ev; try done; unfold_view; simpl; by same_view. }
  assert (Hd : dispatch b ev w
               = (x ← the_bot b;
                  match MBot.listeners x with
                  | Some i => onEvent i ev
                  | None =>
                      match ev with
                      | Error _ message => throw message
                      | _ => ret tt
                      end
                  end) w1).
  { subst w1. unfold dispatch. destruct ev; reflexivity. }
  rewrite Hd. unfold the_bot, mbind, M_bind, bind.
  destruct (World.bots w1 !! b) as [x|] eqn:Hx; [|done].
  destruct (MBot.listeners x) as [i|] eqn:Hl; [|by destruct ev].
  apply (onEvent_inv w1 i b); [|done].
  apply (inv_ears _ _ _ _ Hinv1). unfold ears.
  by rewrite list_lookup_fmap, Hx, <- Hl.
Qed.

Lemma start_inv (w : World.t) (i : nat) :
  (holds w !! i = Some None → waiting i (World.timers w) = []) →
  Inv w → Inv (snd (start i w)).
Proof.
  intros Hw Hinv. unfold start. unfold_ops. simpl.
  destruct (World.services w !! i) as [s|] eqn:Hs; [|done]. simpl.
  destruct (Service.bot s) as [b|] eqn:Hb.
  { rewrite bool_decide_eq_true_2 by eauto. simpl. exact Hinv. }
  rewrite bool_decide_eq_false_2 by (intros [? ?]; done).
  assert (Hh : holds w !! i = Some None) by (by rewrite (holds_lookup w i s), Hb).
  specialize (Hw Hh).
  destruct (BotConfig.useRandomNames (Service.config s)); simpl.
  - destruct (NameGenerator.generateRandomUsername (World.usedNames w)
                (World.rng w)) as [[name used'] g']. simpl.
    destruct (Adapter.createThrows (World.adapter w)
                (Adapter.createCalls (World.adapter w))); simpl.
    + unfold_view. simpl. push_view. exact Hinv.
    + read_this i. simpl. unfold_view. simpl. push_view.
      rewrite fmap_app. simpl. rewrite <- (length_fmap MBot.listeners).
      rewrite alter_last, (alter_const_insert _ _ _ _ Hh).
      by apply InvV_start.
  - destruct (Adapter.createThrows (World.adapter w)
                (Adapter.createCalls (World.adapter w))); simpl.
    + unfold_view. simpl. push_view. exact Hinv.
    + read_this i. simpl. unfold_view. simpl. push_view.
      rewrite fmap_app. simpl. rewrite <- (length_fmap MBot.listeners).
      rewrite alter_last, (alter_const_insert _ _ _ _ Hh).
      by apply InvV_start.
Qed.

Lemma stop_inv (w : World.t) (i : nat) :
  Inv w → Inv (snd (stop i w)).
Proof.
  intros Hinv.
  destruct (World.services w !! i) as [s|] eqn:Hs.
  2:{ unfold stop. unfold_ops. by rewrite Hs. }
  destruct (stop_spec w i s Hs)
    as (w' & -> & _ & Htm & Hreg & _ & _ & _ & Hbots & Hsvc).
  simpl. unfold Inv, holds, ears. rewrite Htm, Hreg, Hbots, Hsvc.
  rewrite list_fmap_insert. simpl.
  do 3 apply InvV_clear_opt.
  pose proof (holds_lookup w i s Hs) as Hh.
  destruct (Service.bot s) as [b|] eqn:Hb.
  - assert (Hears : MBot.listeners <$>
                      match Adapter.quitThrows (World.adapter w) b with
                      | Some _ => alter MBot.removeAllListeners b (World.bots w)
                      | None => alter MBot.setEnded b
                                  (alter MBot.removeAllListeners b (World.bots w))
                      end
                    = alter (λ _, None) b (ears w)).
    { destruct (Adapter.quitThrows _ _); push_view; done. }
    rewrite Hears. rewrite <- (app_nil_r (World.timers w)).
    apply InvV_drop; [exact Hh | by left | exact Hinv].
  - apply InvV_insert_None; [exact Hh | exact Hinv].
Qed.

Lemma performWander_inv (w : World.t) (i : nat) :
  Inv w → Inv (snd (performWander i w)).
Proof.
  intros Hinv. unfold performWander. unfold_ops. simpl.
  repeat case_match; simplify_eq/=; unfold_view; simpl; push_view;
    try assumption.
  all: match goal with
       | H : World.services _ !! _ = Some _ |- _ =>
           pose proof (lookup_lt_Some _ _ _ H) as Hlt
       end.
  all: repeat (apply InvV_more_timers;
               [ apply Forall_singleton; simpl; rewrite length_fmap;
                 split; [exact Hlt | done] | ]).
  all: assumption.
Qed.

Lemma performRandomChat_inv (w : World.t) (i : nat) :
  Inv w → Inv (snd (performRandomChat i w)).
Proof.
  intros Hinv. unfold performRandomChat. unfold_ops. simpl.
  repeat case_match; simplify_eq/=; unfold_view; simpl; push_view;
    assumption.
Qed.

Lemma fire_inv (w : World.t) (h : nat) :
  Inv w → Inv (snd (fire h w)).
Proof.
  intros Hinv. unfold fire. unfold mbind, M_bind, bind, gets.
  destruct (World.timers w !! h) as [x|] eqn:Hx; [|done].
  destruct (Timer.scheduled x) eqn:Hsch; [|done].
  set (w1 := if negb (Timer.repeating x)
             then World.set_timers (alter Timer.clear h) w else w).
  assert (Hinv1 : Inv w1).
  { subst w1. destruct (Timer.repeating x); [done|]. by apply InvV_clear. }
  assert (Hw1 : when (negb (Timer.repeating x)) (clearTimer h) w = (Ok tt, w1)).
  { subst w1. by destruct (Timer.repeating x). }
  rewrite Hw1.
  destruct (Timer.kind x) eqn:Hk.
  - apply start_inv; [|done]. intros _.
    pose proof (inv_timers _ _ _ _ Hinv) as Hall.
    rewrite Forall_lookup in Hall. destruct (Hall h x Hx) as [_ Honce].
    subst w1. rewrite (Honce Hk). simpl.
    apply (waiting_clear_fired _ _ _ x); [done| |apply (inv_one _ _ _ _ Hinv)].
    unfold scheduled_for. rewrite Hsch, Hk. simpl.
    by rewrite !bool_decide_eq_true_2.
  - by apply performWander_inv.
  - by apply performRandomChat_inv.
  - unfold_ops. simpl. repeat case_match; simplify_eq/=; done.
  - unfold_ops. simpl.
    repeat case_match; simplify_eq/=; unfold_view; simpl; push_view;
      assumption.
Qed.

(** Sequencing and catching, for a property of the world. *)
Lemma bind_keeps {A B} (P : World.t → Prop) (m : M A) (k : A → M B) w :
  P (snd (m w)) → (∀ a w', P w' → P (snd (k a w'))) →
  P (snd ((m ≫= k) w)).
Proof.
  unfold mbind, M_bind, bind. destruct (m w) as [[a|e] w']; simpl; auto.
Qed.

Lemma try_catch_keeps {A} (P : World.t → Prop) (m : M A) h w :
  P (snd (m w)) → (∀ e w', P w' → P (snd (h e w'))) →
  P (snd (try_catch m h w)).
Proof.
  unfold try_catch. destruct (m w) as [[a|e] w']; simpl; auto.
Qed.

Lemma broadcast_keeps (P : World.t → Prop) w :
  P w → P (snd (broadcastToClients w)).
Proof.
  unfold broadcastToClients. unfold_ops. simpl. by destruct (existsb _ _).
Qed.

Lemma storage_keeps f (w : World.t) : Inv w → Inv (World.set_storage f w).
Proof. done. Qed.

Lemma waiting_fresh n (ts : list Timer.t) :
  Forall (λ x, (Timer.owner x < n)%nat) ts → waiting n ts = [].
Proof.
  induction 1 as [|x l Hx _ IH]; [done|].
  change (x :: l) with ([x] ++ l). rewrite waiting_app, IH, app_nil_r.
  apply waiting_other. right. left. lia.
Qed.

Lemma alreadyRunning_frame (botId : Z) (w : World.t) :
  ∃ r, alreadyRunning botId w = (r, w).
Proof.
  unfold alreadyRunning, isConnected. unfold_ops. simpl.
  repeat case_match; simplify_eq/=; eauto.
Qed.

Lemma startRoute_inv (w : World.t) (botId : Z) :
  Inv w → Inv (snd (startRoute botId w)).
Proof.
  intros Hinv. unfold startRoute.
  apply try_catch_keeps; [|by intros].
  unfold mbind at 1, M_bind at 1, bind at 1, gets.
  destruct (MemStorage.getBotConfig (Some botId) (World.storage w))
    as [config|]; [|done].
  unfold mbind at 1, M_bind at 1, bind at 1.
  destruct (alreadyRunning_frame botId w) as (r & ->).
  destruct r as [[|]|e]; [done| |done].
  set (n := length (World.services w)).
  set (w3 := World.set_botServices <[botId := n]>
               (World.set_services (λ l, l ++ [Service.new config]) w)).
  set (rest := λ _ : unit,
         modify (World.set_storage (MemStorage.updateBotStatus botId true));;
         broadcastToClients;; json "Bot start initiated").
  assert (Heq : (botService ← new_service config;
                 modify (World.set_botServices <[botId := botService]>);;
                 start botService;; rest tt) w
                = (start n ≫= rest) w3) by reflexivity.
  subst rest. cbv beta in Heq. rewrite Heq. clear Heq.
  assert (Hinv3 : Inv w3).
  { subst w3 n. unfold_view. simpl. rewrite fmap_app. simpl.
    rewrite <- (length_fmap Service.bot). by apply InvV_new. }
  apply bind_keeps.
  - apply start_inv; [|done]. intros _. subst w3. simpl.
    apply waiting_fresh. eapply Forall_impl; [apply (inv_timers _ _ _ _ Hinv)|].
    simpl. intros x [Hx _]. subst n. by rewrite <- holds_length.
  - intros _ w4 H4. apply bind_keeps; [done|]. intros _ w5 H5.
    apply bind_keeps; [by apply broadcast_keeps|]. by intros.
Qed.

Lemma unregister_keeps (botId : Z) (w : World.t) :
  Inv w → Inv (World.set_botServices (delete botId) w).
Proof. apply InvV_unregister. Qed.

Lemma stopRoute_inv (w : World.t) (botId : Z) :
  Inv w → Inv (snd (stopRoute botId w)).
Proof.
  intros Hinv. unfold stopRoute.
  apply try_catch_keeps.
  - apply bind_keeps; [done|]. intros reg w1 H1.
    destruct (reg !! botId) as [i|]; [|done].
    apply bind_keeps; [by apply stop_inv|]. intros _ w2 H2.
    apply bind_keeps; [by apply unregister_keeps|]. intros _ w3 H3.
    apply bind_keeps; [done|]. intros _ w4 H4.
    apply bind_keeps; [by apply broadcast_keeps|]. by intros.
  - intros _ w1 H1. apply bind_keeps; [|by intros].
    apply try_catch_keeps; [|by intros].
    apply bind_keeps; [done|]. intros reg w2 H2.
    destruct (reg !! botId) as [i|]; [|done].
    apply bind_keeps; [by apply stop_inv|]. intros _ w3 H3.
    apply bind_keeps; [by apply unregister_keeps|]. by intros.
Qed.

Lemma putConfigRoute_inv (w : World.t) id body :
  Inv w → Inv (snd (putConfigRoute id body w)).
Proof.
  intros Hinv. unfold putConfigRoute.
  apply bind_keeps; [done|]. intros st w1 H1.
  destruct (MemStorage.updateBotConfig body id st) as [[c st']|]; [|done].
  apply bind_keeps; [done|]. intros _ w2 H2.
  apply bind_keeps; [done|]. intros reg w3 H3.
  apply bind_keeps; [|by intros].
  destruct (reg !! BotConfig.id c) as [i|]; [|done].
  unfold updateConfig. unfold_ops. simpl. unfold_view. simpl. by same_view.
Qed.

Lemma createConfigRoute_inv (w : World.t) body :
  Inv w → Inv (snd (createConfigRoute body w)).
Proof.
  intros Hinv. unfold createConfigRoute.
  apply try_catch_keeps; [|by intros].
  apply bind_keeps; [done|]. intros st w1 H1.
  apply bind_keeps; [done|]. intros _ w2 H2.
  apply bind_keeps; [by apply broadcast_keeps|]. by intros.
Qed.

Lemma step_inv (w : World.t) (inp : Input) : Inv w → Inv (step w inp).
Proof.
  intros Hinv. unfold step, handle. destruct inp.
  - apply bind_keeps; [by apply startRoute_inv | by intros].
  - apply bind_keeps; [by apply stopRoute_inv | by intros].
  - apply bind_keeps; [by apply putConfigRoute_inv | by intros].
  - apply bind_keeps; [by apply createConfigRoute_inv | by intros].
  - by apply dispatch_inv.
  - by apply fire_inv.
  - done.
Qed.

(** Every server that a run reaches satisfies the invariant. *)
Theorem run_inv (g : Rng.t) (a : Adapter.t) (cs : list WsClient.t) (clock : Z)
    (inps : list Input) :
  Inv (run (World.init g a cs clock) inps).
Proof.
  assert (H0 : Inv (World.init g a cs clock)) by apply InvV_init.
  revert H0. generalize (World.init g a cs clock).
  induction inps as [|inp inps IH]; intros w Hw; simpl; [done|].
  pose proof (step_inv w inp Hw) as Hstep. unfold step in Hstep.
  destruct (handle inp w) as [[[]|err] w']; [by apply IH | exact Hstep].
Qed.

(** In a reachable server a service that holds a bot waits for no
    reconnect, no service waits for two, and a bot's listeners belong to the
    service that holds it. *)
Corollary reachable_sessions (g : Rng.t) (a : Adapter.t) (cs : list WsClient.t)
    (clock : Z) (inps : list Input) (i : nat) (s : Service.t) :
  let w := run (World.init g a cs clock) inps in
  World.services w !! i = Some s →
  (length (pending i Reconnect w) ≤ 1)%nat
  ∧ (is_Some (Service.bot s) → pending i Reconnect w = []).
Proof.
  intros w Hs. pose proof (run_inv g a cs clock inps) as Hinv. fold w in Hinv.
  split; [apply (inv_one _ _ _ _ Hinv)|].
  intros [b Hb]. apply (inv_idle _ _ _ _ Hinv i b).
  by rewrite (holds_lookup w i s), Hb.
Qed.

(** In a reachable server a disconnection of a service whose counter has
    reached [maxReconnectAttempts] leaves the service idle: it holds no bot
    and no reconnect timer is scheduled for it. *)
Corollary exhausted_is_idle (g : Rng.t) (a : Adapter.t) (cs : list WsClient.t)
    (clock : Z) (inps : list Input) (i b : nat) (s : Service.t) :
  let w := run (World.init g a cs clock) inps in
  World.services w !! i = Some s →
  Service.bot s = Some b →
  BotConfig.maxReconnectAttempts (Service.config s)
  ≤ Service.reconnectAttempts s →
  ∃ w', handleDisconnection i w = (Ok tt, w')
    ∧ Service.bot <$> World.services w' !! i = Some None
    ∧ pending i Reconnect w' = []
    ∧ new_logs i w w' = [exhaustion_log].
Proof.
  intros w Hs Hb Hge.
  destruct (reachable_sessions g a cs clock inps i s Hs) as [_ Hidle].
  fold w in Hidle.
  destruct (handleDisconnection_spec w i s Hs) as (w' & Hrun & _ & _ & _ & _ & H).
  destruct (Z.ltb_spec (Service.reconnectAttempts s)
              (BotConfig.maxReconnectAttempts (Service.config s))); [lia|].
  rewrite andb_false_r in H.
  destruct (Z.leb_spec (BotConfig.maxReconnectAttempts (Service.config s))
              (Service.reconnectAttempts s)); [|lia].
  destruct H as (Hsvc & Htm & Hlog).
  exists w'. rewrite Hsvc. split; [done|]. split; [done|].
  split; [|done]. unfold pending. rewrite Htm. apply Hidle. by rewrite Hb.
Qed.

(** * More properties *)

(** ** The insertion-ordered map *)

Section JsMapFacts.
Context {V : Type}.
Implicit Types (m : list (Z * V)) (k : Z) (v : V).

Lemma JsMap_get_set_ne k k' v m :
  k ≠ k' → JsMap.get k' (JsMap.set k v m) = JsMap.get k' m.
Proof.
  intros Hne. induction m as [|[k0 v0] m IH]; simpl.
  - destruct (Z.eqb_spec k' k); [congruence|done].
  - destruct (Z.eqb_spec k k0) as [->|Hk]; simpl.
    + destruct (Z.eqb_spec k' k0); [congruence|done].
    + destruct (Z.eqb_spec k' k0); [done|apply IH].
Qed.

Lemma JsMap_get_None k m :
  JsMap.get k m = None ↔ Forall (λ kv, fst kv ≠ k) m.
Proof.
  induction m as [|[k0 v0] m IH]; simpl.
  - split; [constructor|done].
  - destruct (Z.eqb_spec k k0) as [->|Hk].
    + split; [done|]. intros H. inversion H; simplify_eq/=.
    + rewrite IH. split.
      * intros H. constructor; [simpl; congruence|done].
      * intros H. by inversion H.
Qed.

Lemma JsMap_get_delete k k' m :
  JsMap.get k' (JsMap.delete k m)
  = if decide (k' = k) then None else JsMap.get k' m.
Proof.
  unfold JsMap.delete. induction m as [|[k0 v0] m IH]; simpl.
  - by case_decide.
  - destruct (decide (k0 = k)) as [->|Hne].
    + rewrite filter_cons_False by (simpl; tauto). rewrite IH.
      case_decide as Hk; [done|]. by destruct (Z.eqb_spec k' k).
    + rewrite filter_cons_True by done. simpl. rewrite IH.
      destruct (Z.eqb_spec k' k0) as [->|Hk]; [by rewrite decide_False|done].
Qed.

(** Writing under a key that is present keeps every key where it is. *)
Lemma JsMap_set_keys_present k v m :
  is_Some (JsMap.get k m) → map fst (JsMap.set k v m) = map fst m.
Proof.
  induction m as [|[k0 v0] m IH]; simpl; [by intros [? ?]|].
  destruct (Z.eqb_spec k k0) as [->|Hk]; simpl; [done|].
  intros H. by rewrite IH.
Qed.

Lemma JsMap_get_Some_elem k v m :
  JsMap.get k m = Some v → (k, v) ∈ m.
Proof.
  induction m as [|[k0 v0] m IH]; simpl; [done|].
  destruct (Z.eqb_spec k k0) as [->|Hk].
  - intros [= ->]. apply elem_of_cons. by left.
  - intros H. apply elem_of_cons. right. by apply IH.
Qed.

Lemma JsMap_set_Forall (P : Z * V → Prop) k v m :
  P (k, v) → Forall P m → Forall P (JsMap.set k v m).
Proof.
  intros Hkv. induction 1 as [|[k0 v0] m H0 Hm IH]; simpl.
  - by constructor.
  - destruct (Z.eqb_spec k k0); constructor; done.
Qed.
End JsMapFacts.

(** ** The configurations in the store *)

Lemma Forall_filter_keeps {A} (P : A → Prop) (Q : A → Prop)
    `{∀ x, Decision (Q x)} (l : list A) :
  Forall P l → Forall P (filter Q l).
Proof.
  induction 1 as [|x l Hx _ IH]; [constructor|].
  rewrite filter_cons. case_decide; [by constructor|done].
Qed.

Lemma configs_ok_new : configs_ok MemStorage.new.
Proof. unfold configs_ok. constructor; [split; [done | by vm_compute]|constructor]. Qed.

Lemma configs_ok_raise (st : MemStorage.t) l n :
  MemStorage.currentBotId st ≤ n →
  Forall (λ kc, BotConfig.id (snd kc) = fst kc
                ∧ fst kc ≤ MemStorage.currentBotId st) l →
  Forall (λ kc : Z * BotConfig.t, BotConfig.id (snd kc) = fst kc ∧ fst kc ≤ n) l.
Proof.
  intros Hn H. eapply Forall_impl; [exact H|]. intros kc [? ?]. split; [done|lia].
Qed.

Lemma apply_op_configs_ok (st : MemStorage.t) (op : StorageOp) :
  configs_ok st → configs_ok (apply_op st op).
Proof.
  unfold configs_ok. intros Hst. destruct op; simpl; try done.
  - apply JsMap_set_Forall; [simpl; split; [done|lia]|].
    apply (configs_ok_raise st); [lia|done].
  - unfold MemStorage.updateBotConfig.
    destruct (JsMap.get (opt_num_or id 1) (MemStorage.botConfigs st))
      as [existing|] eqn:Hget; simpl; [|done].
    apply JsMap_set_Forall; [|done]. simpl.
    apply JsMap_get_Some_elem in Hget.
    rewrite Forall_forall in Hst. by apply (Hst _ Hget).
  - unfold JsMap.delete. by apply Forall_filter_keeps.
  - unfold MemStorage.updateBotStatus.
    destruct (JsMap.get id (MemStorage.botConfigs st)) as [c|] eqn:Hget;
      simpl; [|done].
    apply JsMap_set_Forall; [|done]. simpl.
    apply JsMap_get_Some_elem in Hget.
    rewrite Forall_forall in Hst. by apply (Hst _ Hget).
Qed.

Lemma apply_ops_configs_ok (ops : list StorageOp) (st : MemStorage.t) :
  configs_ok st → configs_ok (apply_ops st ops).
Proof.
  revert st. induction ops as [|op ops IH]; intros st Hst; simpl; [done|].
  apply IH. by apply apply_op_configs_ok.
Qed.

Lemma apply_op_currentBotId (st : MemStorage.t) (op : StorageOp) :
  MemStorage.currentBotId st ≤ MemStorage.currentBotId (apply_op st op).
Proof.
  destruct op; simpl; try lia.
  - unfold MemStorage.updateBotConfig.
    destruct (JsMap.get _ _); simpl; lia.
  - unfold MemStorage.updateBotStatus.
    destruct (JsMap.get _ _); simpl; lia.
Qed.

Lemma currentBotId_positive (ops : list StorageOp) :
  1 ≤ MemStorage.currentBotId (apply_ops MemStorage.new ops).
Proof.
  assert (H : 1 ≤ MemStorage.currentBotId MemStorage.new) by done.
  revert H. generalize MemStorage.new.
  induction ops as [|op ops IH]; intros st Hst; simpl; [done|].
  apply IH. pose proof (apply_op_currentBotId st op). lia.
Qed.

(** X1.  Whatever was created, updated and deleted before,
    [createBotConfig] stores the new configuration under an id that no
    stored configuration has: it appends to the list of configurations,
    leaves every stored configuration as it was, and does not hand out the
    id of a deleted configuration again. *)
Theorem createBotConfig_never_overwrites (ops : list StorageOp)
    (config : InsertBotConfig.t) :
  let st := apply_ops MemStorage.new ops in
  let c := fst (MemStorage.createBotConfig config st) in
  let st' := snd (MemStorage.createBotConfig config st) in
  MemStorage.getBotConfig (Some (BotConfig.id c)) st = None
  ∧ MemStorage.currentBotId st < BotConfig.id c
  ∧ MemStorage.getAllBotConfigs st' = MemStorage.getAllBotConfigs st ++ [c]
  ∧ (∀ id, id ≠ 0 → id ≠ BotConfig.id c →
           MemStorage.getBotConfig (Some id) st'
           = MemStorage.getBotConfig (Some id) st).
Proof.
  intros st c st'.
  pose proof (apply_ops_configs_ok ops _ configs_ok_new) as Hok. fold st in Hok.
  assert (Hfresh : Forall (λ kc : Z * BotConfig.t,
                             fst kc ≠ MemStorage.currentBotId st + 1)
                          (MemStorage.botConfigs st)).
  { eapply Forall_impl; [exact Hok|]. simpl. intros kc [_ ?]. lia. }
  pose proof (currentBotId_positive ops) as Hpos. fold st in Hpos.
  subst c st'. simpl. split; [|split; [lia|split]].
  - destruct (Z.eqb_spec (MemStorage.currentBotId st + 1) 0); [lia|].
    by apply JsMap_get_None.
  - unfold MemStorage.getAllBotConfigs, JsMap.values. simpl.
    rewrite (JsMap_set_fresh _ _ _ Hfresh), map_app. done.
  - intros id H0 Hid. unfold MemStorage.getBotConfig. simpl.
    destruct (Z.eqb_spec id 0); [done|].
    by rewrite JsMap_get_set_ne.
Qed.

(** ** The log in the store *)

Lemma log_ok_new : log_ok MemStorage.new.
Proof. repeat split. constructor. Qed.

Lemma apply_op_log_ok (st : MemStorage.t) (op : StorageOp) :
  log_ok st → log_ok (apply_op st op).
Proof.
  intros (Hkeys & Hids & Hnext). destruct op; simpl; try done.
  - unfold MemStorage.updateBotConfig. by destruct (JsMap.get _ _).
  - unfold MemStorage.updateBotStatus. by destruct (JsMap.get _ _).
  - unfold log_ok. simpl.
    assert (Hfresh : Forall (λ kv : Z * LogEntry.t,
                               fst kv ≠ MemStorage.currentLogId st)
                            (MemStorage.logs st)).
    { apply Forall_forall. intros [k e] Hin.
      assert (Hk : k ∈ map fst (MemStorage.logs st)).
      { apply list_elem_of_fmap. by exists (k, e). }
      rewrite Hkeys in Hk. apply list_elem_of_fmap in Hk as (n & -> & Hn).
      apply elem_of_seq in Hn. simpl. lia. }
    rewrite (JsMap_set_fresh _ _ _ Hfresh), length_app. simpl.
    split; [|split].
    + rewrite map_app, Hkeys. simpl.
      rewrite Nat.add_1_r, seq_S, map_app. simpl. f_equal. f_equal. lia.
    + apply Forall_app. split; [done|]. by apply Forall_singleton.
    + lia.
Qed.

Lemma apply_ops_log_ok (ops : list StorageOp) (st : MemStorage.t) :
  log_ok st → log_ok (apply_ops st ops).
Proof.
  revert st. induction ops as [|op ops IH]; intros st Hst; simpl; [done|].
  apply IH. by apply apply_op_log_ok.
Qed.

(** X2.  In a store that only its own methods have written, the log
    entries carry the ids 1, 2, 3, ... in the order in which they were
    written since the log was last cleared; [createLogEntry] gives the next
    number to the entry it returns and puts it at the end. *)
Theorem log_ids_count_from_one (ops : list StorageOp) (now : Z)
    (entry : InsertLogEntry.t) :
  let st := apply_ops MemStorage.new ops in
  let n := length (MemStorage.logs st) in
  let e := fst (MemStorage.createLogEntry now entry st) in
  map LogEntry.id (JsMap.values (MemStorage.logs st))
  = map Z.of_nat (seq 1 n)
  ∧ LogEntry.id e = Z.of_nat n + 1
  ∧ JsMap.values (MemStorage.logs (snd (MemStorage.createLogEntry now entry st)))
    = JsMap.values (MemStorage.logs st) ++ [e]
  ∧ JsMap.values (MemStorage.logs (MemStorage.clearLogEntries st)) = []
  ∧ LogEntry.id (fst (MemStorage.createLogEntry now entry
                        (MemStorage.clearLogEntries st))) = 1.
Proof.
  intros st n e.
  destruct (apply_ops_log_ok ops _ log_ok_new) as (Hkeys & Hids & Hnext).
  fold st in Hkeys, Hids, Hnext. fold n in Hkeys, Hnext.
  split; [|split; [|split; [|done]]].
  - rewrite <- Hkeys. unfold JsMap.values. rewrite !map_map.
    apply map_ext_Forall. exact Hids.
  - subst e. simpl. exact Hnext.
  - destruct (apply_op_log_ok st (OpCreateLogEntry now entry))
      as (Hkeys' & _ & _); [done|].
    simpl in Hkeys'. subst e. simpl.
    assert (Hfresh : Forall (λ kv : Z * LogEntry.t,
                               fst kv ≠ MemStorage.currentLogId st)
                            (MemStorage.logs st)).
    { apply Forall_forall. intros [k e0] Hin.
      assert (Hk : k ∈ map fst (MemStorage.logs st)).
      { apply list_elem_of_fmap. by exists (k, e0). }
      rewrite Hkeys in Hk. apply list_elem_of_fmap in Hk as (m & -> & Hm).
      apply elem_of_seq in Hm. simpl. lia. }
    unfold JsMap.values. by rewrite (JsMap_set_fresh _ _ _ Hfresh), map_app.
Qed.

(** *** Reading the log *)

Section ReadingTheLog.
Implicit Types (l : list LogEntry.t) (x : LogEntry.t).

Lemma sort_insert_perm {A} (cmp : A → A → Z) (x : A) (l : list A) :
  sort_insert cmp x l ≡ₚ x :: l.
Proof.
  induction l as [|y l IH]; simpl; [done|].
  destruct (cmp x y <=? 0); [done|]. rewrite IH. apply perm_swap.
Qed.

Lemma js_sort_perm {A} (cmp : A → A → Z) (l : list A) : js_sort cmp l ≡ₚ l.
Proof.
  induction l as [|x l IH]; simpl; [done|].
  rewrite sort_insert_perm. by rewrite IH.
Qed.

Lemma sort_insert_newest_first x l :
  StronglySorted newest_first l →
  StronglySorted newest_first (sort_insert by_timestamp_desc x l).
Proof.
  induction 1 as [|y l Hl IH Hy]; simpl; [by repeat constructor|].
  unfold by_timestamp_desc at 1.
  destruct (Z.leb_spec (LogEntry.timestamp y - LogEntry.timestamp x) 0).
  - constructor; [by constructor|]. constructor; [unfold newest_first; lia|].
    eapply Forall_impl; [exact Hy|]. unfold newest_first. intros; lia.
  - constructor; [done|]. rewrite sort_insert_perm.
    constructor; [unfold newest_first; lia | done].
Qed.

Lemma js_sort_newest_first l :
  StronglySorted newest_first (js_sort by_timestamp_desc l).
Proof.
  induction l as [|x l IH]; simpl; [constructor|].
  by apply sort_insert_newest_first.
Qed.

Lemma elem_of_take_in {A} (n : nat) (k : list A) (a : A) :
  a ∈ take n k → a ∈ k.
Proof.
  intros Ha. rewrite <- (take_drop n k). apply elem_of_app. by left.
Qed.

Lemma elem_of_drop_in {A} (n : nat) (k : list A) (a : A) :
  a ∈ drop n k → a ∈ k.
Proof.
  intros Ha. rewrite <- (take_drop n k). apply elem_of_app. by right.
Qed.

Lemma take_newest_first n l :
  StronglySorted newest_first l → StronglySorted newest_first (take n l).
Proof.
  intros Hl. revert n. induction Hl as [|y l Hl IH Hy]; intros [|n]; simpl;
    try constructor; [apply IH|].
  apply Forall_forall. intros z Hz. rewrite Forall_forall in Hy.
  apply Hy. by eapply elem_of_take_in.
Qed.

Lemma take_before_drop n l :
  StronglySorted newest_first l →
  ∀ x y, x ∈ take n l → y ∈ drop n l → newest_first x y.
Proof.
  intros Hl. revert n. induction Hl as [|z l Hl IH Hz]; intros [|n] x y;
    simpl; try (by intros ?%elem_of_nil).
  intros [->|Hx]%elem_of_cons Hy.
  - rewrite Forall_forall in Hz. apply Hz. by eapply elem_of_drop_in.
  - by apply (IH n).
Qed.

Lemma rev_oldest_first l :
  StronglySorted newest_first l → StronglySorted oldest_first (rev l).
Proof.
  induction 1 as [|y l Hl IH Hy]; simpl; [constructor|].
  assert (Hsnoc : ∀ k, StronglySorted oldest_first k →
                       Forall (λ z, oldest_first z y) k →
                       StronglySorted oldest_first (k ++ [y])).
  { induction 1 as [|z k Hk IHk Hz]; intros Hall; simpl.
    - repeat constructor.
    - apply Forall_cons_1 in Hall as [Hzy Hall].
      constructor; [by apply IHk|].
      apply Forall_app. split; [done|]. by apply Forall_singleton. }
  apply Hsnoc; [done|].
  apply Forall_forall. intros z Hz%list_elem_of_In%in_rev%list_elem_of_In.
  rewrite Forall_forall in Hy. apply (Hy z Hz).
Qed.
End ReadingTheLog.

(** X3.  A read of the log returns stored entries only, ordered by
    non-decreasing timestamp, and at most [limit] of them (100 when no
    limit is given): all of them when the log holds no more than that. *)
Theorem getLogEntries_bounded_and_ordered (st : MemStorage.t)
    (limit : option nat) :
  let r := MemStorage.getLogEntries (Z.of_nat <$> limit) st in
  (∀ e, e ∈ r → e ∈ JsMap.values (MemStorage.logs st))
  ∧ StronglySorted oldest_first r
  ∧ length r
    = Nat.min (default 100%nat limit) (length (MemStorage.logs st)).
Proof.
  intros r. subst r. unfold MemStorage.getLogEntries.
  fold by_timestamp_desc.
  set (l := JsMap.values (MemStorage.logs st)).
  set (s := js_sort by_timestamp_desc l).
  assert (Hlim : nullish (Z.of_nat <$> limit) 100
                 = Z.of_nat (default 100%nat limit)) by (by destruct limit).
  rewrite Hlim. unfold slice0.
  destruct (Z.ltb_spec (Z.of_nat (default 100%nat limit)) 0); [lia|].
  split; [|split].
  - intros e He%list_elem_of_In%in_rev%list_elem_of_In.
    apply elem_of_take_in in He.
    by rewrite <- (js_sort_perm by_timestamp_desc l).
  - apply rev_oldest_first, take_newest_first, js_sort_newest_first.
  - rewrite length_rev, length_take.
    assert (length s = length (MemStorage.logs st)) as ->.
    { subst s l. rewrite (Permutation_length (js_sort_perm _ _)).
      apply length_map. }
    lia.
Qed.

(** X4.  What a read leaves out is never newer than what it returns: the
    stored entries split into the returned ones and a rest whose timestamps
    are at most those of every returned entry. *)
Theorem getLogEntries_returns_the_latest (st : MemStorage.t)
    (limit : option Z) :
  let r := MemStorage.getLogEntries limit st in
  ∃ rest,
    JsMap.values (MemStorage.logs st) ≡ₚ r ++ rest
    ∧ ∀ e e', e ∈ r → e' ∈ rest →
              LogEntry.timestamp e' ≤ LogEntry.timestamp e.
Proof.
  intros r. subst r. unfold MemStorage.getLogEntries.
  fold by_timestamp_desc.
  set (l := JsMap.values (MemStorage.logs st)).
  set (s := js_sort by_timestamp_desc l).
  unfold slice0. set (n := Z.to_nat _).
  exists (drop n s). split.
  - rewrite <- (js_sort_perm by_timestamp_desc l). fold s.
    rewrite <- (take_drop n s) at 1.
    apply Permutation_app_tail. by rewrite <- Permutation_rev.
  - intros e e' He%list_elem_of_In%in_rev%list_elem_of_In He'.
    apply (take_before_drop n s (js_sort_newest_first l) e e' He He').
Qed.

(** X5.  When every entry was written at a later instant than the one
    before it, a read of the log returns the last [limit] entries in the
    order in which they were written. *)
Theorem getLogEntries_in_write_order (st : MemStorage.t) (limit : nat) :
  StronglySorted (λ a b, LogEntry.timestamp a < LogEntry.timestamp b)
                 (JsMap.values (MemStorage.logs st)) →
  MemStorage.getLogEntries (Some (Z.of_nat limit)) st
  = drop (length (JsMap.values (MemStorage.logs st)) - limit)
         (JsMap.values (MemStorage.logs st)).
Proof. apply getLogEntries_increasing. Qed.

(** The theorem at three entries written a second apart, read with limit
    2. *)
Lemma getLogEntries_in_write_order_witness :
  map LogEntry.message (MemStorage.getLogEntries (Some 2) three_ticks)
  = ["two"; "three"].
Proof.
  change (Some 2) with (Some (Z.of_nat 2)).
  rewrite (getLogEntries_in_write_order three_ticks 2).
  - reflexivity.
  - repeat constructor.
Defined.

(** ** Updating, deleting and flagging configurations *)

Section JsMapKeys.
Context {V : Type}.
Implicit Types (m : list (Z * V)) (k : Z) (v : V).

Lemma JsMap_set_absent k v m :
  JsMap.get k m = None → JsMap.set k v m = m ++ [(k, v)].
Proof. intros H. by apply JsMap_set_fresh, JsMap_get_None. Qed.

Lemma JsMap_set_NoDup k v m :
  NoDup (map fst m) → NoDup (map fst (JsMap.set k v m)).
Proof.
  intros Hm. destruct (JsMap.get k m) as [v0|] eqn:Hget.
  - by rewrite JsMap_set_keys_present.
  - rewrite (JsMap_set_absent _ _ _ Hget), map_app. simpl.
    apply NoDup_app. split; [done|]. split; [|apply NoDup_singleton].
    intros k' Hk' ->%list_elem_of_singleton.
    apply JsMap_get_None in Hget. rewrite Forall_forall in Hget.
    apply list_elem_of_fmap in Hk' as ([k0 v0] & -> & Hin).
    by apply (Hget _ Hin).
Qed.

Lemma JsMap_delete_NoDup k m :
  NoDup (map fst m) → NoDup (map fst (JsMap.delete k m)).
Proof.
  unfold JsMap.delete. induction m as [|[k0 v0] m IH]; simpl; [done|].
  intros [Hk0 Hm]%NoDup_cons. rewrite filter_cons. case_decide; [|by apply IH].
  simpl. apply NoDup_cons. split; [|by apply IH].
  intros Hin. apply Hk0.
  apply list_elem_of_fmap in Hin as (kv & -> & Hkv).
  apply list_elem_of_filter in Hkv as [_ Hkv].
  apply list_elem_of_fmap. by exists kv.
Qed.

(** Rewriting the value under a key that is present changes that entry
    where it stands. *)
Lemma JsMap_set_present (f : V → V) k v0 m :
  NoDup (map fst m) → JsMap.get k m = Some v0 →
  JsMap.set k (f v0) m
  = map (λ kv, if decide (fst kv = k) then (k, f (snd kv)) else kv) m.
Proof.
  induction m as [|[k0 w0] m IH]; simpl; [done|].
  intros [Hk0 Hm]%NoDup_cons. destruct (Z.eqb_spec k k0) as [->|Hne].
  - intros [= ->]. rewrite decide_True by done. f_equal.
    rewrite <- (map_id m) at 1. apply map_ext_Forall.
    apply Forall_forall. intros [k1 w1] Hin. rewrite decide_False; [done|].
    simpl. intros ->. apply Hk0, list_elem_of_fmap. by exists (k0, w1).
  - intros Hget. rewrite decide_False by congruence. f_equal. by apply IH.
Qed.
End JsMapKeys.

Lemma getBotConfig_get (oid : option Z) (st : MemStorage.t) :
  MemStorage.getBotConfig oid st
  = JsMap.get (opt_num_or oid 1) (MemStorage.botConfigs st).
Proof.
  destruct oid as [i|]; simpl; [|done]. unfold num_or. by destruct (i =? 0).
Qed.

Lemma apply_op_keys_NoDup (st : MemStorage.t) (op : StorageOp) :
  NoDup (map fst (MemStorage.botConfigs st)) →
  NoDup (map fst (MemStorage.botConfigs (apply_op st op))).
Proof.
  intros Hst. destruct op; simpl; try done.
  - by apply JsMap_set_NoDup.
  - unfold MemStorage.updateBotConfig. destruct (JsMap.get _ _); simpl; [|done].
    by apply JsMap_set_NoDup.
  - by apply JsMap_delete_NoDup.
  - unfold MemStorage.updateBotStatus. destruct (JsMap.get _ _); simpl; [|done].
    by apply JsMap_set_NoDup.
Qed.

Lemma apply_ops_keys_NoDup (ops : list StorageOp) :
  NoDup (map fst (MemStorage.botConfigs (apply_ops MemStorage.new ops))).
Proof.
  assert (H : NoDup (map fst (MemStorage.botConfigs MemStorage.new))).
  { simpl. apply NoDup_singleton. }
  revert H. generalize MemStorage.new.
  induction ops as [|op ops IH]; intros st Hst; simpl; [done|].
  by apply IH, apply_op_keys_NoDup.
Qed.

Lemma configs_ok_ids (st : MemStorage.t) :
  configs_ok st →
  map BotConfig.id (MemStorage.getAllBotConfigs st)
  = map fst (MemStorage.botConfigs st).
Proof.
  intros H. unfold MemStorage.getAllBotConfigs, JsMap.values.
  rewrite map_map. apply map_ext_Forall.
  eapply Forall_impl; [exact H|]. by intros kc [? _].
Qed.

(** X6.  [updateBotConfig] throws exactly when [getBotConfig] with the same
    id finds nothing, and then it changes nothing.  Otherwise it returns the
    stored configuration overridden by the supplied fields; a read with the
    same id returns what it returned; the id, the order of the
    configurations, every other configuration and the log stay as they
    were. *)
Theorem updateBotConfig_then_get (ops : list StorageOp)
    (config : InsertBotConfig.t) (oid : option Z) :
  let st := apply_ops MemStorage.new ops in
  match MemStorage.updateBotConfig config oid st with
  | None => MemStorage.getBotConfig oid st = None
  | Some (c, st') =>
      (∃ existing, MemStorage.getBotConfig oid st = Some existing
                   ∧ c = MemStorage.merge existing config)
      ∧ MemStorage.getBotConfig oid st' = Some c
      ∧ BotConfig.id c = opt_num_or oid 1
      ∧ map BotConfig.id (MemStorage.getAllBotConfigs st')
        = map BotConfig.id (MemStorage.getAllBotConfigs st)
      ∧ (∀ oid', opt_num_or oid' 1 ≠ opt_num_or oid 1 →
                 MemStorage.getBotConfig oid' st'
                 = MemStorage.getBotConfig oid' st)
      ∧ MemStorage.logs st' = MemStorage.logs st
      ∧ MemStorage.currentBotId st' = MemStorage.currentBotId st
  end.
Proof.
  intros st.
  pose proof (apply_ops_configs_ok ops _ configs_ok_new) as Hok. fold st in Hok.
  pose proof (apply_op_configs_ok st (OpUpdateBotConfig config oid) Hok) as Hok'.
  simpl in Hok'. revert Hok'.
  unfold MemStorage.updateBotConfig. rewrite (getBotConfig_get oid st).
  destruct (JsMap.get (opt_num_or oid 1) (MemStorage.botConfigs st))
    as [existing|] eqn:Hget; [|done].
  simpl. intros Hok'.
  split; [by exists existing|].
  split; [by rewrite getBotConfig_get; simpl; rewrite JsMap_get_set|].
  split.
  { apply JsMap_get_Some_elem in Hget. unfold configs_ok in Hok.
    rewrite Forall_forall in Hok. by destruct (Hok _ Hget). }
  split.
  { rewrite !configs_ok_ids by done. simpl.
    by rewrite JsMap_set_keys_present. }
  split; [|done].
  intros oid' Hne. rewrite !getBotConfig_get. simpl.
  by apply JsMap_get_set_ne.
Qed.

(** X7.  Ids of configurations are never given out twice: whatever is
    done to the store in between, deletions included, a later
    [createBotConfig] returns a larger id than an earlier one. *)
Theorem createBotConfig_ids_increase (st : MemStorage.t)
    (ops : list StorageOp) (config1 config2 : InsertBotConfig.t) :
  let c1 := fst (MemStorage.createBotConfig config1 st) in
  let st1 := snd (MemStorage.createBotConfig config1 st) in
  let c2 := fst (MemStorage.createBotConfig config2 (apply_ops st1 ops)) in
  BotConfig.id c1 < BotConfig.id c2.
Proof.
  intros c1 st1 c2. subst c1 c2. simpl.
  assert (H : MemStorage.currentBotId st + 1 ≤ MemStorage.currentBotId st1)
    by (subst st1; simpl; lia).
  revert H. generalize st1. clear st1.
  induction ops as [|op ops IH]; intros st1 Hst; simpl; [lia|].
  apply IH. pose proof (apply_op_currentBotId st1 op). lia.
Qed.

(** X8.  [updateBotStatus] writes the flag [isActive] of the
    configuration with that id and nothing else: every configuration keeps
    its place and its other fields, and for an id that is not stored
    nothing changes. *)
Theorem updateBotStatus_writes_one_flag (ops : list StorageOp) (id : Z)
    (isActive : bool) :
  let st := apply_ops MemStorage.new ops in
  let st' := MemStorage.updateBotStatus id isActive st in
  MemStorage.getAllBotConfigs st'
  = map (λ c, if decide (BotConfig.id c = id)
              then MemStorage.setActive isActive c else c)
        (MemStorage.getAllBotConfigs st)
  ∧ (MemStorage.getBotConfig (Some id) st = None → id ≠ 0 → st' = st)
  ∧ MemStorage.logs st' = MemStorage.logs st
  ∧ MemStorage.currentBotId st' = MemStorage.currentBotId st.
Proof.
  intros st st'. subst st'.
  pose proof (apply_ops_configs_ok ops _ configs_ok_new) as Hok. fold st in Hok.
  pose proof (apply_ops_keys_NoDup ops) as Hnd. fold st in Hnd.
  unfold MemStorage.updateBotStatus, MemStorage.getAllBotConfigs.
  destruct (JsMap.get id (MemStorage.botConfigs st)) as [c|] eqn:Hget; simpl.
  - split; [|split; [|done]].
    + rewrite (JsMap_set_present (MemStorage.setActive isActive) _ _ _
                 Hnd Hget).
      unfold JsMap.values. rewrite !map_map. apply map_ext_Forall.
      eapply Forall_impl; [exact Hok|]. intros [k c0] [Hid _]. simpl in *.
      rewrite Hid. by case_decide.
    + intros Hnone Hid. destruct (Z.eqb_spec id 0); congruence.
  - split; [|done].
    rewrite <- (map_id (JsMap.values _)) at 1. apply map_ext_Forall.
    unfold JsMap.values. apply Forall_fmap.
    apply JsMap_get_None in Hget.
    apply Forall_forall. intros [k c0] Hin.
    unfold configs_ok in Hok. rewrite Forall_forall in Hget, Hok.
    destruct (Hok _ Hin) as [Hid _]. specialize (Hget _ Hin). simpl in *.
    rewrite decide_False; [done|]. by rewrite Hid.
Qed.

(** X9.  After [deleteBotConfig(id)] every read that resolves to [id]
    finds nothing and every update that resolves to it throws (for [id = 1]
    that includes the reads and updates made without an id); the other
    configurations stay, in their order. *)
Theorem deleteBotConfig_then_get (ops : list StorageOp) (id : Z) :
  let st := apply_ops MemStorage.new ops in
  let st' := MemStorage.deleteBotConfig id st in
  (∀ oid, MemStorage.getBotConfig oid st'
          = if decide (opt_num_or oid 1 = id) then None
            else MemStorage.getBotConfig oid st)
  ∧ (∀ config oid, opt_num_or oid 1 = id →
                   MemStorage.updateBotConfig config oid st' = None)
  ∧ MemStorage.getAllBotConfigs st'
    = filter (λ c, BotConfig.id c ≠ id) (MemStorage.getAllBotConfigs st)
  ∧ MemStorage.currentBotId st' = MemStorage.currentBotId st.
Proof.
  intros st st'. subst st'.
  pose proof (apply_ops_configs_ok ops _ configs_ok_new) as Hok. fold st in Hok.
  split; [|split; [|split; [|done]]].
  - intros oid. rewrite !getBotConfig_get. simpl. apply JsMap_get_delete.
  - intros config oid Hid. unfold MemStorage.updateBotConfig. simpl.
    by rewrite JsMap_get_delete, decide_True.
  - unfold MemStorage.getAllBotConfigs, JsMap.values, JsMap.delete. simpl.
    unfold configs_ok in Hok.
    induction Hok as [|[k c] m [Hid _] _ IH]; [done|]. simpl in Hid.
    unfold JsMap.delete in *. rewrite filter_cons. cbn [map fst snd].
    rewrite filter_cons, Hid.
    case_decide; cbn [map snd]; by rewrite IH.
Qed.

(** ** The service and the routes *)

(** X10.  In every server that a run reaches: a bot that still has
    listeners is the bot that its service holds, so each service hears at
    most one bot; a service that holds a bot has no reconnect pending, and no
    service has two; and every timer and every registry entry names a
    service that exists. *)
Theorem one_session_per_service (g : Rng.t) (a : Adapter.t)
    (cs : list WsClient.t) (clock : Z) (inps : list Input) :
  let w := run (World.init g a cs clock) inps in
  (∀ b x i, World.bots w !! b = Some x → MBot.listeners x = Some i →
            Service.bot <$> World.services w !! i = Some (Some b))
  ∧ (∀ i s, World.services w !! i = Some s →
            (length (pending i Reconnect w) ≤ 1)%nat
            ∧ ∀ b, Service.bot s = Some b →
                   pending i Reconnect w = [] ∧ is_Some (World.bots w !! b))
  ∧ (∀ h x, World.timers w !! h = Some x →
            is_Some (World.services w !! Timer.owner x)
            ∧ (Timer.kind x = Reconnect → Timer.repeating x = false))
  ∧ (∀ (id : Z) i, World.botServices w !! id = Some i →
                   is_Some (World.services w !! i)).
Proof.
  intros w. pose proof (run_inv g a cs clock inps) as Hinv. fold w in Hinv.
  destruct Hinv as [Hears Hidle Hone Htimers Hreg].
  split; [|split; [|split]].
  - intros b x i Hx Hl. rewrite <- list_lookup_fmap. apply Hears.
    unfold ears. by rewrite list_lookup_fmap, Hx, <- Hl.
  - intros i s Hs. split; [apply Hone|]. intros b Hb.
    destruct (Hidle i b) as [Hw Hlt].
    { by rewrite (holds_lookup w i s), Hb. }
    split; [exact Hw|]. apply lookup_lt_is_Some.
    unfold ears in Hlt. by rewrite length_fmap in Hlt.
  - intros h x Hx. rewrite Forall_lookup in Htimers.
    destruct (Htimers h x Hx) as [Hlt Honce]. split; [|done].
    apply lookup_lt_is_Some. by rewrite <- holds_length.
  - intros id i Hi. apply lookup_lt_is_Some. rewrite <- holds_length.
    by eapply Hreg.
Qed.

(** X11.  A second [stop()] changes nothing but what is emitted: the first
    one leaves the service, the timers, the bots, the held names and the
    registry in a state that [stop()] maps to itself, and the second logs
    nothing. *)
Theorem stop_twice (w : World.t) (i : nat) (s : Service.t) :
  World.services w !! i = Some s →
  ∃ w1 w2, stop i w = (Ok tt, w1) ∧ stop i w1 = (Ok tt, w2)
    ∧ World.services w2 = World.services w1
    ∧ World.timers w2 = World.timers w1
    ∧ World.bots w2 = World.bots w1
    ∧ World.usedNames w2 = World.usedNames w1
    ∧ World.botServices w2 = World.botServices w1
    ∧ new_logs i w1 w2 = [].
Proof.
  intros Hs.
  destruct (stop_spec w i s Hs) as (w1 & Hrun1 & Hs1 & _).
  destruct (stop_spec w1 i (stopped s) Hs1)
    as (w2 & Hrun2 & _ & Htm & Hreg & _ & Hused & Hlogs & Hbots & Hsvc).
  exists w1, w2. split; [done|]. split; [done|]. simpl in *.
  split; [|by rewrite andb_false_r in Hused].
  rewrite Hsvc. by apply list_insert_id.
Qed.

(** The theorem at the default bot while it connects. *)
Lemma stop_twice_witness :
  ∃ w1 w2, stop 0 w_connecting = (Ok tt, w1) ∧ stop 0 w1 = (Ok tt, w2)
    ∧ World.services w2 = World.services w1
    ∧ World.timers w2 = World.timers w1.
Proof.
  destruct (stop_twice w_connecting 0
              (Service.mk (Some 0%nat) MemStorage.defaultConfig 0 (Some 1000)
                          None None None "MinecraftBot_01" false) eq_refl)
    as (w1 & w2 & H1 & H2 & H3 & H4 & _).
  exists w1, w2. repeat split; assumption.
Defined.

(** X12.  When [createBot] raises, [start()] still returns normally: it
    logs the failure and emits the error, the service holds no bot and has
    no start time from this attempt, no bot is created and no timer is set
    (so nothing will try again), and the username that was resolved stays in
    [actualUsername]; a name drawn from the generator stays held. *)
Theorem start_when_createBot_raises (w : World.t) (i : nat) (s : Service.t)
    (err : string) :
  World.services w !! i = Some s →
  Service.bot s = None →
  Adapter.createThrows (World.adapter w) (Adapter.createCalls (World.adapter w))
  = Some err →
  ∃ w', start i w = (Ok tt, w')
    ∧ World.services w'
      = <[i := Service.set_actualUsername (effective_username w s) s]>
          (World.services w)
    ∧ World.bots w' = World.bots w
    ∧ World.timers w' = World.timers w
    ∧ World.botServices w' = World.botServices w
    ∧ drop (length (World.emitted w)) (World.emitted w')
      = failed_start_emits i w s err
    ∧ MemStorage.botConfigs (World.storage w')
      = MemStorage.botConfigs (World.storage w)
    ∧ World.usedNames w'
      = (if BotConfig.useRandomNames (Service.config s)
         then {[effective_username w s]} ∪ World.usedNames w
         else World.usedNames w)
    ∧ World.connectedClients w' = World.connectedClients w.
Proof.
  intros Hs Hb Hc.
  unfold start, failed_start_emits, effective_username, mbind, M_bind, bind.
  unfold this_ at 1. rewrite Hs.
  destruct s as [bot config ra st rt wi ci au iw]. simpl in Hb. subst bot.
  cbn [Service.bot Service.config].
  rewrite bool_decide_eq_false_2 by (intros [? ?]; done).
  pose proof (generateRandomUsername_holds (World.usedNames w) (World.rng w))
    as Hheld.
  destruct (BotConfig.useRandomNames config).
  - unfold_ops. simpl.
    destruct (NameGenerator.generateRandomUsername (World.usedNames w)
                (World.rng w)) as [[name used'] g'].
    simpl. rewrite Hc. simpl.
    eexists. split; [reflexivity|]. simpl.
    split; [by rewrite (alter_is_insert _ _ _ _ Hs)|].
    repeat rewrite <- (app_assoc (World.emitted w)).
    rewrite drop_app_length'. done.
  - unfold_ops. simpl. rewrite Hc. simpl.
    eexists. split; [reflexivity|]. simpl.
    split; [by rewrite (alter_is_insert _ _ _ _ Hs)|].
    repeat rewrite <- (app_assoc (World.emitted w)).
    rewrite drop_app_length'. done.
Qed.

(** The theorem at a new service for the default configuration. *)
Lemma start_when_createBot_raises_witness :
  let w := World.set_services (λ _, [Service.new MemStorage.defaultConfig])
             (World.init zeros create_raises [] 1000) in
  ∃ w', start 0 w = (Ok tt, w')
    ∧ World.bots w' = []
    ∧ World.timers w' = []
    ∧ map snd (drop (length (World.emitted w)) (World.emitted w'))
      = [log "info" "Starting bot with username: MinecraftBot_01";
         log "info" "Connecting to example.com:12345";
         log "error" "Failed to create bot: unsupported protocol version";
         EError "unsupported protocol version"].
Proof.
  intros w.
  destruct (start_when_createBot_raises w 0
              (Service.new MemStorage.defaultConfig)
              "unsupported protocol version" eq_refl eq_refl eq_refl)
    as (w' & Hrun & _ & Hbots & Htimers & _ & Hem & _).
  exists w'. split; [exact Hrun|]. split; [exact Hbots|].
  split; [exact Htimers|]. rewrite Hem. reflexivity.
Defined.

(** X13.  The start route answers 200 "Bot start initiated" also when
    [createBot] raised: the new service is registered without a bot and the
    configuration is stored as active, although no session exists. *)
Theorem startRoute_when_createBot_raises (w : World.t) (botId : Z)
    (config : BotConfig.t) (err : string) :
  botId ≠ 0 →
  MemStorage.getBotConfig (Some botId) (World.storage w) = Some config →
  World.botServices w !! botId = None →
  Adapter.createThrows (World.adapter w) (Adapter.createCalls (World.adapter w))
  = Some err →
  existsb (λ c, WsClient.readyOpen c && WsClient.sendThrows c)
          (World.connectedClients w) = false →
  ∃ w', startRoute botId w = (Ok (Response.mk 200 "Bot start initiated"), w')
    ∧ World.botServices w' = <[botId := length (World.services w)]>
                               (World.botServices w)
    ∧ World.services w'
      = World.services w
        ++ [Service.set_actualUsername
              (effective_username w (Service.new config)) (Service.new config)]
    ∧ World.bots w' = World.bots w
    ∧ World.timers w' = World.timers w
    ∧ MemStorage.getBotConfig (Some botId) (World.storage w')
      = Some (MemStorage.setActive true config).
Proof.
  intros Hid Hcfg Hreg Hc Hcl.
  set (n := length (World.services w)).
  set (w3 := World.set_botServices <[botId := n]>
               (World.set_services (λ l, l ++ [Service.new config]) w)).
  assert (Hs3 : World.services w3 !! n = Some (Service.new config)).
  { subst w3 n. simpl. apply lookup_last. }
  assert (Hc3 : Adapter.createThrows (World.adapter w3)
                  (Adapter.createCalls (World.adapter w3)) = Some err) by done.
  destruct (start_when_createBot_raises w3 n (Service.new config) err Hs3
              eq_refl Hc3)
    as (w4 & Hrun & Hsvc & Hbots & Htm & Hregs & _ & Hst & _ & Hcl4).
  set (rest := λ _ : unit,
         modify (World.set_storage (MemStorage.updateBotStatus botId true));;
         broadcastToClients;; json "Bot start initiated").
  assert (Heq : startRoute botId w
                = try_catch (start n ≫= rest)
                    (λ _, status_json 500 "Failed to start bot") w3).
  { unfold startRoute, alreadyRunning, try_catch, mbind, M_bind, bind, gets.
    rewrite Hcfg, Hreg. reflexivity. }
  rewrite Heq. unfold try_catch, mbind, M_bind, bind. rewrite Hrun.
  subst rest. cbv beta. unfold broadcastToClients. unfold_ops. simpl.
  change (World.connectedClients w3) with (World.connectedClients w) in Hcl4.
  rewrite Hcl4, Hcl. simpl.
  eexists. split; [reflexivity|]. simpl.
  split; [by rewrite Hregs|].
  split.
  { rewrite Hsvc. subst w3 n. simpl.
    replace (length (World.services w)) with (length (World.services w) + 0)%nat
      by lia.
    by rewrite insert_app_r. }
  split; [by rewrite Hbots|]. split; [by rewrite Htm|].
  assert (Hget : JsMap.get botId (MemStorage.botConfigs (World.storage w4))
                 = Some config).
  { rewrite Hst. subst w3. simpl. revert Hcfg. simpl.
    by destruct (Z.eqb_spec botId 0). }
  unfold MemStorage.updateBotStatus. rewrite Hget. simpl.
  destruct (Z.eqb_spec botId 0); [done|]. apply JsMap_get_set.
Qed.

(** The theorem at the default configuration of a server whose [createBot]
    raises. *)
Lemma startRoute_when_createBot_raises_witness :
  let w := World.init zeros create_raises [] 1000 in
  ∃ w', startRoute 1 w = (Ok (Response.mk 200 "Bot start initiated"), w')
    ∧ World.botServices w' !! 1 = Some 0%nat
    ∧ map Service.bot (World.services w') = [None]
    ∧ World.bots w' = []
    ∧ BotConfig.isActive <$> MemStorage.getBotConfig (Some 1) (World.storage w')
      = Some true.
Proof.
  intros w.
  destruct (startRoute_when_createBot_raises w 1 MemStorage.defaultConfig
              "unsupported protocol version")
    as (w' & Hrun & Hreg & Hsvc & Hbots & _ & Hst); try reflexivity.
  { discriminate. }
  exists w'. split; [exact Hrun|].
  split; [by rewrite Hreg|]. split; [by rewrite Hsvc|].
  split; [exact Hbots|]. by rewrite Hst.
Defined.

Lemma start_keeps_clients (w : World.t) (i : nat) :
  World.connectedClients (snd (start i w)) = World.connectedClients w.
Proof.
  unfold start. unfold_ops. simpl.
  repeat case_match; simplify_eq/=; reflexivity.
Qed.

(** X14.  When a websocket client's [send] raises during the broadcast
    that follows a start, the route answers 500 "Failed to start bot"
    although the bot was started: the new service is registered, holds the
    new bot and listens to it, and the configuration is stored as active. *)
Theorem startRoute_fails_after_starting (w : World.t) (botId : Z)
    (config : BotConfig.t) :
  botId ≠ 0 →
  MemStorage.getBotConfig (Some botId) (World.storage w) = Some config →
  World.botServices w !! botId = None →
  Adapter.createThrows (World.adapter w) (Adapter.createCalls (World.adapter w))
  = None →
  existsb (λ c, WsClient.readyOpen c && WsClient.sendThrows c)
          (World.connectedClients w) = true →
  ∃ w' x, startRoute botId w = (Ok (Response.mk 500 "Failed to start bot"), w')
    ∧ World.botServices w' !! botId = Some (length (World.services w))
    ∧ Service.bot <$> World.services w' !! length (World.services w)
      = Some (Some (length (World.bots w)))
    ∧ World.bots w' !! length (World.bots w) = Some x
    ∧ MBot.listeners x = Some (length (World.services w))
    ∧ MemStorage.getBotConfig (Some botId) (World.storage w')
      = Some (MemStorage.setActive true config).
Proof.
  intros Hid Hcfg Hreg Hc Hcl.
  set (n := length (World.services w)).
  set (w3 := World.set_botServices <[botId := n]>
               (World.set_services (λ l, l ++ [Service.new config]) w)).
  assert (Hs3 : World.services w3 !! n = Some (Service.new config)).
  { subst w3 n. simpl. apply lookup_last. }
  assert (Hc3 : Adapter.createThrows (World.adapter w3)
                  (Adapter.createCalls (World.adapter w3)) = None) by done.
  destruct (start_spec w3 n (Service.new config) Hs3 eq_refl Hc3)
    as (w4 & Hrun & Hsvc & Hbots & Hregs & _ & Hst & _).
  set (rest := λ _ : unit,
         modify (World.set_storage (MemStorage.updateBotStatus botId true));;
         broadcastToClients;; json "Bot start initiated").
  assert (Heq : startRoute botId w
                = try_catch (start n ≫= rest)
                    (λ _, status_json 500 "Failed to start bot") w3).
  { unfold startRoute, alreadyRunning, try_catch, mbind, M_bind, bind, gets.
    rewrite Hcfg, Hreg. reflexivity. }
  assert (Hcl4 : World.connectedClients w4 = World.connectedClients w).
  { pose proof (start_keeps_clients w3 n) as H. by rewrite Hrun in H. }
  rewrite Heq. unfold try_catch, mbind, M_bind, bind. rewrite Hrun.
  subst rest. cbv beta. unfold broadcastToClients. unfold_ops. simpl.
  rewrite Hcl4, Hcl. simpl.
  eexists _, _. split; [reflexivity|]. simpl.
  split; [by rewrite Hregs; subst w3; simpl; rewrite lookup_insert_eq|].
  split; [by rewrite Hsvc|].
  split; [rewrite Hbots; apply lookup_last|]. split; [done|].
  assert (Hget : JsMap.get botId (MemStorage.botConfigs (World.storage w4))
                 = Some config).
  { rewrite Hst. subst w3. simpl. revert Hcfg. simpl.
    by destruct (Z.eqb_spec botId 0). }
  unfold MemStorage.updateBotStatus. rewrite Hget. simpl.
  destruct (Z.eqb_spec botId 0); [done|]. apply JsMap_get_set.
Qed.

(** The theorem at the default configuration of a server with one client
    whose [send] raises. *)
Lemma startRoute_fails_after_starting_witness :
  let w := World.init zeros Adapter.reliable [WsClient.mk true true] 1000 in
  ∃ w', startRoute 1 w = (Ok (Response.mk 500 "Failed to start bot"), w')
    ∧ World.botServices w' !! 1 = Some 0%nat
    ∧ Service.bot <$> World.services w' !! 0%nat = Some (Some 0%nat)
    ∧ MBot.listeners <$> World.bots w' !! 0%nat = Some (Some 0%nat).
Proof.
  intros w.
  destruct (startRoute_fails_after_starting w 1 MemStorage.defaultConfig)
    as (w' & x & Hrun & Hreg & Hsvc & Hx & Hl & _); try reflexivity.
  { discriminate. }
  exists w'. split; [exact Hrun|]. split; [exact Hreg|].
  split; [exact Hsvc|].
  change (World.bots w' !! 0%nat = Some x) in Hx.
  change (MBot.listeners x = Some 0%nat) in Hl.
  rewrite Hx. simpl. f_equal. exact Hl.
Defined.

(** X15.  An update of a configuration whose bot is registered reaches
    the running service: the service gets the configuration that was
    stored, and keeps its bot, its timers, its counter and its username; the
    settings take effect at the next [start()].  An update of a
    configuration that does not exist is answered with 500 and changes
    nothing. *)
Theorem putConfigRoute_reaches_the_service (w : World.t) (id : option Z)
    (body : InsertBotConfig.t) :
  (MemStorage.getBotConfig id (World.storage w) = None →
   putConfigRoute id body w
   = (Ok (Response.mk 500 "Failed to update configuration"), w))
  ∧ (∀ existing i s,
       MemStorage.getBotConfig id (World.storage w) = Some existing →
       World.botServices w !! BotConfig.id existing = Some i →
       World.services w !! i = Some s →
       ∃ r w', putConfigRoute id body w = (Ok r, w')
         ∧ Response.status r = 200
         ∧ MemStorage.getBotConfig id (World.storage w')
           = Some (MemStorage.merge existing body)
         ∧ World.services w'
           = <[i := Service.set_config (MemStorage.merge existing body) s]>
               (World.services w)
         ∧ World.bots w' = World.bots w
         ∧ World.timers w' = World.timers w
         ∧ World.usedNames w' = World.usedNames w
         ∧ World.botServices w' = World.botServices w).
Proof.
  assert (Hget : MemStorage.getBotConfig id (World.storage w)
                 = JsMap.get (opt_num_or id 1)
                     (MemStorage.botConfigs (World.storage w))).
  { destruct id as [k|]; simpl; [|done]. unfold num_or. by destruct (k =? 0). }
  split.
  - rewrite Hget. intros Hnone.
    unfold putConfigRoute, MemStorage.updateBotConfig. unfold_ops. simpl.
    by rewrite Hnone.
  - intros existing i s Hex Hreg Hs. rewrite Hget in Hex.
    unfold putConfigRoute, MemStorage.updateBotConfig, updateConfig.
    unfold_ops. simpl. rewrite Hex. simpl. rewrite Hreg. simpl.
    eexists _, _. split; [reflexivity|]. simpl. split; [done|].
    split.
    { destruct id as [k|]; simpl; [|apply JsMap_get_set].
      unfold num_or. destruct (k =? 0); apply JsMap_get_set. }
    split; [by rewrite (alter_is_insert _ _ _ _ Hs)|]. done.
Qed.

(** A disconnecting event runs [handleDisconnection()] in a world where
    only the log, the emitted events and the bot's own flags differ. *)
Lemma disconnect_event (w : World.t) (b i : nat) (x : MBot.t) (ev : BotEvent) :
  World.bots w !! b = Some x →
  MBot.listeners x = Some i →
  disconnecting ev = true →
  ∃ w1, dispatch b ev w = handleDisconnection i w1
    ∧ World.services w1 = World.services w
    ∧ World.timers w1 = World.timers w
    ∧ World.botServices w1 = World.botServices w
    ∧ MBot.listeners <$> World.bots w1 = MBot.listeners <$> World.bots w.
Proof.
  intros Hx Hl Hev. rewrite (dispatch_to_listener w b i x) by done.
  destruct ev; try discriminate Hev; unfold onEvent.
  - destruct (emit_then i (log "error" (errorMessageOf code message))
                (emit i (EError message);; handleDisconnection i) w)
      as (w1 & -> & Hs1 & Hb1 & Ht1 & Hr1).
    destruct (emit_then i (EError message) (handleDisconnection i) w1)
      as (w2 & -> & Hs2 & Hb2 & Ht2 & Hr2).
    exists w2. split; [done|]. repeat split; congruence.
  - destruct (emit_then i (log "warn" ("Bot was kicked: " +:+ reason))
                (handleDisconnection i) w)
      as (w1 & -> & Hs1 & Hb1 & Ht1 & Hr1).
    exists w1. split; [done|]. repeat split; congruence.
  - destruct (emit_then i (log "info" "Bot disconnected")
                (handleDisconnection i)
                (World.set_bots (alter MBot.setEnded b) w))
      as (w1 & -> & Hs1 & Hb1 & Ht1 & Hr1).
    exists w1. split; [done|]. split; [done|]. split; [done|].
    split; [done|]. rewrite Hb1. simpl.
    apply fmap_alter_same. by intros [].
Qed.

(** X16.  With auto-reconnect switched off a lost session is not
    replaced: in every server that a run reaches, an [error], [kicked] or
    [end] event of a bot leaves its service without a bot, takes the
    listeners off the bot, sets no timer, and leaves no reconnect pending
    for the service. *)
Theorem no_reconnect_when_switched_off (g : Rng.t) (a : Adapter.t)
    (cs : list WsClient.t) (clock : Z) (inps : list Input) (b i : nat)
    (x : MBot.t) (s : Service.t) (ev : BotEvent) :
  let w := run (World.init g a cs clock) inps in
  World.bots w !! b = Some x →
  MBot.listeners x = Some i →
  World.services w !! i = Some s →
  BotConfig.autoReconnect (Service.config s) = false →
  disconnecting ev = true →
  ∃ w', dispatch b ev w = (Ok tt, w')
    ∧ Service.bot <$> World.services w' !! i = Some None
    ∧ MBot.listeners <$> World.bots w' !! b = Some None
    ∧ World.timers w' = World.timers w
    ∧ pending i Reconnect w' = [].
Proof.
  intros w Hx Hl Hs Hauto Hev.
  pose proof (run_inv g a cs clock inps) as Hinv. fold w in Hinv.
  assert (Hh : holds w !! i = Some (Some b)).
  { apply (inv_ears _ _ _ _ Hinv). unfold ears.
    by rewrite list_lookup_fmap, Hx, <- Hl. }
  assert (Hb : Service.bot s = Some b).
  { rewrite (holds_lookup w i s Hs) in Hh. congruence. }
  destruct (inv_idle _ _ _ _ Hinv i b Hh) as [Hidle _].
  destruct (disconnect_event w b i x ev Hx Hl Hev)
    as (w1 & Hrun & Hs1 & Ht1 & _ & He1).
  assert (Hs1i : World.services w1 !! i = Some s) by (by rewrite Hs1).
  destruct (handleDisconnection_spec w1 i s Hs1i)
    as (w' & Hrun' & _ & _ & _ & Hbots & H).
  rewrite Hauto in H. simpl in H.
  exists w'. split; [congruence|].
  assert (Hl1 : MBot.listeners <$> World.bots w' !! b = Some None).
  { rewrite Hbots, Hb. rewrite <- list_lookup_fmap, ears_alter_off.
    rewrite He1. rewrite list_lookup_alter, decide_True by done.
    by rewrite list_lookup_fmap, Hx. }
  destruct (BotConfig.maxReconnectAttempts (Service.config s)
            <=? Service.reconnectAttempts s);
    destruct H as (Hsvc & Htm & _); rewrite Hsvc;
    (split; [done|]); (split; [done|]); (split; [congruence|]);
    unfold pending; rewrite Htm, Ht1; exact Hidle.
Qed.

(** The theorem at the default bot, started with auto-reconnect switched
    off, when the server ends the session. *)
Lemma no_reconnect_when_switched_off_witness :
  let w := run fresh_server no_reconnect_run in
  ∃ w', dispatch 0 End_ w = (Ok tt, w')
    ∧ Service.bot <$> World.services w' !! 0%nat = Some None
    ∧ World.timers w' = []
    ∧ pending 0 Reconnect w' = [].
Proof.
  intros w.
  destruct (no_reconnect_when_switched_off zeros Adapter.reliable [] 1000
              no_reconnect_run 0 0
              (MBot.mk "example.com" 12345 "MinecraftBot_01" (Some 0%nat)
                       false false)
              (Service.mk (Some 0%nat)
                 (BotConfig.mk 1 "MinecraftBot_01" "example.com" 12345 false
                               30 10 "info" false false false false)
                 0 (Some 1000) None None None "MinecraftBot_01" false)
              End_ eq_refl eq_refl eq_refl eq_refl eq_refl)
    as (w' & Hrun & Hsvc & _ & Htm & Hp).
  exists w'. repeat split; assumption.
Defined.

(** X17.  Once [stop()] has taken the listeners off a bot, what the bot
    emits later no longer reaches the service: a [login], [spawn], [chat],
    [kicked], [end], [death] or [health] event changes nothing that the
    server holds but the bot's own flags.  An [error] event finds no
    listener either, and the emitter raises it as an exception, which
    nothing catches: the run ends there. *)
Theorem late_events_after_stop (w : World.t) (i b : nat) (s : Service.t)
    (x : MBot.t) :
  World.services w !! i = Some s →
  Service.bot s = Some b →
  World.bots w !! b = Some x →
  ∃ w1, stop i w = (Ok tt, w1)
    ∧ (∀ ev, (∀ c m, ev ≠ Error c m) →
         ∃ w2, dispatch b ev w1 = (Ok tt, w2)
           ∧ World.services w2 = World.services w1
           ∧ World.timers w2 = World.timers w1
           ∧ World.emitted w2 = World.emitted w1
           ∧ World.usedNames w2 = World.usedNames w1
           ∧ World.botServices w2 = World.botServices w1
           ∧ MBot.listeners <$> World.bots w2 = MBot.listeners <$> World.bots w1)
    ∧ (∀ c m rest,
         dispatch b (Error c m) w1 = (Throw m, w1)
         ∧ run w1 (Emits b (Error c m) :: rest) = w1).
Proof.
  intros Hs Hb Hx.
  destruct (stop_spec w i s Hs)
    as (w1 & Hrun & _ & _ & _ & _ & _ & _ & Hbots & _).
  rewrite Hb in Hbots.
  assert (Hx1 : ∃ x1, World.bots w1 !! b = Some x1 ∧ MBot.listeners x1 = None).
  { rewrite Hbots. destruct (Adapter.quitThrows (World.adapter w) b).
    - rewrite (lookup_alter_here _ _ _ _ Hx). eauto.
    - rewrite (lookup_alter_here _ _ _ (MBot.removeAllListeners x)).
      + eauto.
      + by apply lookup_alter_here. }
  destruct Hx1 as (x1 & Hx1 & Hl1).
  exists w1. split; [done|]. split.
  - intros ev Hev. unfold dispatch.
    destruct ev; unfold_ops; simpl;
      rewrite ?(lookup_alter_here _ _ _ _ Hx1), ?Hx1; simpl; rewrite ?Hl1;
      try (by destruct (Hev code message));
      eexists; (split; [reflexivity|]); simpl; repeat split;
      apply fmap_alter_same; by intros [].
  - intros c m rest.
    assert (Hd : dispatch b (Error c m) w1 = (Throw m, w1)).
    { unfold dispatch. unfold_ops. simpl. rewrite Hx1. simpl. by rewrite Hl1. }
    split; [done|]. cbn [run handle]. by rewrite Hd.
Qed.

(** The theorem at the default bot while it connects. *)
Lemma late_events_after_stop_witness :
  ∃ w1, stop 0 w_connecting = (Ok tt, w1)
    ∧ dispatch 0 (Error "ECONNRESET" "read ECONNRESET") w1
      = (Throw "read ECONNRESET", w1)
    ∧ run w1 [Emits 0 (Error "ECONNRESET" "read ECONNRESET"); PostStart 1] = w1.
Proof.
  destruct (late_events_after_stop w_connecting 0 0
              (Service.mk (Some 0%nat) MemStorage.defaultConfig 0 (Some 1000)
                          None None None "MinecraftBot_01" false)
              (MBot.mk "example.com" 12345 "MinecraftBot_01" (Some 0%nat)
                       false false)
              eq_refl eq_refl eq_refl)
    as (w1 & Hrun & _ & Herr).
  exists w1. split; [exact Hrun|].
  destruct (Herr "ECONNRESET" "read ECONNRESET" [PostStart 1]) as [H1 H2].
  split; assumption.
Defined.

(** ** The name generator and the chat *)

Lemma floor_mul_range (r : Q) (n : Z) :
  (0 <= r)%Q → (r < 1)%Q → 0 < n → 0 ≤ Rng.floor_mul r n < n.
Proof.
  intros H0 H1 Hn. unfold Rng.floor_mul. split.
  - change 0 with (Qfloor 0). apply Qfloor_resp_le.
    apply Qmult_le_0_compat; [done|].
    change 0%Q with (inject_Z 0). rewrite <- Zle_Qle. lia.
  - rewrite Zlt_Qlt. eapply Qle_lt_trans; [apply Qfloor_le|].
    eapply Qlt_le_trans.
    + apply Qmult_lt_compat_r; [|exact H1].
      change 0%Q with (inject_Z 0). rewrite <- Zlt_Qlt. lia.
    + rewrite Qmult_1_l. apply Qle_refl.
Qed.

Lemma at_index_in (arr : list string) (k : Z) :
  0 ≤ k < Z.of_nat (length arr) → NameGenerator.at_index arr k ∈ arr.
Proof.
  intros Hk. unfold NameGenerator.at_index.
  destruct (Z.ltb_spec k 0); [lia|].
  apply list_elem_of_In, nth_In. lia.
Qed.

(** X18.  As long as no call falls back, the names of [n] calls of the
    generator in a row are pairwise distinct, none of them was held before,
    each fits sixteen characters, and afterwards exactly these names are
    held in addition. *)
Theorem generated_names_are_distinct (n : nat) (used : gset string)
    (g : Rng.t) :
  loops_succeed n used g = true →
  NoDup (fst (fst (NameGenerator.allocate n used g)))
  ∧ Forall (λ u, (u ∉ used) ∧ (String.length u ≤ 16)%nat)
           (fst (fst (NameGenerator.allocate n used g)))
  ∧ snd (fst (NameGenerator.allocate n used g))
    = list_to_set (fst (fst (NameGenerator.allocate n used g))) ∪ used.
Proof.
  intros Hok. destruct (allocate_distinct n used g Hok) as [Hnd Hall].
  split; [done|]. split; [done|]. clear Hnd Hall.
  revert used g Hok. induction n as [|n IH]; intros used g Hok.
  { simpl. apply set_eq. intros z. rewrite elem_of_union, elem_of_empty.
    tauto. }
  cbn [NameGenerator.allocate]. cbn [loops_succeed] in Hok.
  unfold NameGenerator.generateRandomUsername.
  destruct (NameGenerator.attempt NameGenerator.maxAttempts used g)
    as [[u|] g1] eqn:Hloop; [|done].
  specialize (IH _ _ Hok).
  destruct (NameGenerator.allocate n ({[u]} ∪ used) g1) as [[names used'] g2].
  cbn [fst snd] in *. rewrite IH. cbn [list_to_set].
  apply set_eq. intros z. rewrite !elem_of_union. tauto.
Qed.

(** The theorem at three calls on the varied random source. *)
Lemma generated_names_are_distinct_witness :
  NoDup (fst (fst (NameGenerator.allocate 3 ∅ varied)))
  ∧ fst (fst (NameGenerator.allocate 3 ∅ varied))
    = ["IvyNewbie"; "CyberAria"; "RubyNoob"].
Proof.
  split.
  - apply (generated_names_are_distinct 3 ∅ varied). vm_compute. reflexivity.
  - vm_compute. reflexivity.
Defined.

Lemma append_nonempty_l (a b : string) : a ≠ "" → a +:+ b ≠ "".
Proof. destruct a; [done|]. by intros _. Qed.

Lemma at_index_nonempty (arr : list string) (k : Z) :
  Forall (λ s, s ≠ "") arr → NameGenerator.at_index arr k ≠ "".
Proof.
  intros Harr. unfold NameGenerator.at_index.
  destruct (k <? 0); [done|].
  destruct (nth_in_or_default (Z.to_nat k) arr "undefined") as [Hin| ->];
    [|done].
  rewrite Forall_forall in Harr. by apply Harr, list_elem_of_In.
Qed.

Lemma pick_nonempty (arr : list string) (g : Rng.t) :
  Forall (λ s, s ≠ "") arr → fst (NameGenerator.pick arr g) ≠ "".
Proof. intros Harr. unfold NameGenerator.pick. simpl. by apply at_index_nonempty. Qed.

Lemma firstNames_nonempty : Forall (λ s, s ≠ "") NameGenerator.firstNames.
Proof. repeat constructor; discriminate. Qed.

Lemma adjectives_nonempty : Forall (λ s, s ≠ "") NameGenerator.adjectives.
Proof. repeat constructor; discriminate. Qed.

Lemma candidate_nonempty (g : Rng.t) : fst (NameGenerator.candidate g) ≠ "".
Proof.
  unfold NameGenerator.candidate. simpl.
  repeat case_match; simplify_eq/=;
    repeat apply append_nonempty_l;
    first [ apply at_index_nonempty, firstNames_nonempty
          | apply at_index_nonempty, adjectives_nonempty ].
Qed.

Lemma attempt_nonempty n used g u g' :
  NameGenerator.attempt n used g = (Some u, g') → u ≠ "".
Proof.
  revert g. induction n as [|n IH]; intros g; simpl; [done|].
  pose proof (candidate_nonempty g) as Hc.
  destruct (NameGenerator.candidate g) as [c g1].
  destruct (NameGenerator.acceptable used c).
  - by intros [= <- <-].
  - apply IH.
Qed.

(** X19.  A [start()] with random names followed by a [stop()] gives the
    name back: when the generator returned from its retry loop, the service
    carries the drawn name while it runs, the name is held meanwhile, and
    after the stop the held names are what they were before the start. *)
Theorem start_stop_gives_the_name_back (w : World.t) (i : nat)
    (s : Service.t) (u : string) (g' : Rng.t) :
  World.services w !! i = Some s →
  Service.bot s = None →
  Adapter.createThrows (World.adapter w) (Adapter.createCalls (World.adapter w))
  = None →
  BotConfig.useRandomNames (Service.config s) = true →
  NameGenerator.attempt NameGenerator.maxAttempts (World.usedNames w)
    (World.rng w) = (Some u, g') →
  ∃ w1 w2, start i w = (Ok tt, w1)
    ∧ Service.actualUsername <$> World.services w1 !! i = Some u
    ∧ u ∈ World.usedNames w1
    ∧ stop i w1 = (Ok tt, w2)
    ∧ Service.actualUsername <$> World.services w2 !! i = Some ""
    ∧ World.usedNames w2 = World.usedNames w.
Proof.
  intros Hs Hb Hc Hr Hloop.
  destruct (attempt_fresh _ _ _ _ _ Hloop) as [Hfresh _].
  pose proof (attempt_nonempty _ _ _ _ _ Hloop) as Hne.
  assert (Hname : effective_username w s = u).
  { unfold effective_username. rewrite Hr.
    unfold NameGenerator.generateRandomUsername. by rewrite Hloop. }
  destruct (start_spec w i s Hs Hb Hc) as (w1 & Hrun1 & Hs1 & _).
  destruct (start_random_holds w i s Hs Hb Hc Hr) as (w1' & Hrun1' & Hu1).
  assert (w1' = w1) by congruence. subst w1'.
  rewrite Hname in Hu1.
  destruct (stop_spec w1 i _ Hs1)
    as (w2 & Hrun2 & Hs2 & _ & _ & _ & Hu2 & _).
  exists w1, w2. split; [done|].
  split; [by rewrite Hs1; simpl; rewrite Hname|].
  split; [rewrite Hu1; apply elem_of_union; left; by apply elem_of_singleton|].
  split; [done|]. split; [by rewrite Hs2|].
  rewrite Hu2. simpl. rewrite Hr, Hname. simpl.
  destruct (String.eqb_spec u ""); [done|]. simpl.
  rewrite Hu1. unfold NameGenerator.releaseUsername.
  apply set_eq. intros z.
  rewrite elem_of_difference, elem_of_union, elem_of_singleton.
  split; [intros [[->|Hz] Hn]; done|].
  intros Hz. split; [by right|]. by intros ->.
Qed.

(** The theorem at a new service for a configuration with random names. *)
Lemma start_stop_gives_the_name_back_witness :
  let config := BotConfig.mk 2 "MinecraftBot" "example.com" 12345 true 30 10
                             "info" false false true false in
  let w := World.set_services (λ _, [Service.new config]) varied_server in
  ∃ w1 w2, start 0 w = (Ok tt, w1)
    ∧ Service.actualUsername <$> World.services w1 !! 0%nat = Some "IvyNewbie"
    ∧ stop 0 w1 = (Ok tt, w2)
    ∧ World.usedNames w2 = ∅.
Proof.
  intros config w.
  destruct (start_stop_gives_the_name_back w 0 (Service.new config) "IvyNewbie"
              (snd (NameGenerator.attempt NameGenerator.maxAttempts ∅ varied))
              eq_refl eq_refl eq_refl eq_refl)
    as (w1 & w2 & H1 & H2 & _ & H3 & _ & H4).
  { vm_compute. reflexivity. }
  exists w1, w2. repeat split; assumption.
Defined.

(** X20.  A chat tick makes the bot say at most one line, and only one of
    the eighteen casual messages; the service logs what was said, and
    neither the services nor the bots nor the timers change. *)
Theorem chat_says_a_casual_message (w : World.t) (i b : nat) (s : Service.t)
    (x : MBot.t) :
  World.services w !! i = Some s →
  Service.bot s = Some b →
  World.bots w !! b = Some x →
  in_unit_interval (World.rng w) →
  ∃ w', performRandomChat i w = (Ok tt, w')
    ∧ World.services w' = World.services w
    ∧ World.bots w' = World.bots w
    ∧ World.timers w' = World.timers w
    ∧ ((World.commands w' = World.commands w ∧ new_logs i w w' = [])
       ∨ (∃ m, m ∈ casualMessages
               ∧ World.commands w' = World.commands w ++ [(b, Say m)]
               ∧ new_logs i w w'
                 = [InsertLogEntry.mk "info" ("Bot said: " +:+ m)])).
Proof.
  intros Hs Hb Hx Hrng. unfold performRandomChat, new_logs. unfold_ops. simpl.
  rewrite Hs. simpl. rewrite Hb. simpl. rewrite Hx. simpl.
  destruct (MBot.loggedIn x); simpl.
  2:{ eexists. split; [reflexivity|]. repeat split. left.
      by rewrite drop_all. }
  destruct (Rng.lt (Rng.draws (World.rng w) (Rng.pos (World.rng w))) (3 # 10));
    simpl.
  2:{ eexists. split; [reflexivity|]. simpl. repeat split. left.
      by rewrite drop_all. }
  eexists. split; [reflexivity|]. simpl. repeat split. right.
  eexists. split; [|split; [reflexivity|]].
  - apply at_index_in. apply floor_mul_range; [apply Hrng..|done].
  - rewrite drop_app_length'. unfold logs_of. simpl.
    by rewrite bool_decide_eq_true_2.
Qed.

(** The theorem at a bot that has logged in, on the varied random
    source. *)
Lemma chat_says_a_casual_message_witness :
  let w := run varied_server [PostStart 1; Emits 0 Login] in
  ∃ w', performRandomChat 0 w = (Ok tt, w')
    ∧ World.commands w' = [(0%nat, Say "beautiful world")].
Proof.
  intros w.
  destruct (chat_says_a_casual_message w 0 0
              (Service.mk (Some 0%nat) MemStorage.defaultConfig 0 (Some 1000)
                          None None None "MinecraftBot_01" false)
              (MBot.mk "example.com" 12345 "MinecraftBot_01" (Some 0%nat)
                       true false)
              eq_refl eq_refl eq_refl)
    as (w' & Hrun & _).
  { intros n.
    change (Rng.draws (World.rng w) n) with (Rng.draws varied n).
    split.
    - unfold Qle. simpl. lia.
    - unfold Qlt. simpl.
      pose proof (Nat.mod_upper_bound (n * 37 + 11) 100 ltac:(lia)). lia. }
  exists w'. split; [exact Hrun|].
  injection Hrun as <-. vm_compute. reflexivity.
Defined.

(** ** Exceptions *)

Lemma start_returns (w : World.t) (i : nat) :
  is_Some (World.services w !! i) → ∃ w', start i w = (Ok tt, w').
Proof.
  intros [s Hs]. unfold start. unfold_ops. simpl. rewrite Hs. simpl.
  repeat case_match; simplify_eq/=; eauto.
Qed.

Lemma getStatus_returns (w : World.t) (i : nat) (s : Service.t) :
  World.services w !! i = Some s →
  (∀ b, Service.bot s = Some b → is_Some (World.bots w !! b)) →
  ∃ st, getStatus i w = (Ok st, w).
Proof.
  intros Hs Hb. unfold_ops. rewrite Hs. simpl.
  destruct (Service.bot s) as [b|]; simpl; [|eauto].
  destruct (Hb b eq_refl) as [x ->]. simpl. eauto.
Qed.

Lemma performWander_returns (w : World.t) (i : nat) (s : Service.t) :
  World.services w !! i = Some s →
  (∀ b, Service.bot s = Some b → is_Some (World.bots w !! b)) →
  ∃ w', performWander i w = (Ok tt, w').
Proof.
  intros Hs Hb. unfold performWander. unfold_ops. simpl. rewrite Hs. simpl.
  destruct (Service.bot s) as [b|] eqn:Hbot; simpl; [|eauto].
  destruct (Hb b eq_refl) as [x Hx]. rewrite Hx. simpl.
  destruct (MBot.loggedIn x); simpl; [|eauto].
  read_this i. simpl. rewrite Hbot. simpl. rewrite Hx. simpl. eauto.
Qed.

Lemma performRandomChat_returns (w : World.t) (i : nat) (s : Service.t) :
  World.services w !! i = Some s →
  (∀ b, Service.bot s = Some b → is_Some (World.bots w !! b)) →
  ∃ w', performRandomChat i w = (Ok tt, w').
Proof.
  intros Hs Hb. unfold performRandomChat. unfold_ops. simpl. rewrite Hs. simpl.
  destruct (Service.bot s) as [b|] eqn:Hbot; simpl; [|eauto].
  destruct (Hb b eq_refl) as [x Hx]. rewrite Hx. simpl.
  repeat case_match; simplify_eq/=; eauto.
Qed.

Lemma Inv_service_bot (w : World.t) (i : nat) (s : Service.t) :
  Inv w → World.services w !! i = Some s →
  ∀ b, Service.bot s = Some b → is_Some (World.bots w !! b).
Proof.
  intros Hinv Hs b Hb.
  destruct (inv_idle _ _ _ _ Hinv i b) as [_ Hlt].
  { by rewrite (holds_lookup w i s), Hb. }
  apply lookup_lt_is_Some. unfold ears in Hlt. by rewrite length_fmap in Hlt.
Qed.

Lemma fire_returns (w : World.t) (h : nat) :
  Inv w → ∃ w', fire h w = (Ok tt, w').
Proof.
  intros Hinv. unfold fire. unfold mbind, M_bind, bind, gets.
  destruct (World.timers w !! h) as [x|] eqn:Hx; [|by eexists].
  destruct (Timer.scheduled x) eqn:Hsch; [|by eexists].
  set (w1 := if negb (Timer.repeating x)
             then World.set_timers (alter Timer.clear h) w else w).
  assert (Hw1 : when (negb (Timer.repeating x)) (clearTimer h) w = (Ok tt, w1)).
  { subst w1. by destruct (Timer.repeating x). }
  rewrite Hw1.
  assert (Hsame : World.services w1 = World.services w
                  ∧ World.bots w1 = World.bots w)
    by (subst w1; by destruct (Timer.repeating x)).
  destruct Hsame as [Hsv Hbt].
  pose proof (inv_timers _ _ _ _ Hinv) as Hall.
  rewrite Forall_lookup in Hall. destruct (Hall h x Hx) as [Hlt _].
  rewrite holds_length in Hlt. apply lookup_lt_is_Some in Hlt as [s Hs].
  assert (Hs1 : World.services w1 !! Timer.owner x = Some s) by (by rewrite Hsv).
  assert (Hb1 : ∀ b, Service.bot s = Some b → is_Some (World.bots w1 !! b)).
  { rewrite Hbt. by apply (Inv_service_bot w (Timer.owner x)). }
  destruct (Timer.kind x).
  - apply start_returns. by rewrite Hs1.
  - by apply (performWander_returns w1 _ s).
  - by apply (performRandomChat_returns w1 _ s).
  - unfold_ops. rewrite Hs1. simpl. destruct (Service.bot s); simpl; eauto.
  - unfold_ops. simpl. read_this (Timer.owner x). simpl.
    destruct (Service.bot s) as [b|] eqn:Hbot; simpl; [|eauto].
    destruct (Hb1 b eq_refl) as [y Hy]. rewrite Hy. simpl. eauto.
Qed.

Lemma onEvent_returns (w : World.t) (i b : nat) (s : Service.t) (x : MBot.t)
    (ev : BotEvent) :
  World.services w !! i = Some s →
  Service.bot s = Some b →
  World.bots w !! b = Some x →
  ∃ w', onEvent i ev w = (Ok tt, w').
Proof.
  intros Hs Hb Hx. destruct ev; unfold onEvent.
  - unfold_ops. simpl. rewrite Hs. simpl. rewrite Hb. simpl. rewrite Hx. simpl.
    read_this i. simpl. rewrite Hb. simpl. rewrite Hx. simpl. eauto.
  - unfold startAIBehaviors. unfold_ops. simpl. rewrite Hs. simpl.
    rewrite Hb. simpl. rewrite Hx. simpl. rewrite Hs. simpl. rewrite Hb. simpl.
    destruct (BotConfig.wanderEnabled (Service.config s)),
      (BotConfig.chatEnabled (Service.config s)); simpl; eauto.
  - unfold_ops. simpl. rewrite Hs. simpl. rewrite Hb. simpl. rewrite Hx. simpl.
    case_bool_decide; simpl; eauto.
  - destruct (emit_then i (log "error" (errorMessageOf code message))
                (emit i (EError message);; handleDisconnection i) w)
      as (w1 & -> & Hs1 & _).
    destruct (emit_then i (EError message) (handleDisconnection i) w1)
      as (w2 & -> & Hs2 & _).
    assert (Hs2' : World.services w2 !! i = Some s) by (by rewrite Hs2, Hs1).
    destruct (handleDisconnection_spec w2 i s Hs2') as (w' & -> & _). eauto.
  - destruct (emit_then i (log "warn" ("Bot was kicked: " +:+ reason))
                (handleDisconnection i) w)
      as (w1 & -> & Hs1 & _).
    assert (Hs1' : World.services w1 !! i = Some s) by (by rewrite Hs1).
    destruct (handleDisconnection_spec w1 i s Hs1') as (w' & -> & _). eauto.
  - destruct (emit_then i (log "info" "Bot disconnected")
                (handleDisconnection i) w)
      as (w1 & -> & Hs1 & _).
    assert (Hs1' : World.services w1 !! i = Some s) by (by rewrite Hs1).
    destruct (handleDisconnection_spec w1 i s Hs1') as (w' & -> & _). eauto.
  - unfold_ops. simpl. eauto.
  - unfold_ops. simpl. rewrite Hs. simpl.
    destruct (bool_decide _ && _); simpl; eauto.
Qed.

Lemma dispatch_returns (w : World.t) (b : nat) (x : MBot.t) (ev : BotEvent) :
  Inv w →
  World.bots w !! b = Some x →
  (MBot.listeners x = None → ∀ c m, ev ≠ Error c m) →
  ∃ w', dispatch b ev w = (Ok tt, w').
Proof.
  intros Hinv Hx Hev.
  destruct (MBot.listeners x) as [i|] eqn:Hl.
  - rewrite (dispatch_to_listener w b i x ev Hx Hl).
    assert (Hh : holds w !! i = Some (Some b)).
    { apply (inv_ears _ _ _ _ Hinv). unfold ears.
      by rewrite list_lookup_fmap, Hx, <- Hl. }
    destruct (holds_inv w i _ Hh) as (s & Hs & Hb).
    destruct ev;
      first [ by apply (onEvent_returns w i b s x)
            | eapply (onEvent_returns _ i b s); [done | done |];
              simpl; by apply lookup_alter_here ].
  - specialize (Hev eq_refl). unfold dispatch.
    destruct ev; unfold_ops; simpl;
      rewrite ?(lookup_alter_here _ _ _ _ Hx), ?Hx; simpl; rewrite ?Hl;
      try (by destruct (Hev code message)); eauto.
Qed.

(** X21.  In every server that a run reaches, no exception escapes a
    handler: every request to the four routes, every timer that comes due,
    every tick of the clock and every receivable event of a bot is handled
    to the end. *)
Theorem no_exception_escapes (g : Rng.t) (a : Adapter.t) (cs : list WsClient.t)
    (clock : Z) (inps : list Input) (inp : Input) :
  let w := run (World.init g a cs clock) inps in
  receivable w inp →
  ∃ w', handle inp w = (Ok tt, w').
Proof.
  intros w Hrec.
  pose proof (run_inv g a cs clock inps) as Hinv. fold w in Hinv.
  destruct inp; simpl in *.
  - unfold startRoute, try_catch, mbind, M_bind, bind.
    repeat case_match; simplify_eq/=; eauto.
  - unfold stopRoute, try_catch, mbind, M_bind, bind.
    repeat case_match; simplify_eq/=; eauto.
  - unfold putConfigRoute, updateConfig. unfold_ops. simpl.
    repeat case_match; simplify_eq/=; eauto.
  - unfold createConfigRoute, try_catch, mbind, M_bind, bind.
    repeat case_match; simplify_eq/=; eauto.
  - destruct Hrec as (x & Hx & Hev). by apply (dispatch_returns w b x).
  - by apply fire_returns.
  - unfold_ops. eauto.
Qed.

(** The theorem at the default bot while it connects, when the server ends
    the session. *)
Lemma no_exception_escapes_witness :
  ∃ w', handle (Emits 0 End_) w_connecting = (Ok tt, w').
Proof.
  apply (no_exception_escapes zeros Adapter.reliable [] 1000 [PostStart 1]
           (Emits 0 End_)).
  simpl. eexists. split; [reflexivity|]. discriminate.
Defined.
